(** * Workspace window manager: switch panel and workspace transitions

    A shallow embedding of two translation units of the Workspace window
    manager, and of the dead-process and click code of a third:

    - the switch panel (Alt-Tab cycling): [canReceiveFocus],
      [sameWindowClass], [changeImage], [scrollIcons],
      [makeWindowListArray], [wInitSwitchPanel], [wSwitchPanelSelectNext],
      [wSwitchPanelSelectFirst], [wSwitchPanelHandleEvent];
    - the workspace engine: [wWorkspaceNew], [wWorkspaceMake],
      [wWorkspaceSaveFocusedWindow], [wWorkspaceForceChange],
      [wWorkspaceChange], [wWorkspaceRelativeChange], [wWorkspaceDelete],
      [wWorkspaceRename], [wGetWorkspaceNumber];
    - event.c: [wAddDeathHandler], [wdelete_death_handler],
      [NotifyDeadProcess], [handleDeadProcess], [IsDoubleClick].

    The file gives the data of the units, then their operations, then
    the facts proved about them, then runs on concrete screens.

    Conventions.  C [int] values are integers of [Z]; an index handled
    here is bounded by an array length, far below [INT_MAX], so no
    wrap-around arises for it.  Where an [int] comes from outside (the
    amount of a relative change, a number read from a string) the
    wrap-around of the 32-bit result is written out with [int32].  C's
    [%] and [/] truncate toward zero and are [Z.rem] and [Z.quot].  A
    [WWindow *] stored in a CoreFoundation array is an address ([wptr])
    read through a heap [deref]; the screen's window list
    ([scr->focused_window] followed through [prev]) is the list of the
    windows in traversal order.  X11 requests, widget and menu painting
    and logging have no effect on the modelled state and are left out;
    the title that the switch panel draws is read through [wwin->frame]
    or [wwin->wm_class], which may be NULL: such a read ends the function
    without a result ([None]).  The calls to [wWindowUnmap],
    [wWindowMap], [wSetFocusTo], [wDockDestroy], [wArrangeIcons],
    [_showWorkspaceName] and [_postNotification] are recorded in the
    screen's call log; [wWindowChangeWorkspace] is applied to the window
    it is given and is not recorded.  [ProcessPendingEvents] (event.c)
    hands every pending event to its handler; what the handlers do to the
    screen is a parameter of the model.  The death handlers are blocks of
    a heap keyed by address; the callback of a handler is code of its
    owner, and a call of it is recorded with its arguments. *)

From stdpp Require Import base numbers list strings gmap pretty.
From Stdlib Require Import ZArith Lia.

Local Open Scope Z_scope.

(** ** Windows *)

(** [WFrameWindow]: only the workspace the frame is recorded on is read. *)
Record WFrameWindow := mkFrame { workspace : Z }.

(** [WIcon]: the miniwindow of a miniaturized window. *)
Record WIcon := mkIcon { icon_mapped : bool }.

(** The fields of [struct WWindow] read or written by the two units.
    [omnipresent] stands for the macro [IS_OMNIPRESENT], [no_focusable]
    for [WFLAGP(wwin, no_focusable)], [window_level] for [WINDOW_LEVEL]
    and [head] for [wGetHeadForWindow]; these are declared in headers
    outside the two units. *)
Record WWindow := mkWindow {
  client_win : Z;
  main_window : Z;
  wm_class : option string;
  wm_instance : string;
  frame : option WFrameWindow;
  icon : option WIcon;
  mapped : bool;
  shaded : bool;
  miniaturized : bool;
  hidden : bool;
  selected : bool;
  changing_workspace : bool;
  is_gnustep : bool;
  omnipresent : bool;
  no_focusable : bool;
  window_level : Z;
  head : Z
}.

(** Modelled from the spec: the macro [IS_OMNIPRESENT] is declared in
    window.h; the data model gives every window one omnipresent flag. *)
Definition IS_OMNIPRESENT (w : WWindow) : bool := omnipresent w.

(** The settings of [wPreferences] that the two units consult. *)
Record WPreferences := mkPrefs {
  cycle_active_head_only : bool;
  cycle_ignore_minimized : bool;
  swtileImage : bool;
  sticky_icons : bool;
  noclip : bool
}.

(** [tmp->frame->workspace], when the window has a frame. *)
Definition frame_workspace (w : WWindow) : option Z := workspace <$> frame w.

Definition on_workspace (w : WWindow) (ws : Z) : bool :=
  bool_decide (frame_workspace w = Some ws).

(** The bounds of a C [int], and the value an [int] takes when the
    mathematical result of an operation is [z]: two's complement
    wrap-around on 32 bits. *)
Definition INT_MIN : Z := -2147483648.
Definition INT_MAX : Z := 2147483647.

Definition int32 (z : Z) : Z := (z + 2 ^ 31) mod 2 ^ 32 - 2 ^ 31.

(** * The switch panel: data *)

Definition wptr := N.

Definition ICON_TILE_SIZE : Z := 64.
Definition SCREEN_BORDER_SPACING : Z := 2 * 20.
Definition ICON_SELECTED : Z := Z.shiftl 1 1.
Definition ICON_DIM : Z := Z.shiftl 1 2.

(** [kCFNotFound], the result of [CFArrayGetFirstIndexOfValue] when the
    value is absent. *)
Definition kCFNotFound : Z := -1.

Record WSwitchPanel := mkPanel {
  windows : list wptr;
  flags : list Z;
  current : Z;
  firstVisible : Z;
  visibleCount : Z;
  win : bool
}.

Definition set_flags (f : list Z) (p : WSwitchPanel) : WSwitchPanel :=
  mkPanel (windows p) f (current p) (firstVisible p) (visibleCount p) (win p).
Definition set_current (c : Z) (p : WSwitchPanel) : WSwitchPanel :=
  mkPanel (windows p) (flags p) c (firstVisible p) (visibleCount p) (win p).
Definition set_firstVisible (v : Z) (p : WSwitchPanel) : WSwitchPanel :=
  mkPanel (windows p) (flags p) (current p) v (visibleCount p) (win p).

(** [CFArrayGetCount]. *)
Definition CFArrayGetCount {A} (l : list A) : Z := Z.of_nat (length l).

(** [CFArrayGetValueAtIndex]; an index outside the array has no value. *)
Definition CFArrayGetValueAtIndex {A} (l : list A) (i : Z) : option A :=
  if i <? 0 then None else l !! Z.to_nat i.

(** [CFArraySetValueAtIndex] on an index of the array. *)
Definition CFArraySetValueAtIndex {A} (l : list A) (i : Z) (x : A) : list A :=
  if i <? 0 then l else <[Z.to_nat i := x]> l.

(** [CFArrayGetFirstIndexOfValue] over the whole array, with pointer
    equality (the arrays are created with NULL callbacks). *)
Fixpoint first_index_from (l : list wptr) (i : Z) (v : wptr) : Z :=
  match l with
  | [] => kCFNotFound
  | x :: rest => if N.eqb x v then i else first_index_from rest (i + 1) v
  end.

Definition CFArrayGetFirstIndexOfValue (l : list wptr) (v : wptr) : Z :=
  first_index_from l 0 v.

(** The fields of [struct WApplication] read by [makeWindowListArray]:
    the GNUstep flag, the menu window, the main window, the windows of
    the application and the one focused last.  A NULL pointer is [None]. *)
Record WAppWindows := mkAppWindows {
  app_is_gnustep : bool;
  menu_win : option wptr;
  main_window_desc : option wptr;
  app_windows : list wptr;
  last_focused : option wptr
}.

(** What [wSwitchPanelHandleEvent] reads of an [XEvent]: a
    [MotionNotify] carries the X window the pointer moved over. *)
Inductive XEvent :=
  | MotionNotify (xmotion_window : Z)
  | OtherEvent.

(** The string handed to [drawTitle]: [wwin->frame->title] (the title is
    not among the modelled fields of the frame), [wwin->wm_instance] or
    [wwin->wm_class]. *)
Inductive PanelTitle :=
  | FrameTitle
  | InstanceTitle (s : string)
  | ClassTitle (s : string).

(** The first index [i] with [WMWidgetXID(icons[i]) == window], or [-1]. *)
Fixpoint first_xid_from (icons : list Z) (i : Z) (window : Z) : Z :=
  match icons with
  | [] => -1
  | xid :: rest =>
      if xid =? window then i else first_xid_from rest (i + 1) window
  end.

(** * The workspace engine: data *)

Inductive Notification :=
  | WMDidCreateWorkspaceNotification
  | WMDidDestroyWorkspaceNotification
  | WMDidChangeWorkspaceNotification
  | WMDidChangeWorkspaceNameNotification.

(** The calls to collaborators that the model records, in the order
    they are made. *)
Inductive Call :=
  | PostNotification (name : Notification) (workspace_number : Z)
  | DockDestroy (workspace_number : Z)
  | WindowUnmap (client : Z)
  | WindowMap (client : Z)
  | SetFocusTo (client : option Z)
  | ArrangeIcons
  | ShowWorkspaceName (workspace_number : Z).

(** [WWorkspace]: [clip] tells whether the workspace owns a clip dock;
    [ws_focused_window] is the saved copy of the last focused window. *)
Record WWorkspace := mkWorkspace {
  name : string;
  clip : bool;
  ws_focused_window : option WWindow
}.

Record WApplication := mkApplication { wapp_last_workspace : Z }.

(** [WScreen].  [workspace_count] is the length of [workspaces];
    [focused_window] is the window list from its head; [wapps] is the
    table behind [wApplicationOf], keyed by main window. *)
Record WScreen := mkScreen {
  workspaces : list WWorkspace;
  current_workspace : Z;
  last_workspace : Z;
  focused_window : list WWindow;
  wapps : gmap Z WApplication;
  startup : bool;
  startup2 : bool;
  ignore_focus_events : bool;
  calls : list Call
}.

Definition workspace_count (scr : WScreen) : Z :=
  Z.of_nat (length (workspaces scr)).

Definition set_workspaces (l : list WWorkspace) (scr : WScreen) : WScreen :=
  mkScreen l (current_workspace scr) (last_workspace scr) (focused_window scr)
           (wapps scr) (startup scr) (startup2 scr) (ignore_focus_events scr)
           (calls scr).
Definition set_current_workspace (w : Z) (scr : WScreen) : WScreen :=
  mkScreen (workspaces scr) w (last_workspace scr) (focused_window scr)
           (wapps scr) (startup scr) (startup2 scr) (ignore_focus_events scr)
           (calls scr).
Definition set_last_workspace (w : Z) (scr : WScreen) : WScreen :=
  mkScreen (workspaces scr) (current_workspace scr) w (focused_window scr)
           (wapps scr) (startup scr) (startup2 scr) (ignore_focus_events scr)
           (calls scr).
Definition set_focused_window (l : list WWindow) (scr : WScreen) : WScreen :=
  mkScreen (workspaces scr) (current_workspace scr) (last_workspace scr) l
           (wapps scr) (startup scr) (startup2 scr) (ignore_focus_events scr)
           (calls scr).
Definition set_wapps (m : gmap Z WApplication) (scr : WScreen) : WScreen :=
  mkScreen (workspaces scr) (current_workspace scr) (last_workspace scr)
           (focused_window scr) m (startup scr) (startup2 scr)
           (ignore_focus_events scr) (calls scr).
Definition set_ignore_focus_events (b : bool) (scr : WScreen) : WScreen :=
  mkScreen (workspaces scr) (current_workspace scr) (last_workspace scr)
           (focused_window scr) (wapps scr) (startup scr) (startup2 scr) b
           (calls scr).
(** Record a call at the end of the log. *)
Definition call (c : Call) (scr : WScreen) : WScreen :=
  mkScreen (workspaces scr) (current_workspace scr) (last_workspace scr)
           (focused_window scr) (wapps scr) (startup scr) (startup2 scr)
           (ignore_focus_events scr) (calls scr ++ [c]).

(** [scr->workspaces[i]]. *)
Definition workspace_at (scr : WScreen) (i : Z) : option WWorkspace :=
  if i <? 0 then None else workspaces scr !! Z.to_nat i.

(** An assignment through [scr->workspaces[i]->...].  The source does
    not check the index; the callers keep it within the array, and for an
    index outside the array the model leaves the screen as it is. *)
Definition update_workspace (i : Z) (f : WWorkspace -> WWorkspace)
    (scr : WScreen) : WScreen :=
  if i <? 0 then scr
  else set_workspaces (alter f (Z.to_nat i) (workspaces scr)) scr.

Definition set_name (n : string) (w : WWorkspace) : WWorkspace :=
  mkWorkspace n (clip w) (ws_focused_window w).
Definition set_clip (c : bool) (w : WWorkspace) : WWorkspace :=
  mkWorkspace (name w) c (ws_focused_window w).
Definition set_ws_focused_window (f : option WWindow) (w : WWorkspace)
    : WWorkspace :=
  mkWorkspace (name w) (clip w) f.

(** [tmp->frame->workspace = ws]. *)
Definition set_frame_workspace (ws : Z) (w : WWindow) : WWindow :=
  mkWindow (client_win w) (main_window w) (wm_class w) (wm_instance w)
           ((fun _ => mkFrame ws) <$> frame w) (icon w) (mapped w) (shaded w)
           (miniaturized w) (hidden w) (selected w) (changing_workspace w)
           (is_gnustep w) (omnipresent w) (no_focusable w) (window_level w)
           (head w).

(** [tmp->icon->mapped = b]. *)
Definition set_icon_mapped (b : bool) (w : WWindow) : WWindow :=
  mkWindow (client_win w) (main_window w) (wm_class w) (wm_instance w)
           (frame w) ((fun _ => mkIcon b) <$> icon w) (mapped w) (shaded w)
           (miniaturized w) (hidden w) (selected w) (changing_workspace w)
           (is_gnustep w) (omnipresent w) (no_focusable w) (window_level w)
           (head w).

Definition set_mapped (b : bool) (w : WWindow) : WWindow :=
  mkWindow (client_win w) (main_window w) (wm_class w) (wm_instance w)
           (frame w) (icon w) b (shaded w)
           (miniaturized w) (hidden w) (selected w) (changing_workspace w)
           (is_gnustep w) (omnipresent w) (no_focusable w) (window_level w)
           (head w).

(** Modelled from the spec: [wWindowCreate] (window.c) is outside the two
    units; the saved slot is a minimal copy holding class, instance and
    numeric id, every other field being empty. *)
Definition wWindowCreate : WWindow :=
  mkWindow 0 0 None "" None None false false false false false false false
           false false 0 0.

(** Modelled from the spec: [wtrimspace] (core/string_utils) is outside
    the two units; it trims surrounding whitespace. *)
Fixpoint skip_spaces (s : string) : string :=
  match s with
  | String c rest => if Ascii.is_space c then skip_spaces rest else s
  | EmptyString => EmptyString
  end.

Definition wtrimspace (s : string) : string :=
  String.rev (skip_spaces (String.rev (skip_spaces s))).

(** [snprintf(buf, size, _("Workspace %i"), i)] in the untranslated
    locale: at most [size - 1] characters are stored. *)
Definition snprintf_workspace (size : nat) (i : Z) : string :=
  String.substring 0 (size - 1) ("Workspace " +:+ pretty i).

(** * Dead processes and clicks: data *)

(** An entry of the stack [deadProcesses]. *)
Record DeadProcesses := mkDeadProcesses { pid : Z; exit_status : Z }.

(** [struct DeathHandler]; its field [pid] is [handler_pid] here, and
    the function pointer [callback] and the pointer [client_data] are
    addresses. *)
Record DeathHandler := mkDeathHandler {
  callback : N;
  handler_pid : Z;
  client_data : N
}.

(** Calls out of the dead-process code, in the order they are made:
    [wWindowDeleteSavedStatesForPID] and the callback of a handler with
    its three arguments. *)
Inductive EventCall :=
  | DeleteSavedStatesForPID (p : Z)
  | DeathCallback (cb : N) (p : Z) (status : Z) (cdata : N).

(** The file-level state of event.c that the dead-process code works
    on: the array [deadProcesses] with its stack pointer, the handlers
    allocated with [malloc] (a handler is named by its address, 0 being
    NULL), and the array [deathHandlers], [None] while it is NULL. *)
Record EventState := mkEventState {
  deadProcesses : list DeadProcesses;
  deadProcessPtr : Z;
  handler_heap : gmap N DeathHandler;
  deathHandlers : option (list wptr);
  event_calls : list EventCall
}.

Definition set_deadProcessPtr (n : Z) (st : EventState) : EventState :=
  mkEventState (deadProcesses st) n (handler_heap st) (deathHandlers st)
               (event_calls st).
Definition event_call (c : EventCall) (st : EventState) : EventState :=
  mkEventState (deadProcesses st) (deadProcessPtr st) (handler_heap st)
               (deathHandlers st) (event_calls st ++ [c]).

(** The fields of [WScreen] behind [IsDoubleClick], and what it reads of
    a button event. *)
Record ClickState := mkClickState {
  last_click_time : Z;
  last_click_button : Z;
  last_click_window : Z;
  next_click_is_not_double : bool
}.

Record XButtonEvent := mkXButtonEvent {
  xbutton_time : Z;
  xbutton_button : Z;
  xbutton_window : Z
}.

(** * Operations *)

Section Model.

Variable wPreferences : WPreferences.
(** The heap through which the window pointers of the panel are read. *)
Variable deref : wptr -> WWindow.
(** [wwin->screen_ptr] of the windows of the panel, and
    [wGetHeadForPointerLocation(wwin->screen_ptr)]. *)
Variable screen_ptr : WScreen.
Variable pointer_head : Z.
(** Constants of WM.h and of the AppKit headers. *)
Variable MAX_WORKSPACES : Z.
Variable MAX_WORKSPACENAME_WIDTH : nat.
Variable NSMainMenuWindowLevel : Z.
(** Collaborators: what [wWindowMap], [wWindowUnmap] and
    [wWindowChangeWorkspace] (window.c) do to the window they are given,
    and what the handlers run by [ProcessPendingEvents] (event.c) do to
    the screen. *)
Variable wWindowMap : WWindow -> WWindow.
Variable wWindowUnmap : WWindow -> WWindow.
Variable wWindowChangeWorkspace : WWindow -> Z -> WWindow.
Variable ProcessPendingEvents : WScreen -> WScreen.
(** [WFLAGP(wwin, skip_switchpanel)], a window attribute kept outside the
    fields above. *)
Variable skip_switchpanel : WWindow -> bool.
(** [w_global.ignore_workspace_change] and the settings [ws_cycle] and
    [ws_advance] of [wPreferences]. *)
Variable ignore_workspace_change : bool.
Variable ws_cycle : bool.
Variable ws_advance : bool.
(** The macro [WMIN] of WM.h. *)
Variable WMIN : Z -> Z -> Z.
(** [sscanf(value, "%i", &w)]: the number read, when the conversion
    succeeds. *)
Variable sscanf_i : string -> option Z.
(** The size of the array [deadProcesses]. *)
Variable MAX_DEAD_PROCESSES : Z.
(** [time - last_click_time <= wPreferences.dblclick_time], in the
    arithmetic of the X type [Time]. *)
Variable within_dblclick_time : Z -> Z -> bool.

(** Proofs start from the section variables their statement mentions. *)
Ltac trim :=
  try clear within_dblclick_time; try clear MAX_DEAD_PROCESSES;
  try clear sscanf_i; try clear WMIN; try clear ws_advance;
  try clear ws_cycle; try clear ignore_workspace_change;
  try clear skip_switchpanel;
  try clear ProcessPendingEvents; try clear wWindowChangeWorkspace;
  try clear wWindowUnmap; try clear wWindowMap;
  try clear NSMainMenuWindowLevel; try clear MAX_WORKSPACENAME_WIDTH;
  try clear MAX_WORKSPACES; try clear pointer_head; try clear screen_ptr;
  try clear deref; try clear wPreferences.

(** ** The switch panel *)

Definition canReceiveFocus (wwin : WWindow) : Z :=
  if match frame wwin with
     | Some f => negb (workspace f =? current_workspace screen_ptr)
     | None => false
     end then 0
  else if cycle_active_head_only wPreferences
          && negb (head wwin =? pointer_head)
  then 0
  else if no_focusable wwin then 0
  else if negb (mapped wwin) then
    if negb (shaded wwin) && negb (miniaturized wwin) && negb (hidden wwin)
    then 0 else -1
  else 1.

Definition sameWindowClass (wwin curwin : WWindow) : bool :=
  match wm_class wwin, wm_class curwin with
  | Some wc, Some cc =>
      if (is_gnustep curwin || String.eqb cc "GNUstep")
         && negb (String.eqb (wm_instance wwin) (wm_instance curwin))
      then false
      else if negb (String.eqb wc cc) then false
      else true
  | _, _ => false
  end.

(** [changeImage]: apart from painting, it records the desired display
    flags of tile [idecks]; it does nothing when no panel is drawn. *)
Definition changeImage (panel : WSwitchPanel) (idecks : Z)
    (sel dim force : bool) : WSwitchPanel :=
  if negb (swtileImage wPreferences) then panel
  else
    let desired :=
      Z.lor (if sel then ICON_SELECTED else 0) (if dim then ICON_DIM else 0) in
    match CFArrayGetValueAtIndex (flags panel) idecks with
    | Some fl =>
        if (fl =? desired) && negb force then panel
        else set_flags (CFArraySetValueAtIndex (flags panel) idecks desired)
                       panel
    | None => panel
    end.

(** The repainting loop of [scrollIcons], over [n] tiles from index [i]. *)
Fixpoint scroll_repaint (n : nat) (i : Z) (panel : WSwitchPanel)
    : WSwitchPanel :=
  match n with
  | O => panel
  | S n' =>
      let panel' :=
        if i =? current panel then panel
        else
          match CFArrayGetValueAtIndex (flags panel) i with
          | Some fl =>
              changeImage panel i false (negb (Z.land fl ICON_DIM =? 0)) true
          | None => panel
          end in
      scroll_repaint n' (i + 1) panel'
  end.

Definition scrollIcons (panel : WSwitchPanel) (delta : Z) : WSwitchPanel :=
  let nfirst := firstVisible panel + delta in
  let count := CFArrayGetCount (windows panel) in
  if count <=? visibleCount panel then panel
  else
    let nfirst :=
      if nfirst <? 0 then 0
      else if nfirst >=? count - visibleCount panel
           then count - visibleCount panel
           else nfirst in
    if nfirst =? firstVisible panel then panel
    else
      let panel := set_firstVisible nfirst panel in
      scroll_repaint (Z.to_nat (visibleCount panel)) (firstVisible panel) panel.

(** [makeWindowFlagsArray]. *)
Definition makeWindowFlagsArray (count : Z) : list Z :=
  replicate (Z.to_nat count) 0.

(** The loop [for (i = 0; i < win_count; i++) changeImage(panel, i, 0,
    False, True)]. *)
Fixpoint init_images (n : nat) (i : Z) (panel : WSwitchPanel) : WSwitchPanel :=
  match n with
  | O => panel
  | S n' => init_images n' (i + 1) (changeImage panel i false false true)
  end.

(** [wInitSwitchPanel].  [fresh] is the block obtained from [wmalloc],
    [wins] the array built by [makeWindowListArray] and [rect_width] the
    width of the head under the pointer.  [None] is the NULL result. *)
Definition wInitSwitchPanel (fresh : WSwitchPanel) (wins : list wptr)
    (rect_width : Z) (curwin : wptr) : option WSwitchPanel :=
  let win_count := CFArrayGetCount wins in
  if win_count =? 0 then None
  else
    let width := ICON_TILE_SIZE * win_count in
    let iconsThatFitCount :=
      if width >? rect_width
      then Z.quot (rect_width - SCREEN_BORDER_SPACING) ICON_TILE_SIZE
      else win_count in
    let panel :=
      mkPanel wins (makeWindowFlagsArray win_count) (current fresh)
              (firstVisible fresh) iconsThatFitCount (win fresh) in
    if negb (swtileImage wPreferences) then Some panel
    else
      let panel :=
        mkPanel (windows panel) (flags panel) (current panel)
                (firstVisible panel) (visibleCount panel) true in
      let panel := init_images (Z.to_nat win_count) 0 panel in
      let panel :=
        if win_count >? 0 then
          let panel :=
            set_current (CFArrayGetFirstIndexOfValue (windows panel) curwin)
                        panel in
          if current panel >=? 0
          then changeImage panel (current panel) true false false
          else panel
        else panel in
      Some panel.

(** One pass of the [current--] / [current++] statement followed by
    [panel->current = (count + panel->current) % count]. *)
Definition advance (count : Z) (back : bool) (cur : Z) : Z :=
  Z.rem (count + (if back then cur - 1 else cur + 1)) count.

(** The inner [do ... while (!sameWindowClass(wwin, curwin))] loop of
    [wSwitchPanelSelectNext].  It returns the index and the window it
    stops on; [None] when an array read is out of range or the fuel runs
    out. *)
Fixpoint select_inner (fuel : nat) (wins : list wptr) (count orig : Z)
    (curwin : wptr) (back class_only : bool) (cur : Z) : option (Z * wptr) :=
  match fuel with
  | O => None
  | S fuel' =>
      let cur := advance count back cur in
      match CFArrayGetValueAtIndex wins cur with
      | None => None
      | Some wwin =>
          if negb class_only then Some (cur, wwin)
          else if cur =? orig then Some (cur, wwin)
          else if negb (sameWindowClass (deref wwin) (deref curwin))
          then select_inner fuel' wins count orig curwin back class_only cur
          else Some (cur, wwin)
      end
  end.

(** The outer [do ... while (ignore_minimized && panel->current != orig &&
    canReceiveFocus(wwin) < 0)] loop. *)
Fixpoint select_outer (fuel : nat) (wins : list wptr) (count orig : Z)
    (curwin : wptr) (back ignore_minimized class_only : bool) (cur : Z)
    : option (Z * wptr) :=
  match fuel with
  | O => None
  | S fuel' =>
      match select_inner (Z.to_nat count) wins count orig curwin back
                         class_only cur with
      | None => None
      | Some (cur, wwin) =>
          if ignore_minimized && negb (cur =? orig)
             && (canReceiveFocus (deref wwin) <? 0)
          then select_outer fuel' wins count orig curwin back ignore_minimized
                            class_only cur
          else Some (cur, wwin)
      end
  end.

(** The loop that resets every tile but the current one; it returns the
    panel and the local [dim]. *)
Fixpoint select_repaint (rest : list wptr) (i orig : Z) (curwin : wptr)
    (class_only : bool) (panel : WSwitchPanel) (dim : bool)
    : WSwitchPanel * bool :=
  match rest with
  | [] => (panel, dim)
  | tmpwin :: rest' =>
      let '(panel', dim') :=
        if i =? current panel then (panel, dim)
        else if negb class_only || sameWindowClass (deref tmpwin) (deref curwin)
        then (changeImage panel i false false false, dim)
        else (changeImage panel i false true false,
              if i =? orig then true else dim) in
      select_repaint rest' (i + 1) orig curwin class_only panel' dim'
  end.

(** The argument of [drawTitle] in [wSwitchPanelSelectNext]: under
    [class_only] the title of the frame, otherwise the instance of a
    GNUstep window and the class of any other.  [None] when the read goes
    through a NULL pointer: [wwin->frame] under [class_only],
    [wwin->wm_class] handed to [strcmp] otherwise. *)
Definition select_next_title (wwin : WWindow) (class_only : bool)
    : option PanelTitle :=
  if class_only then (fun _ => FrameTitle) <$> frame wwin
  else if is_gnustep wwin then Some (InstanceTitle (wm_instance wwin))
  else
    match wm_class wwin with
    | Some c =>
        if String.eqb c "GNUstep"
        then Some (InstanceTitle (wm_instance wwin))
        else Some (ClassTitle c)
    | None => None
    end.

(** [wSwitchPanelSelectNext].  The result pairs the updated panel with
    the returned window ([None] inside the pair is the NULL result); the
    outer [None] marks an out-of-range array read or a title read through
    a NULL pointer. *)
Definition wSwitchPanelSelectNext (panel : WSwitchPanel)
    (back ignore_minimized class_only : bool)
    : option (WSwitchPanel * option wptr) :=
  let count := CFArrayGetCount (windows panel) in
  let orig := current panel in
  if (count =? 0) || (orig <? 0) then Some (panel, None)
  else
    let ignore_minimized :=
      if negb (cycle_ignore_minimized wPreferences) then false
      else ignore_minimized in
    seed ← CFArrayGetValueAtIndex (windows panel)
                                  (Z.rem (count + current panel) count);
    let ignore_minimized :=
      if ignore_minimized && (canReceiveFocus (deref seed) <? 0) then false
      else ignore_minimized in
    curwin ← CFArrayGetValueAtIndex (windows panel) orig;
    '(cur, wwin) ← select_outer (Z.to_nat count) (windows panel) count orig
                      curwin back ignore_minimized class_only (current panel);
    let panel := set_current cur panel in
    let '(panel, dim) :=
      select_repaint (windows panel) 0 orig curwin class_only panel false in
    let panel :=
      if current panel <? firstVisible panel
      then scrollIcons panel (current panel - firstVisible panel)
      else if current panel - firstVisible panel >=? visibleCount panel
      then scrollIcons panel (current panel - firstVisible panel
                              - visibleCount panel + 1)
      else panel in
    if win panel then
      title ← select_next_title (deref wwin) class_only;
      let panel :=
        if negb (current panel =? orig)
        then changeImage panel orig false dim false
        else panel in
      Some (changeImage panel (current panel) true false false, Some wwin)
    else Some (panel, Some wwin).

(** [n] successive calls of [wSwitchPanelSelectNext] with the same
    arguments. *)
Fixpoint select_next_times (n : nat) (panel : WSwitchPanel)
    (back ignore_minimized class_only : bool) : option WSwitchPanel :=
  match n with
  | O => Some panel
  | S n' =>
      match wSwitchPanelSelectNext panel back ignore_minimized class_only with
      | Some (panel', _) =>
          select_next_times n' panel' back ignore_minimized class_only
      | None => None
      end
  end.

(** The application branch of [makeWindowListArray]: one window for
    each application that has one.  The log lines are left out; the one
    of a GNUstep application without menu window reads
    [w->wm_instance] through [main_window_desc], which must not be
    NULL. *)
Fixpoint app_windows_loop (wapp : list WAppWindows) (acc : list wptr)
    : list wptr :=
  match wapp with
  | [] => acc
  | a :: next =>
      let w :=
        if app_is_gnustep a then
          match menu_win a with
          | Some m => Some m
          | None => main_window_desc a
          end
        else if CFArrayGetCount (app_windows a) >? 0 then
          match last_focused a with
          | Some l => Some l
          | None => CFArrayGetValueAtIndex (app_windows a) 0
          end
        else None in
      app_windows_loop next
                       (match w with Some w => acc ++ [w] | None => acc end)
  end.

(** The window branch: [while (wwin)] along the [prev] links, from the
    focused window [focused]. *)
Fixpoint mapped_windows_loop (focused : wptr) (chain : list wptr)
    (include_unmapped : bool) (acc : list wptr) : list wptr :=
  match chain with
  | [] => acc
  | wwin :: prev =>
      if negb (canReceiveFocus (deref wwin) =? 0)
         && (mapped (deref wwin) || shaded (deref wwin) || include_unmapped)
         && negb (skip_switchpanel (deref wwin))
      then
        if negb (sameWindowClass (deref focused) (deref wwin))
        then mapped_windows_loop focused prev include_unmapped acc
        else mapped_windows_loop focused prev include_unmapped (acc ++ [wwin])
      else mapped_windows_loop focused prev include_unmapped acc
  end.

(** [makeWindowListArray].  [wapp_list] is the list behind
    [scr->wapp_list] and [chain] the addresses of the windows from
    [scr->focused_window] along [prev]. *)
Definition makeWindowListArray (wapp_list : list WAppWindows)
    (chain : list wptr) (include_unmapped class_only : bool) : list wptr :=
  if negb class_only then app_windows_loop wapp_list []
  else
    match chain with
    | [] => []
    | focused :: _ => mapped_windows_loop focused chain include_unmapped []
    end.

(** The loop [for (i = 0; i < count; i++) changeImage(panel, i,
    i == focus, False, False)] of [wSwitchPanelSelectFirst] and of
    [wSwitchPanelHandleEvent]. *)
Fixpoint select_one_repaint (n : nat) (i focus : Z) (panel : WSwitchPanel)
    : WSwitchPanel :=
  match n with
  | O => panel
  | S n' =>
      select_one_repaint n' (i + 1) focus
                         (changeImage panel i (i =? focus) false false)
  end.

(** [wSwitchPanelSelectFirst], with the result as for
    [wSwitchPanelSelectNext]. *)
Definition wSwitchPanelSelectFirst (panel : WSwitchPanel) (back : bool)
    : option (WSwitchPanel * option wptr) :=
  let count := CFArrayGetCount (windows panel) in
  if count =? 0 then Some (panel, None)
  else
    let panel :=
      if back then scrollIcons (set_current (count - 1) panel) count
      else scrollIcons (set_current 0 panel) (- count) in
    wwin ← CFArrayGetValueAtIndex (windows panel) (current panel);
    let panel :=
      if win panel
      then select_one_repaint (Z.to_nat count) 0 (current panel) panel
      else panel in
    Some (panel, Some wwin).

(** [wSwitchPanelHandleEvent].  [icons] holds the X window of each tile
    of [panel->icons].  The title that is logged and drawn is
    [wwin->frame->title]: the outer [None] marks this read through a NULL
    [wwin->frame], or an out-of-range array read. *)
Definition wSwitchPanelHandleEvent (panel : WSwitchPanel) (icons : list Z)
    (event : XEvent) : option (WSwitchPanel * option wptr) :=
  if negb (win panel) then Some (panel, None)
  else
    let focus :=
      match event with
      | MotionNotify window => first_xid_from icons 0 window
      | OtherEvent => -1
      end in
    if (focus >=? 0) && negb (current panel =? focus) then
      let panel :=
        select_one_repaint (Z.to_nat (CFArrayGetCount (windows panel))) 0
                           focus panel in
      let panel := set_current focus panel in
      wwin ← CFArrayGetValueAtIndex (windows panel) focus;
      title ← (fun _ => FrameTitle) <$> frame (deref wwin);
      Some (panel, Some wwin)
    else Some (panel, None).

(** ** The workspace engine *)

Definition _postNotification (n : Notification) (workspace_number : Z)
    (scr : WScreen) : WScreen :=
  call (PostNotification n workspace_number) scr.

(** [wWorkspaceNew]: the screen afterwards and the returned index. *)
Definition wWorkspaceNew (scr : WScreen) : WScreen * Z :=
  if workspace_count scr <? MAX_WORKSPACES then
    let count := workspace_count scr + 1 in
    let name_length := (String.length "Workspace %i" + 8)%nat in
    let wspace :=
      mkWorkspace (snprintf_workspace name_length count)
                  (negb (noclip wPreferences)) None in
    let scr := set_workspaces (workspaces scr ++ [wspace]) scr in
    let scr :=
      _postNotification WMDidCreateWorkspaceNotification
                        (workspace_count scr - 1) scr in
    (scr, workspace_count scr - 1)
  else (scr, -1).

(** [wWorkspaceMake]: [count] iterations of the [while (count > 0)]
    loop. *)
Fixpoint make_loop (count : nat) (scr : WScreen) : WScreen :=
  match count with
  | O => scr
  | S count' => make_loop count' (fst (wWorkspaceNew scr))
  end.

Definition wWorkspaceMake (scr : WScreen) (count : Z) : WScreen :=
  make_loop (Z.to_nat count) scr.

Definition wWorkspaceSaveFocusedWindow (scr : WScreen) (workspace : Z)
    (wwin : option WWindow) : WScreen :=
  match wwin with
  | Some wwin =>
      let saved_wwin :=
        mkWindow (client_win wwin) (main_window wWindowCreate)
                 (wm_class wwin) (wm_instance wwin) (frame wWindowCreate)
                 (icon wWindowCreate) (mapped wWindowCreate)
                 (shaded wWindowCreate) (miniaturized wWindowCreate)
                 (hidden wWindowCreate) (selected wWindowCreate)
                 (changing_workspace wWindowCreate) (is_gnustep wWindowCreate)
                 (omnipresent wWindowCreate) (no_focusable wWindowCreate)
                 (window_level wWindowCreate) (head wWindowCreate) in
      update_workspace workspace (set_ws_focused_window (Some saved_wwin)) scr
  | None => update_workspace workspace (set_ws_focused_window None) scr
  end.

(** The accumulators of the traversal in [wWorkspaceForceChange]: the
    windows already visited (as the traversal leaves them), the two
    queues (a queued window is named by its position in the list), the
    focus candidate and the application table. *)
Record Partition := mkPartition {
  visited : list WWindow;
  toUnmap : list nat;
  toMap : list nat;
  foc : option WWindow;
  apps : gmap Z WApplication
}.

(** One iteration of [while (tmp)], on the window [tmp] at position [i]. *)
Definition partition_step (workspace : Z) (i : nat) (tmp : WWindow)
    (acc : Partition) : Partition :=
  if negb (on_workspace tmp workspace) && negb (selected tmp) then
    let toUnmap' :=
      if negb (IS_OMNIPRESENT tmp) then
        if (mapped tmp || shaded tmp) && negb (changing_workspace tmp)
        then toUnmap acc ++ [i] else toUnmap acc
      else toUnmap acc in
    let '(tmp1, apps') :=
      if negb (IS_OMNIPRESENT tmp) then (tmp, apps acc)
      else
        (set_frame_workspace workspace tmp,
         match apps acc !! main_window tmp with
         | Some wapp =>
             if negb (window_level tmp =? NSMainMenuWindowLevel)
             then <[main_window tmp := mkApplication workspace]> (apps acc)
             else apps acc
         | None => apps acc
         end) in
    let tmp2 :=
      if negb (sticky_icons wPreferences) && miniaturized tmp1
         && bool_decide (icon tmp1 <> None) && negb (IS_OMNIPRESENT tmp1)
      then set_icon_mapped false tmp1 else tmp1 in
    mkPartition (visited acc ++ [tmp2]) toUnmap' (toMap acc) (foc acc) apps'
  else if selected tmp then
    let tmp1 := wWindowChangeWorkspace tmp workspace in
    let foc' :=
      if negb (miniaturized tmp1) && bool_decide (foc acc = None)
      then Some tmp1 else foc acc in
    mkPartition (visited acc ++ [tmp1]) (toUnmap acc) (toMap acc) foc'
                (apps acc)
  else if negb (hidden tmp) then
    let toMap' :=
      if negb (mapped tmp || miniaturized tmp)
      then toMap acc ++ [i] else toMap acc in
    let tmp1 :=
      if negb (sticky_icons wPreferences) && miniaturized tmp
         && negb (IS_OMNIPRESENT tmp) && bool_decide (icon tmp <> None)
      then set_icon_mapped true tmp else tmp in
    mkPartition (visited acc ++ [tmp1]) (toUnmap acc) toMap' (foc acc)
                (apps acc)
  else
    mkPartition (visited acc ++ [tmp]) (toUnmap acc) (toMap acc) (foc acc)
                (apps acc).

Fixpoint partition_loop (workspace : Z) (i : nat) (rest : list WWindow)
    (acc : Partition) : Partition :=
  match rest with
  | [] => acc
  | tmp :: rest' =>
      partition_loop workspace (S i) rest' (partition_step workspace i tmp acc)
  end.

(** [wWindowUnmap(toUnmap[--toUnmapCount])] and its counterpart for
    [toMap]: the queues are emptied from their last entry. *)
Definition unmap_at (i : nat) (scr : WScreen) : WScreen :=
  match focused_window scr !! i with
  | Some w =>
      call (WindowUnmap (client_win w))
           (set_focused_window (alter wWindowUnmap i (focused_window scr)) scr)
  | None => scr
  end.

Definition map_at (i : nat) (scr : WScreen) : WScreen :=
  match focused_window scr !! i with
  | Some w =>
      call (WindowMap (client_win w))
           (set_focused_window (alter wWindowMap i (focused_window scr)) scr)
  | None => scr
  end.

Definition apply_queue (f : nat -> WScreen -> WScreen) (queue : list nat)
    (scr : WScreen) : WScreen :=
  fold_left (fun s i => f i s) (rev queue) scr.

(** Lines 597-614: growth, the saved focus of the workspace being left,
    and the two workspace fields. *)
Definition force_change_begin (scr : WScreen) (workspace : Z) : WScreen :=
  let scr :=
    if workspace >? workspace_count scr - 1
    then wWorkspaceMake scr (workspace - workspace_count scr + 1)
    else scr in
  let scr :=
    match focused_window scr with
    | w :: _ =>
        if on_workspace w (current_workspace scr)
        then wWorkspaceSaveFocusedWindow scr (current_workspace scr) (Some w)
        else wWorkspaceSaveFocusedWindow scr (current_workspace scr) None
    | [] => wWorkspaceSaveFocusedWindow scr (current_workspace scr) None
    end in
  let scr := set_last_workspace (current_workspace scr) scr in
  set_current_workspace workspace scr.

(** Lines 631-698: the traversal, then the unmaps, then the maps.  The
    result pairs the screen with the focus candidate of the traversal.
    The calls recorded are those of [wWindowUnmap] and [wWindowMap];
    [wWindowChangeWorkspace], called by the traversal on the selected
    windows, is applied to the window and leaves no entry in the log. *)
Definition force_change_remap (scr : WScreen) (workspace : Z)
    : WScreen * option WWindow :=
  let acc :=
    partition_loop workspace 0 (focused_window scr)
                   (mkPartition [] [] [] None (wapps scr)) in
  let scr := set_wapps (apps acc) (set_focused_window (visited acc) scr) in
  let scr := apply_queue unmap_at (toUnmap acc) scr in
  let scr := apply_queue map_at (toMap acc) scr in
  (scr, foc acc).

(** Lines 706-708: the flush of pending events under the flag. *)
Definition flush_events (scr : WScreen) : WScreen :=
  let scr := set_ignore_focus_events true scr in
  let scr := ProcessPendingEvents scr in
  set_ignore_focus_events false scr.

(** Lines 710-752: the window handed to [wSetFocusTo]. *)
Definition new_focus (scr : WScreen) (workspace : Z)
    (focus_win foc : option WWindow) : option WWindow :=
  let foc := match focus_win with Some f => Some f | None => foc end in
  let foc :=
    match foc with
    | Some f => Some f
    | None => workspace_at scr workspace ≫= ws_focused_window
    end in
  let foc :=
    match foc with
    | Some f =>
        find (fun parse => client_win parse =? client_win f)
             (focused_window scr)
    | None => None
    end in
  match foc with
  | Some f => if hidden f then None else Some f
  | None => None
  end.

(** [wSetFocusTo] belongs to another unit: the call and the window it is
    given ([None] for NULL) are recorded. *)
Definition wSetFocusTo (scr : WScreen) (foc : option WWindow) : WScreen :=
  call (SetFocusTo (client_win <$> foc)) scr.

(** Lines 759-789: the closing steps.  The test on the clip of the
    target workspace only chooses between two ways of repainting the clip
    icon; it reads [scr->workspaces[workspace]->clip], which every
    workspace made by [wWorkspaceNew] has while clips are in use. *)
Definition force_change_end (scr : WScreen) (workspace : Z) : WScreen :=
  let scr :=
    if negb (sticky_icons wPreferences) then call ArrangeIcons scr else scr in
  let scr := call (ShowWorkspaceName workspace) scr in
  let scr := set_last_workspace workspace scr in
  _postNotification WMDidChangeWorkspaceNotification workspace scr.

Definition wWorkspaceForceChange (scr : WScreen) (workspace : Z)
    (focus_win : option WWindow) : WScreen :=
  if (workspace >=? MAX_WORKSPACES) || (workspace <? 0)
     || (workspace =? current_workspace scr)
  then scr
  else
    let scr := force_change_begin scr workspace in
    let scr :=
      match focused_window scr with
      | [] => scr
      | _ :: _ =>
          let '(scr, foc) := force_change_remap scr workspace in
          let scr := flush_events scr in
          wSetFocusTo scr (new_focus scr workspace focus_win foc)
      end in
    force_change_end scr workspace.

Definition wWorkspaceChange (scr : WScreen) (workspace : Z)
    (focus_win : option WWindow) : WScreen :=
  if startup scr || startup2 scr || ignore_focus_events scr then scr
  else if negb (workspace =? current_workspace scr)
  then wWorkspaceForceChange scr workspace focus_win
  else scr.

(** The copying loop of [wWorkspaceDelete]: entry [i] is kept unless
    [i == workspace-1]. *)
Fixpoint delete_loop (workspace : Z) (i : Z) (rest : list WWorkspace)
    : list WWorkspace :=
  match rest with
  | [] => []
  | w :: rest' =>
      if negb (i =? workspace - 1)
      then w :: delete_loop workspace (i + 1) rest'
      else delete_loop workspace (i + 1) rest'
  end.

(** [wWorkspaceDelete]: the returned [Bool] and the screen afterwards.
    Callers pass an index below [workspace_count]. *)
Definition wWorkspaceDelete (scr : WScreen) (workspace : Z)
    : bool * WScreen :=
  if workspace <=? 0 then (false, scr)
  else if existsb (fun tmp => negb (IS_OMNIPRESENT tmp)
                              && on_workspace tmp workspace)
                  (focused_window scr)
  then (false, scr)
  else
    let scr :=
      if negb (noclip wPreferences)
      then update_workspace workspace (set_clip false)
                            (call (DockDestroy workspace) scr)
      else scr in
    let scr :=
      set_workspaces (delete_loop workspace 0 (workspaces scr)) scr in
    let scr :=
      _postNotification WMDidDestroyWorkspaceNotification
                        (workspace_count scr - 1) scr in
    let scr :=
      if current_workspace scr >=? workspace_count scr
      then wWorkspaceChange scr (workspace_count scr - 1) None
      else scr in
    let scr :=
      if last_workspace scr >=? workspace_count scr
      then set_last_workspace 0 scr
      else scr in
    (true, scr).

(** The contents of [buf] in [wWorkspaceRename]. *)
Definition rename_buf (workspace : Z) (name : string) : string :=
  let tmp := wtrimspace name in
  let buf :=
    if (String.length tmp =? 0)%nat
    then snprintf_workspace (MAX_WORKSPACENAME_WIDTH + 1) (workspace + 1)
    else String.substring 0 MAX_WORKSPACENAME_WIDTH tmp in
  String.substring 0 MAX_WORKSPACENAME_WIDTH buf.

Definition wWorkspaceRename (scr : WScreen) (workspace : Z) (name : string)
    : WScreen :=
  if workspace >=? workspace_count scr then scr
  else
    let buf := rename_buf workspace name in
    let scr := update_workspace workspace (set_name buf) scr in
    _postNotification WMDidChangeWorkspaceNameNotification workspace scr.

(** [wWorkspaceRelativeChange].  The argument is an [int]: [amount]
    stands for the [int] it wraps to, and the two sums are [int] sums. *)
Definition wWorkspaceRelativeChange (scr : WScreen) (amount : Z) : WScreen :=
  if ignore_workspace_change then scr
  else
    let amount := int32 amount in
    let w := int32 (current_workspace scr + amount) in
    if amount <? 0 then
      if w >=? 0 then wWorkspaceChange scr w None
      else if ws_cycle
      then wWorkspaceChange scr (int32 (workspace_count scr + w)) None
      else scr
    else if amount >? 0 then
      if w <? workspace_count scr then wWorkspaceChange scr w None
      else if ws_advance
      then wWorkspaceChange scr (WMIN w (MAX_WORKSPACES - 1)) None
      else if ws_cycle
      then wWorkspaceChange scr (Z.rem w (workspace_count scr)) None
      else scr
    else scr.

(** The search loop of [wGetWorkspaceNumber], from index [i]. *)
Fixpoint name_index_from (rest : list WWorkspace) (i : Z) (value : string)
    : Z :=
  match rest with
  | [] => -1
  | ws :: rest' =>
      if String.eqb (name ws) value then i
      else name_index_from rest' (i + 1) value
  end.

(** [wGetWorkspaceNumber]; the decrement [w--] is that of an [int]. *)
Definition wGetWorkspaceNumber (scr : WScreen) (value : string) : Z :=
  match sscanf_i value with
  | None => name_index_from (workspaces scr) 0 value
  | Some w => int32 (w - 1)
  end.

(** ** Dead processes and clicks (event.c) *)

(** [wAddDeathHandler]; [handler] is the result of [malloc].  The
    result pairs the state with the returned magic number. *)
Definition wAddDeathHandler (handler : wptr) (p : Z) (cb cdata : N)
    (st : EventState) : EventState * wptr :=
  if N.eqb handler 0 then (st, 0%N)
  else
    let heap := <[handler := mkDeathHandler cb p cdata]> (handler_heap st) in
    let arr := match deathHandlers st with Some l => l | None => [] end in
    (mkEventState (deadProcesses st) (deadProcessPtr st) heap
                  (Some (arr ++ [handler])) (event_calls st),
     handler).

(** [wdelete_death_handler]: the first entry holding the address is
    removed and the handler is freed. *)
Definition wdelete_death_handler (id : wptr) (st : EventState) : EventState :=
  if N.eqb id 0 then st
  else
    match deathHandlers st with
    | None => st
    | Some l =>
        let idx := CFArrayGetFirstIndexOfValue l id in
        if negb (idx =? kCFNotFound)
        then mkEventState (deadProcesses st) (deadProcessPtr st)
                          (delete id (handler_heap st))
                          (Some (delete (Z.to_nat idx) l)) (event_calls st)
        else st
    end.

(** [NotifyDeadProcess]. *)
Definition NotifyDeadProcess (p status : Z) (st : EventState) : EventState :=
  if deadProcessPtr st >=? MAX_DEAD_PROCESSES - 1 then st
  else
    mkEventState
      (if deadProcessPtr st <? 0 then deadProcesses st
       else <[Z.to_nat (deadProcessPtr st) := mkDeadProcesses p status]>
              (deadProcesses st))
      (deadProcessPtr st + 1) (handler_heap st) (deathHandlers st)
      (event_calls st).

(** The first loop of [handleDeadProcess], over [n] entries from index
    [i].  [None] marks a read outside an array or of a freed handler. *)
Fixpoint saved_states_loop (n : nat) (i : Z) (st : EventState)
    : option EventState :=
  match n with
  | O => Some st
  | S n' =>
      d ← CFArrayGetValueAtIndex (deadProcesses st) i;
      saved_states_loop n' (i + 1)
                        (event_call (DeleteSavedStatesForPID (pid d)) st)
  end.

(** The loop [for (i = CFArrayGetCount(deathHandlers) - 1; i >= 0; i--)]
    for the dead process [d], with [n = i + 1]. *)
Fixpoint handlers_loop (n : nat) (d : DeadProcesses) (st : EventState)
    : option EventState :=
  match n with
  | O => Some st
  | S i =>
      arr ← deathHandlers st;
      tmp ← CFArrayGetValueAtIndex arr (Z.of_nat i);
      if N.eqb tmp 0 then handlers_loop i d st
      else
        h ← handler_heap st !! tmp;
        if handler_pid h =? pid d then
          let st :=
            event_call (DeathCallback (callback h) (handler_pid h)
                                      (exit_status d) (client_data h)) st in
          handlers_loop i d (wdelete_death_handler tmp st)
        else handlers_loop i d st
  end.

(** The loop [while (deadProcessPtr > 0)], with [m = deadProcessPtr]. *)
Fixpoint dead_loop (m : nat) (st : EventState) : option EventState :=
  match m with
  | O => Some st
  | S m' =>
      let st := set_deadProcessPtr (Z.of_nat m') st in
      d ← CFArrayGetValueAtIndex (deadProcesses st) (deadProcessPtr st);
      arr ← deathHandlers st;
      st ← handlers_loop (Z.to_nat (CFArrayGetCount arr)) d st;
      dead_loop m' st
  end.

(** [handleDeadProcess].  The callbacks belong to the callers of
    [wAddDeathHandler]: each call and its arguments are recorded. *)
Definition handleDeadProcess (st : EventState) : option EventState :=
  st ← saved_states_loop (Z.to_nat (deadProcessPtr st)) 0 st;
  match deathHandlers st with
  | None => Some (set_deadProcessPtr 0 st)
  | Some _ => dead_loop (Z.to_nat (deadProcessPtr st)) st
  end.

(** [IsDoubleClick]: the returned [Bool] and the click fields
    afterwards. *)
Definition IsDoubleClick (scr : ClickState) (event : XButtonEvent)
    : ClickState * bool :=
  if (last_click_time scr >? 0)
     && within_dblclick_time (xbutton_time event) (last_click_time scr)
     && (xbutton_button event =? last_click_button scr)
     && (xbutton_window event =? last_click_window scr)
  then (mkClickState 0 (last_click_button scr) (xbutton_window event) true,
        true)
  else (scr, false).

(** ** Predicates and data used in the statements *)

(** A live session: the array is not empty and [current] indexes it. *)
Definition live (panel : WSwitchPanel) : Prop :=
  0 <= current panel < CFArrayGetCount (windows panel).

(** The candidate at index [c] is one that the loops of
    [wSwitchPanelSelectNext] pass over: its class differs from the class
    of [curwin] under [class_only], or it is unmapped (shaded,
    miniaturized or hidden) under [ignore_minimized]. *)
Definition passed_over (wins : list wptr) (curwin : wptr)
    (ignore_minimized class_only : bool) (c : Z) : Prop :=
  forall wm : wptr,
    CFArrayGetValueAtIndex wins c = Some wm ->
    (class_only = true /\ sameWindowClass (deref wm) (deref curwin) = false)
    \/ (ignore_minimized = true /\ canReceiveFocus (deref wm) < 0).

(** The viewport of a panel is well formed: at least one tile is shown
    and the first tile shown lies between the first candidate and the
    last position from which a full row is still filled. *)
Definition viewport (panel : WSwitchPanel) : Prop :=
  1 <= visibleCount panel
  /\ 0 <= firstVisible panel
     <= Z.max 0 (CFArrayGetCount (windows panel) - visibleCount panel).

(** The current candidate is among the tiles shown. *)
Definition in_view (panel : WSwitchPanel) : Prop :=
  firstVisible panel <= current panel
  < firstVisible panel + visibleCount panel.

(** The title that [wSwitchPanelSelectNext] draws for a window can be
    read, and it can be read for every candidate of the panel when the
    panel is drawn: under [class_only] the candidates have a frame,
    otherwise each is flagged GNUstep or has a class. *)
Definition has_title (wwin : WWindow) (class_only : bool) : bool :=
  match select_next_title wwin class_only with
  | Some _ => true
  | None => false
  end.

Definition titled (panel : WSwitchPanel) (class_only : bool) : bool :=
  negb (win panel)
  || forallb (fun w => has_title (deref w) class_only) (windows panel).

(** Every candidate of the panel has a frame. *)
Definition framed (panel : WSwitchPanel) : bool :=
  forallb (fun w => bool_decide (is_Some (frame (deref w)))) (windows panel).

(** The candidate that cycling between applications offers for an
    application: the menu window of a GNUstep application, or its main
    window when it has no menu window; for any other application that has
    windows, the window focused last, or its first window when none is
    recorded; none for an application without windows. *)
Definition app_candidate (a : WAppWindows) : option wptr :=
  if app_is_gnustep a then
    match menu_win a with
    | Some m => Some m
    | None => main_window_desc a
    end
  else
    match app_windows a, last_focused a with
    | [], _ => None
    | _ :: _, Some l => Some l
    | first :: _, None => Some first
    end.

(** A GNUstep application has a menu window or a main window. *)
Definition gnustep_window (a : WAppWindows) : bool :=
  negb (app_is_gnustep a)
  || bool_decide (is_Some (menu_win a))
  || bool_decide (is_Some (main_window_desc a)).

(** The test under which the window branch of [makeWindowListArray]
    keeps a window. *)
Definition cycle_candidate (focused : wptr) (include_unmapped : bool)
    (wwin : wptr) : bool :=
  negb (canReceiveFocus (deref wwin) =? 0)
  && (mapped (deref wwin) || shaded (deref wwin) || include_unmapped)
  && negb (skip_switchpanel (deref wwin))
  && sameWindowClass (deref focused) (deref wwin).

(** The entries of the stack of dead processes, the oldest first. *)
Definition dead_stack (st : EventState) : list DeadProcesses :=
  take (Z.to_nat (deadProcessPtr st)) (deadProcesses st).

(** The handler at address [h] is registered for a process of the
    stack. *)
Definition for_dead_process (st : EventState) (h : wptr) : bool :=
  match handler_heap st !! h with
  | Some r => existsb (fun d => handler_pid r =? pid d) (dead_stack st)
  | None => false
  end.

(** The call that [handleDeadProcess] makes for the handler [r] and the
    dead process [d]. *)
Definition death_call (r : DeathHandler) (d : DeadProcesses) : EventCall :=
  DeathCallback (callback r) (handler_pid r) (exit_status d) (client_data r).

(** What the two nested loops of [handleDeadProcess] come to, for the
    stack [stack] read from its top and the handlers [l] described by
    [rec]: the handlers that stay and the calls made. *)
Fixpoint dispatch (rec : wptr -> DeathHandler) (stack : list DeadProcesses)
    (l : list wptr) : list wptr * list EventCall :=
  match stack with
  | [] => (l, [])
  | d :: below =>
      let r :=
        dispatch rec below
                 (List.filter
                    (fun h => negb (handler_pid (rec h) =? pid d)) l) in
      (fst r,
       ((fun h => death_call (rec h) d)
          <$> rev (List.filter (fun h => handler_pid (rec h) =? pid d) l))
       ++ snd r)
  end.

(** The handlers of the array are distinct blocks that are allocated and
    not NULL. *)
Definition handlers_wf (st : EventState) : Prop :=
  match deathHandlers st with
  | None => True
  | Some l =>
      NoDup l
      /\ forall h, h ∈ l -> h <> 0%N /\ is_Some (handler_heap st !! h)
  end.

(** The stack pointer is within the part of the array that
    [NotifyDeadProcess] fills. *)
Definition stack_wf (st : EventState) : Prop :=
  Z.of_nat (length (deadProcesses st)) = MAX_DEAD_PROCESSES
  /\ 0 <= deadProcessPtr st <= MAX_DEAD_PROCESSES - 1.

(** A string made of whitespace only. *)
Fixpoint all_spaces (s : string) : bool :=
  match s with
  | String c rest => Ascii.is_space c && all_spaces rest
  | EmptyString => true
  end.

(** Steps that work on the window list, the application table and the
    call log only. *)
Definition keeps_workspaces (s s' : WScreen) : Prop :=
  workspaces s' = workspaces s
  /\ current_workspace s' = current_workspace s
  /\ last_workspace s' = last_workspace s
  /\ ignore_focus_events s' = ignore_focus_events s.

(** The window that one iteration of the traversal leaves in the list
    (it does not depend on the accumulators), and the tests under which
    the iteration queues its window. *)
Definition window_after (workspace : Z) (tmp : WWindow) : WWindow :=
  nth 0 (visited (partition_step workspace 0 tmp
                    (mkPartition [] [] [] None ∅))) tmp.

Definition queued_unmap (workspace : Z) (tmp : WWindow) : bool :=
  negb (on_workspace tmp workspace) && negb (selected tmp)
  && negb (IS_OMNIPRESENT tmp)
  && (mapped tmp || shaded tmp) && negb (changing_workspace tmp).

Definition queued_map (workspace : Z) (tmp : WWindow) : bool :=
  negb (negb (on_workspace tmp workspace) && negb (selected tmp))
  && negb (selected tmp) && negb (hidden tmp)
  && negb (mapped tmp || miniaturized tmp).

(** The positions, counted from [i], of the windows satisfying [p]. *)
Fixpoint queue_from (p : WWindow -> bool) (i : nat) (rest : list WWindow)
    : list nat :=
  match rest with
  | [] => []
  | w :: rest' => (if p w then [i] else []) ++ queue_from p (S i) rest'
  end.

(** ** Concrete windows, panels and screens *)

Definition prefs_drawn : WPreferences := mkPrefs false true true false false.

Definition plain_window (id : Z) (class : string) : WWindow :=
  mkWindow id id (Some class) class (Some (mkFrame 0)) None
           true false false false false false false false false 0 0.

(** Windows 1 and 2 belong to one application class, window 3 to
    another. *)
Definition heap3 (p : wptr) : WWindow :=
  if N.eqb p 3 then plain_window 3 "XTerm"
  else plain_window (Z.of_N p) "Editor".

(** As [heap3], all of one class, with window 2 miniaturized and
    unmapped. *)
Definition heap_minimized (p : wptr) : WWindow :=
  if N.eqb p 2
  then mkWindow 2 2 (Some "Editor") "Editor" (Some (mkFrame 0)) None
                false false true false false false false false false 0 0
  else plain_window (Z.of_N p) "Editor".

Definition fresh_panel : WSwitchPanel := mkPanel [] [] 0 0 0 false.

Definition panel5 : WSwitchPanel :=
  mkPanel [1%N; 2%N; 4%N; 5%N; 6%N] [0; 0; 0; 0; 0] 3 0 5 true.

Definition panel3 : WSwitchPanel :=
  mkPanel [1%N; 2%N; 3%N] [0; 0; 0] 0 0 3 true.

Definition prefs_clip : WPreferences := mkPrefs false false false false false.

Definition screen1 : WScreen :=
  mkScreen [mkWorkspace "Workspace 1" false None] 0 0 [] ∅ false false false
           [].

Definition screen3 : WScreen :=
  mkScreen [mkWorkspace "A" true None; mkWorkspace "B" true None;
            mkWorkspace "C" true None]
           0 0 [] ∅ false false false [].


(** Collaborators for the concrete runs: mapping and unmapping set the
    [mapped] flag, moving a window records the new workspace, and no
    handler is pending. *)
Definition map_window : WWindow -> WWindow := set_mapped true.
Definition unmap_window : WWindow -> WWindow := set_mapped false.
Definition move_window (w : WWindow) (ws : Z) : WWindow :=
  set_frame_workspace ws w.

Definition managed_window (id ws : Z) : WWindow :=
  mkWindow id id (Some "XTerm") "xterm" (Some (mkFrame ws)) None
           true false false false false false false false false 0 0.

Definition two_workspaces : list WWorkspace :=
  [mkWorkspace "Workspace 1" true None; mkWorkspace "Workspace 2" true None].

(** One ordinary window, on workspace 0. *)
Definition screen2 : WScreen :=
  mkScreen two_workspaces 0 0 [managed_window 7 0] ∅ false false false [].





(** Two selected windows; the first one is miniaturized. *)
Definition selected_mini : WWindow :=
  mkWindow 1 1 (Some "XTerm") "xterm" (Some (mkFrame 0)) None
           false false true false true false false false false 0 0.

Definition selected_plain : WWindow :=
  mkWindow 2 2 (Some "XTerm") "xterm" (Some (mkFrame 0)) None
           true false false false true false false false false 0 0.

Definition screen_selected : WScreen :=
  mkScreen two_workspaces 0 0 [selected_mini; selected_plain] ∅
           false false false [].


(** Five candidates of which three are shown from the first one; the
    fourth candidate is current. *)
Definition panel_scrolled : WSwitchPanel :=
  mkPanel [1%N; 2%N; 4%N; 5%N; 6%N] [0; 0; 0; 0; 0] 3 0 3 true.

(** A single candidate, selected. *)
Definition panel1 : WSwitchPanel := mkPanel [1%N] [0] 0 0 1 true.

(** As [heap3], but window 2 has no frame and window 3 has no class. *)
Definition heap_bare (p : wptr) : WWindow :=
  if N.eqb p 2
  then mkWindow 2 2 (Some "Editor") "Editor" None None
                true false false false false false false false false 0 0
  else if N.eqb p 3
  then mkWindow 3 3 None "" (Some (mkFrame 0)) None
                true false false false false false false false false 0 0
  else heap3 p.

(** Five applications: a GNUstep one with a menu window, a GNUstep one
    with a main window only, one whose window 31 was focused last, one
    with two windows and none focused, and one without windows. *)
Definition apps5 : list WAppWindows :=
  [mkAppWindows true (Some 10%N) (Some 11%N) [11%N] None;
   mkAppWindows true None (Some 21%N) [21%N] None;
   mkAppWindows false None None [30%N; 31%N] (Some 31%N);
   mkAppWindows false None None [40%N; 41%N] None;
   mkAppWindows false None None [] None].

(** No window asks to be left out of the panel. *)
Definition no_skip : WWindow -> bool := fun _ => false.

(** The X windows of the three tiles of [panel3]. *)
Definition icons3 : list Z := [101; 102; 103].

(** A value that does not begin with a number. *)
Definition no_number : string -> option Z := fun _ => None.

(** A stack of eight slots, empty, and no handler registered. *)
Definition events8 : EventState :=
  mkEventState (replicate 8 (mkDeadProcesses 0 0)) 0 ∅ None [].

(** Process 42 has died with status 1; a handler for it and one for
    process 43 are registered, at the addresses 5 and 6. *)
Definition events_pending : EventState :=
  mkEventState (mkDeadProcesses 42 1 :: replicate 7 (mkDeadProcesses 0 0)) 1
               {[ 5%N := mkDeathHandler 1 42 2; 6%N := mkDeathHandler 3 43 4 ]}
               (Some [5%N; 6%N]) [].

(** A click of button 1 on window 55 at time 1000, a second one at time
    1200, and a double-click time of 250; the difference of two [Time]
    values is that of two [unsigned long] of 64 bits. *)
Definition clicked : ClickState := mkClickState 1000 1 55 false.
Definition press : XButtonEvent := mkXButtonEvent 1200 1 55.
Definition within_250 (time last : Z) : bool :=
  (time - last) mod 2 ^ 64 <=? 250.

(** * Facts about the switch panel *)

Lemma CFArrayGetValueAtIndex_in_range {A} (l : list A) (i : Z) :
  0 <= i < CFArrayGetCount l -> exists x, CFArrayGetValueAtIndex l i = Some x.
Proof. trim.
  unfold CFArrayGetValueAtIndex, CFArrayGetCount. intros Hi.
  destruct (Z.ltb_spec i 0) as [Hneg|_]; [lia|].
  destruct (lookup_lt_is_Some_2 l (Z.to_nat i)) as [x Hx]; [lia|]. eauto.
Qed.

Lemma CFArrayGetValueAtIndex_Some {A} (l : list A) (i : Z) (x : A) :
  CFArrayGetValueAtIndex l i = Some x -> 0 <= i < CFArrayGetCount l.
Proof. trim.
  unfold CFArrayGetValueAtIndex, CFArrayGetCount.
  destruct (Z.ltb_spec i 0) as [Hneg|Hpos]; [discriminate|].
  intros Hx. apply lookup_lt_Some in Hx. lia.
Qed.

Lemma advance_range (count : Z) (back : bool) (cur : Z) :
  0 <= cur < count -> 0 <= advance count back cur < count.
Proof. trim.
  intros Hc. unfold advance.
  rewrite Z.rem_mod_nonneg by (destruct back; lia).
  apply Z.mod_pos_bound. lia.
Qed.

Lemma advance_mod (count : Z) (back : bool) (cur : Z) :
  0 <= cur < count ->
  advance count back cur = (cur + (if back then -1 else 1)) mod count.
Proof. trim.
  intros Hc. unfold advance.
  rewrite Z.rem_mod_nonneg by (destruct back; lia).
  replace (count + (if back then cur - 1 else cur + 1))
    with ((cur + (if back then -1 else 1)) + 1 * count) by (destruct back; lia).
  apply Z.mod_add. lia.
Qed.

Lemma iter_advance_range (count : Z) (back : bool) (k : nat) (cur : Z) :
  0 <= cur < count -> 0 <= Nat.iter k (advance count back) cur < count.
Proof. trim.
  intros Hc. induction k as [|k IH]; simpl; [exact Hc|].
  apply advance_range, IH.
Qed.

Lemma iter_advance_mod (count : Z) (back : bool) (k : nat) (cur : Z) :
  0 <= cur < count ->
  Nat.iter k (advance count back) cur
  = (cur + Z.of_nat k * (if back then -1 else 1)) mod count.
Proof. trim.
  intros Hc. induction k as [|k IH].
  - simpl. rewrite Z.add_0_r, Z.mod_small; lia.
  - change (Nat.iter (S k) (advance count back) cur)
      with (advance count back (Nat.iter k (advance count back) cur)).
    rewrite advance_mod by (apply iter_advance_range; exact Hc).
    rewrite IH, Zplus_mod_idemp_l. f_equal. destruct back; lia.
Qed.

(** [count] steps in one direction lead back to the starting index. *)
Lemma iter_advance_cycle (count : Z) (back : bool) (cur : Z) :
  0 <= cur < count ->
  Nat.iter (Z.to_nat count) (advance count back) cur = cur.
Proof. trim.
  intros Hc. rewrite iter_advance_mod by exact Hc.
  rewrite Z2Nat.id by lia.
  replace (cur + count * (if back then -1 else 1))
    with (cur + (if back then -1 else 1) * count) by lia.
  rewrite Z.mod_add by lia. apply Z.mod_small. exact Hc.
Qed.

(** Painting touches neither the array of windows nor [current]. *)
Lemma changeImage_frame (p : WSwitchPanel) (i : Z) (a b c : bool) :
  windows (changeImage p i a b c) = windows p
  /\ current (changeImage p i a b c) = current p
  /\ firstVisible (changeImage p i a b c) = firstVisible p
  /\ visibleCount (changeImage p i a b c) = visibleCount p
  /\ win (changeImage p i a b c) = win p.
Proof. trim.
  unfold changeImage.
  destruct (negb (swtileImage wPreferences)); [tauto|].
  destruct (CFArrayGetValueAtIndex (flags p) i) as [fl|]; [|tauto].
  match goal with |- context [if ?t then _ else _] => destruct t end;
    simpl; tauto.
Qed.

Lemma scroll_repaint_frame (n : nat) (i : Z) (p : WSwitchPanel) :
  windows (scroll_repaint n i p) = windows p
  /\ current (scroll_repaint n i p) = current p
  /\ visibleCount (scroll_repaint n i p) = visibleCount p
  /\ win (scroll_repaint n i p) = win p.
Proof. trim.
  revert i p. induction n as [|n IH]; intros i p; simpl; [tauto|].
  match goal with |- context [scroll_repaint n (i + 1) ?q] =>
    assert (Hq : windows q = windows p /\ current q = current p
                 /\ visibleCount q = visibleCount p /\ win q = win p)
  end.
  { destruct (i =? current p); [tauto|].
    destruct (CFArrayGetValueAtIndex (flags p) i) as [fl|]; [|tauto].
    pose proof (changeImage_frame p i false
                  (negb (Z.land fl ICON_DIM =? 0)) true). tauto. }
  match goal with |- context [scroll_repaint n (i + 1) ?q] =>
    specialize (IH (i + 1) q); set (r := q) in *
  end.
  destruct IH as (-> & -> & -> & ->). tauto.
Qed.

Lemma scrollIcons_frame (p : WSwitchPanel) (delta : Z) :
  windows (scrollIcons p delta) = windows p
  /\ current (scrollIcons p delta) = current p
  /\ win (scrollIcons p delta) = win p.
Proof. trim.
  unfold scrollIcons.
  destruct (_ <=? _); [tauto|].
  match goal with |- context [if ?t =? firstVisible p then _ else _] =>
    destruct (t =? firstVisible p); [tauto|]
  end.
  match goal with |- context [scroll_repaint ?n ?i ?q] =>
    pose proof (scroll_repaint_frame n i q) as Hq
  end.
  simpl in Hq. simpl. tauto.
Qed.

Lemma select_repaint_frame (rest : list wptr) (i orig : Z) (curwin : wptr)
    (class_only : bool) (p : WSwitchPanel) (dim : bool) :
  let r := fst (select_repaint rest i orig curwin class_only p dim) in
  windows r = windows p /\ current r = current p
  /\ firstVisible r = firstVisible p /\ visibleCount r = visibleCount p
  /\ win r = win p.
Proof. trim.
  revert i p dim. induction rest as [|w rest IH]; intros i p dim; simpl;
    [tauto|].
  destruct (i =? current p).
  - apply IH.
  - destruct (negb class_only || sameWindowClass (deref w) (deref curwin)).
    + specialize (IH (i + 1) (changeImage p i false false false) dim).
      pose proof (changeImage_frame p i false false false).
      simpl in IH. intuition congruence.
    + specialize (IH (i + 1) (changeImage p i false true false)
                     (if i =? orig then true else dim)).
      pose proof (changeImage_frame p i false true false).
      simpl in IH. intuition congruence.
Qed.

(** Where the loops stop: on an index of the array and, under
    [class_only], either back on [orig] or on a window of the class of
    [curwin]. *)
Lemma select_inner_sound (fuel : nat) (wins : list wptr) (count orig : Z)
    (curwin : wptr) (back class_only : bool) (cur c : Z) (w : wptr) :
  select_inner fuel wins count orig curwin back class_only cur = Some (c, w) ->
  CFArrayGetValueAtIndex wins c = Some w
  /\ (class_only = true ->
      c = orig \/ sameWindowClass (deref w) (deref curwin) = true).
Proof. trim.
  revert cur. induction fuel as [|fuel IH]; intros cur; simpl; [discriminate|].
  destruct (CFArrayGetValueAtIndex wins (advance count back cur))
    as [wwin|] eqn:Hw; [|discriminate].
  destruct class_only; simpl.
  - destruct (Z.eqb_spec (advance count back cur) orig) as [He|Hne].
    + intros [= <- <-]. split; [exact Hw|]. intros _. left. exact He.
    + destruct (sameWindowClass (deref wwin) (deref curwin)) eqn:Hs; simpl.
      * intros [= <- <-]. split; [exact Hw|]. intros _. right. exact Hs.
      * apply IH.
  - intros [= <- <-]. split; [exact Hw|]. discriminate.
Qed.

Lemma select_outer_sound (fuel : nat) (wins : list wptr) (count orig : Z)
    (curwin : wptr) (back ignore_minimized class_only : bool) (cur c : Z)
    (w : wptr) :
  select_outer fuel wins count orig curwin back ignore_minimized class_only cur
  = Some (c, w) ->
  CFArrayGetValueAtIndex wins c = Some w
  /\ (class_only = true ->
      c = orig \/ sameWindowClass (deref w) (deref curwin) = true).
Proof. trim.
  revert cur. induction fuel as [|fuel IH]; intros cur; simpl; [discriminate|].
  destruct (select_inner (Z.to_nat count) wins count orig curwin back
              class_only cur) as [[c1 w1]|] eqn:Hin; [|discriminate].
  destruct (ignore_minimized && negb (c1 =? orig)
            && (canReceiveFocus (deref w1) <? 0)).
  - apply IH.
  - intros [= <- <-]. eapply select_inner_sound, Hin.
Qed.

(** Without [class_only] the inner loop makes exactly one step. *)
Lemma select_inner_plain (fuel : nat) (wins : list wptr) (count orig : Z)
    (curwin : wptr) (back : bool) (cur : Z) (w : wptr) :
  CFArrayGetValueAtIndex wins (advance count back cur) = Some w ->
  select_inner (S fuel) wins count orig curwin back false cur
  = Some (advance count back cur, w).
Proof. trim. intros Hw. simpl. rewrite Hw. reflexivity. Qed.

(** The loops terminate: [orig] lies [k] steps ahead and stops them. *)
Lemma select_inner_total (wins : list wptr) (count orig : Z) (curwin : wptr)
    (back class_only : bool) :
  count = CFArrayGetCount wins ->
  forall (fuel k : nat) (cur : Z),
    0 <= cur < count -> (1 <= k <= fuel)%nat ->
    Nat.iter k (advance count back) cur = orig ->
    exists (j : nat) (w : wptr),
      (1 <= j <= k)%nat
      /\ select_inner fuel wins count orig curwin back class_only cur
         = Some (Nat.iter j (advance count back) cur, w)
      /\ (forall m : nat,
            (1 <= m < j)%nat ->
            Nat.iter m (advance count back) cur <> orig
            /\ passed_over wins curwin false class_only
                           (Nat.iter m (advance count back) cur)).
Proof. trim.
  intros Hcount. induction fuel as [|fuel IH]; intros k cur Hcur Hk Horig;
    [lia|].
  pose proof (advance_range count back cur Hcur) as Hadv.
  destruct (CFArrayGetValueAtIndex_in_range wins (advance count back cur))
    as [wwin Hw]; [rewrite <- Hcount; exact Hadv|].
  simpl. rewrite Hw.
  destruct class_only; simpl;
    [|exists 1%nat, wwin; split; [lia|split; [reflexivity|intros; lia]]].
  destruct (Z.eqb_spec (advance count back cur) orig) as [He|Hne];
    [exists 1%nat, wwin; split; [lia|split; [reflexivity|intros; lia]]|].
  destruct (sameWindowClass (deref wwin) (deref curwin)) eqn:Hsame; simpl;
    [exists 1%nat, wwin; split; [lia|split; [reflexivity|intros; lia]]|].
  destruct k as [|[|k]]; [lia|simpl in Horig; contradiction|].
  rewrite Nat.iter_succ_r in Horig.
  destruct (IH (S k) (advance count back cur) Hadv ltac:(lia) Horig)
    as (j & w & Hj & Hres & Hpassed).
  exists (S j), w. split; [lia|]. rewrite Nat.iter_succ_r.
  split; [exact Hres|].
  intros [|[|m]] Hm; [lia| |].
  - simpl. split; [exact Hne|]. intros wm Hwm. left.
    rewrite Hw in Hwm. injection Hwm as <-. auto.
  - rewrite Nat.iter_succ_r. apply Hpassed. lia.
Qed.

Lemma select_outer_total (wins : list wptr) (count orig : Z) (curwin : wptr)
    (back ignore_minimized class_only : bool) :
  count = CFArrayGetCount wins ->
  forall (fuel k : nat) (cur : Z),
    0 <= cur < count -> (1 <= k <= fuel)%nat -> (k <= Z.to_nat count)%nat ->
    Nat.iter k (advance count back) cur = orig ->
    exists (j : nat) (w : wptr),
      (1 <= j <= k)%nat
      /\ select_outer fuel wins count orig curwin back ignore_minimized
                      class_only cur
         = Some (Nat.iter j (advance count back) cur, w)
      /\ (forall m : nat,
            (1 <= m < j)%nat ->
            Nat.iter m (advance count back) cur <> orig
            /\ passed_over wins curwin ignore_minimized class_only
                           (Nat.iter m (advance count back) cur)).
Proof. trim.
  intros Hcount. induction fuel as [|fuel IH];
    intros k cur Hcur Hk Hle Horig; [lia|].
  destruct (select_inner_total wins count orig curwin back class_only Hcount
              (Z.to_nat count) k cur Hcur ltac:(lia) Horig)
    as (j & w & Hj & Hin & Hpassed).
  assert (Hweak : forall m : nat,
             (1 <= m < j)%nat ->
             Nat.iter m (advance count back) cur <> orig
             /\ passed_over wins curwin ignore_minimized class_only
                            (Nat.iter m (advance count back) cur)).
  { intros m Hm. destruct (Hpassed m Hm) as [Hne Hp]. split; [exact Hne|].
    intros wm Hwm. destruct (Hp wm Hwm) as [Hl|[Hr _]];
      [left; exact Hl|discriminate]. }
  simpl. rewrite Hin.
  destruct (ignore_minimized
            && negb (Nat.iter j (advance count back) cur =? orig)
            && (canReceiveFocus (deref w) <? 0)) eqn:Hcont;
    [|exists j, w; auto].
  apply andb_true_iff in Hcont as [Hcont Hsoft].
  apply andb_true_iff in Hcont as [Him Hne].
  apply negb_true_iff, Z.eqb_neq in Hne. apply Z.ltb_lt in Hsoft.
  assert (Hjk : (j < k)%nat).
  { destruct (Nat.eq_dec j k) as [->|]; [contradiction|lia]. }
  destruct (IH (k - j)%nat (Nat.iter j (advance count back) cur)
              (iter_advance_range count back j cur Hcur) ltac:(lia)
              ltac:(lia))
    as (j2 & w2 & Hj2 & Hout & Hpassed2).
  { rewrite <- Nat.iter_add. replace (k - j + j)%nat with k by lia.
    exact Horig. }
  exists (j2 + j)%nat, w2. split; [lia|].
  rewrite Nat.iter_add. split; [exact Hout|].
  intros m Hm. destruct (Nat.lt_trichotomy m j) as [Hlt|[->|Hgt]].
  - apply Hweak. lia.
  - split; [exact Hne|]. intros wm Hwm. right.
    destruct (select_inner_sound _ _ _ _ _ _ _ _ _ _ Hin) as [Hw _].
    rewrite Hw in Hwm. injection Hwm as <-. auto.
  - replace m with ((m - j) + j)%nat by lia. rewrite Nat.iter_add.
    apply Hpassed2. lia.
Qed.

(** Fewer than [count] steps in one direction do not come back to the
    starting index, and reach every other index. *)
Lemma iter_advance_away (count : Z) (back : bool) (j : nat) (cur : Z) :
  0 <= cur < count -> (1 <= j)%nat -> Z.of_nat j < count ->
  Nat.iter j (advance count back) cur <> cur.
Proof. trim.
  intros Hcur Hj Hlt. rewrite iter_advance_mod by exact Hcur.
  destruct back.
  - destruct (Z_lt_le_dec (cur + Z.of_nat j * -1) 0) as [Hneg|Hpos].
    + replace (cur + Z.of_nat j * -1)
        with ((cur - Z.of_nat j + count) + (-1) * count) by lia.
      rewrite Z.mod_add, Z.mod_small by lia. lia.
    + rewrite Z.mod_small by lia. lia.
  - destruct (Z_lt_le_dec (cur + Z.of_nat j * 1) count) as [Hin|Hout].
    + rewrite Z.mod_small by lia. lia.
    + replace (cur + Z.of_nat j * 1)
        with ((cur + Z.of_nat j - count) + 1 * count) by lia.
      rewrite Z.mod_add, Z.mod_small by lia. lia.
Qed.

Lemma iter_advance_reach (count : Z) (back : bool) (cur i : Z) :
  0 <= cur < count -> 0 <= i < count -> i <> cur ->
  exists m : nat,
    (1 <= m)%nat /\ Z.of_nat m < count
    /\ Nat.iter m (advance count back) cur = i.
Proof. trim.
  intros Hcur Hi Hne.
  exists (Z.to_nat (if back then (cur - i) mod count else (i - cur) mod count)).
  assert (Hm : 1 <= (if back then (cur - i) mod count
                     else (i - cur) mod count) < count).
  { destruct back.
    - destruct (Z_lt_le_dec i cur).
      + rewrite Z.mod_small by lia. lia.
      + replace (cur - i) with ((cur - i + count) + (-1) * count) by lia.
        rewrite Z.mod_add, Z.mod_small by lia. lia.
    - destruct (Z_lt_le_dec cur i).
      + rewrite Z.mod_small by lia. lia.
      + replace (i - cur) with ((i - cur + count) + (-1) * count) by lia.
        rewrite Z.mod_add, Z.mod_small by lia. lia. }
  split; [lia|]. split; [lia|].
  rewrite iter_advance_mod by exact Hcur. rewrite Z2Nat.id by lia.
  destruct back.
  - replace (cur + (cur - i) mod count * -1)
      with (cur - (cur - i) mod count) by lia.
    rewrite Zminus_mod_idemp_r. replace (cur - (cur - i)) with i by lia.
    apply Z.mod_small. exact Hi.
  - rewrite Z.mul_1_r, Zplus_mod_idemp_r.
    replace (cur + (i - cur)) with i by lia.
    apply Z.mod_small. exact Hi.
Qed.

(** What one call of [wSwitchPanelSelectNext] does to a live session:
    the loops stop on a window [w]; the call ends without a result when
    the panel is drawn and the title of [w] cannot be read, and returns
    [w] with the panel otherwise. *)
Lemma wSwitchPanelSelectNext_run (panel : WSwitchPanel)
    (back ignore_minimized class_only : bool) :
  live panel ->
  exists (panel' : WSwitchPanel) (w seed : wptr),
    wSwitchPanelSelectNext panel back ignore_minimized class_only
    = (if win panel && negb (has_title (deref w) class_only) then None
       else Some (panel', Some w))
    /\ windows panel' = windows panel
    /\ live panel'
    /\ CFArrayGetValueAtIndex (windows panel) (current panel') = Some w
    /\ CFArrayGetValueAtIndex (windows panel) (current panel) = Some seed
    /\ (class_only = true ->
        current panel' = current panel
        \/ sameWindowClass (deref w) (deref seed) = true)
    /\ (class_only = false ->
        ignore_minimized && cycle_ignore_minimized wPreferences = false ->
        current panel'
        = advance (CFArrayGetCount (windows panel)) back (current panel))
    /\ (current panel' = current panel ->
        forall i : Z,
          0 <= i < CFArrayGetCount (windows panel) -> i <> current panel ->
          passed_over (windows panel) seed ignore_minimized class_only i)
    /\ win panel' = win panel.
Proof. trim.
  intros Hlive. unfold live in Hlive.
  unfold wSwitchPanelSelectNext.
  set (count := CFArrayGetCount (windows panel)) in *.
  set (orig := current panel) in *.
  destruct (Z.eqb_spec count 0) as [?|_]; [lia|].
  destruct (Z.ltb_spec orig 0) as [?|_]; [lia|]. simpl orb. cbv iota.
  assert (Hrem : Z.rem (count + orig) count = orig).
  { rewrite Z.rem_mod_nonneg by lia.
    replace (count + orig) with (orig + 1 * count) by lia.
    rewrite Z.mod_add by lia. apply Z.mod_small. lia. }
  rewrite Hrem.
  destruct (CFArrayGetValueAtIndex_in_range (windows panel) orig Hlive)
    as [seed Hseed].
  rewrite Hseed. simpl.
  set (im := if (if negb (cycle_ignore_minimized wPreferences) then false
                 else ignore_minimized)
                && (canReceiveFocus (deref seed) <? 0)
             then false
             else if negb (cycle_ignore_minimized wPreferences) then false
                  else ignore_minimized).
  destruct (select_outer_total (windows panel) count orig seed back im
              class_only eq_refl (Z.to_nat count) (Z.to_nat count) orig
              Hlive ltac:(lia) ltac:(lia)
              (iter_advance_cycle count back orig Hlive))
    as (j & w & Hj & Hout & Hpassed).
  remember (Nat.iter j (advance count back) orig) as c eqn:Hcj.
  rewrite Hout. simpl.
  destruct (select_outer_sound _ _ _ _ _ _ _ _ _ _ _ Hout) as [Hw Hclass].
  pose proof (CFArrayGetValueAtIndex_Some _ _ _ Hw) as Hc.
  pose proof (select_repaint_frame (windows panel) 0 orig seed class_only
                (set_current c panel) false) as Hrep.
  destruct (select_repaint (windows panel) 0 orig seed class_only
              (set_current c panel) false) as [p1 dim].
  simpl in Hrep. destruct Hrep as (Hw1 & Hc1 & Hf1 & Hv1 & Hwin1).
  match goal with |- context [if win ?q then _ else _] =>
    set (p2 := q);
    assert (Hp2 : windows p2 = windows panel /\ current p2 = c
                  /\ win p2 = win panel)
  end.
  { subst p2.
    destruct (current p1 <? firstVisible p1);
      [pose proof (scrollIcons_frame p1 (current p1 - firstVisible p1));
       intuition congruence|].
    destruct (current p1 - firstVisible p1 >=? visibleCount p1);
      [|intuition congruence].
    pose proof (scrollIcons_frame p1 (current p1 - firstVisible p1
                                      - visibleCount p1 + 1)).
    intuition congruence. }
  destruct Hp2 as (Hw2 & Hc2 & Hwin2).
  assert (Hq : forall q : WSwitchPanel,
            q = (if negb (current p2 =? orig)
                 then changeImage p2 orig false dim false else p2) ->
            windows q = windows panel /\ current q = c
            /\ win q = win panel).
  { intros q ->. destruct (negb (current p2 =? orig)); [|tauto].
    pose proof (changeImage_frame p2 orig false dim false).
    intuition congruence. }
  assert (Hrest : forall p3 : WSwitchPanel,
            windows p3 = windows panel -> current p3 = c ->
            win p3 = win panel ->
            windows p3 = windows panel
            /\ live p3
            /\ CFArrayGetValueAtIndex (windows panel) (current p3) = Some w
            /\ Some seed = Some seed
            /\ (class_only = true ->
                current p3 = orig
                \/ sameWindowClass (deref w) (deref seed) = true)
            /\ (class_only = false ->
                ignore_minimized && cycle_ignore_minimized wPreferences
                = false ->
                current p3 = advance count back orig)
            /\ (current p3 = orig ->
                forall i : Z,
                  0 <= i < count -> i <> orig ->
                  passed_over (windows panel) seed ignore_minimized
                              class_only i)
            /\ win p3 = win panel).
  { intros p3 Hw3 Hc3 Hwin3.
    split; [exact Hw3|]. split; [unfold live; rewrite Hw3, Hc3; exact Hc|].
    rewrite Hc3. split; [exact Hw|]. split; [reflexivity|].
    split; [exact Hclass|]. split; [|split; [|exact Hwin3]].
    2: { intros Hback i Hi Hne.
         assert (Hfull : j = Z.to_nat count).
         { destruct (Nat.eq_dec j (Z.to_nat count)) as [|Hlt]; [assumption|].
           exfalso.
           apply (iter_advance_away count back j orig Hlive); [lia|lia|].
           congruence. }
         destruct (iter_advance_reach count back orig i Hlive Hi Hne)
           as (m & Hm1 & Hm2 & Hreach).
         destruct (Hpassed m ltac:(lia)) as [_ Hp].
         rewrite Hreach in Hp. intros wm Hwm.
         destruct (Hp wm Hwm) as [Hl|[Hr Hsoft]]; [left; exact Hl|].
         right. split; [|exact Hsoft].
         subst im. destruct ignore_minimized; [reflexivity|].
         destruct (negb (cycle_ignore_minimized wPreferences)); discriminate. }
    intros -> Him.
    assert (Him' : im = false).
    { subst im. destruct ignore_minimized; simpl in Him |- *.
      - rewrite Him. reflexivity.
      - destruct (negb (cycle_ignore_minimized wPreferences)); reflexivity. }
    rewrite Him' in Hout.
    destruct (Z.to_nat count) as [|n] eqn:Hn; [lia|].
    destruct (CFArrayGetValueAtIndex_in_range (windows panel)
                (advance count back orig)
                (advance_range count back orig Hlive)) as [w' Hw'].
    simpl select_outer in Hout.
    rewrite Hn, (select_inner_plain n _ _ _ _ _ _ _ Hw') in Hout.
    simpl in Hout. congruence. }
  clearbody p2.
  destruct (win p2) eqn:Hdrawn.
  - destruct (Hq _ eq_refl) as (Hwq & Hcq & Hwinq).
    match goal with |- context [changeImage ?q (current ?q) true false false] =>
      pose proof (changeImage_frame q (current q) true false false) as H3;
      eexists (changeImage q (current q) true false false), w, seed
    end.
    split.
    + rewrite <- Hwin2. unfold has_title.
      destruct (select_next_title (deref w) class_only); reflexivity.
    + apply Hrest; intuition congruence.
  - exists p2, w, seed. split; [rewrite <- Hwin2; reflexivity|].
    apply Hrest; congruence.
Qed.

(** When the title of every candidate can be read, the call returns. *)
Lemma has_title_candidate (panel : WSwitchPanel) (class_only : bool)
    (i : Z) (w : wptr) :
  titled panel class_only = true ->
  CFArrayGetValueAtIndex (windows panel) i = Some w ->
  win panel && negb (has_title (deref w) class_only) = false.
Proof. trim.
  unfold titled, CFArrayGetValueAtIndex. intros Ht Hw.
  destruct (win panel); [|reflexivity]. simpl in Ht |- *.
  destruct (i <? 0); [discriminate|].
  apply list_elem_of_lookup_2, list_elem_of_In in Hw.
  rewrite forallb_forall in Ht. rewrite (Ht w Hw). reflexivity.
Qed.

Lemma wSwitchPanelSelectNext_live (panel : WSwitchPanel)
    (back ignore_minimized class_only : bool) :
  live panel ->
  titled panel class_only = true ->
  exists (panel' : WSwitchPanel) (w seed : wptr),
    wSwitchPanelSelectNext panel back ignore_minimized class_only
    = Some (panel', Some w)
    /\ windows panel' = windows panel
    /\ live panel'
    /\ CFArrayGetValueAtIndex (windows panel) (current panel') = Some w
    /\ CFArrayGetValueAtIndex (windows panel) (current panel) = Some seed
    /\ (class_only = true ->
        current panel' = current panel
        \/ sameWindowClass (deref w) (deref seed) = true)
    /\ (class_only = false ->
        ignore_minimized && cycle_ignore_minimized wPreferences = false ->
        current panel'
        = advance (CFArrayGetCount (windows panel)) back (current panel))
    /\ (current panel' = current panel ->
        forall i : Z,
          0 <= i < CFArrayGetCount (windows panel) -> i <> current panel ->
          passed_over (windows panel) seed ignore_minimized class_only i)
    /\ win panel' = win panel.
Proof. trim.
  intros Hlive Htitled.
  destruct (wSwitchPanelSelectNext_run panel back ignore_minimized class_only
              Hlive) as (panel' & w & seed & Hcall & Hrest).
  exists panel', w, seed. split; [|exact Hrest].
  destruct Hrest as (_ & _ & Hw & _).
  rewrite Hcall, (has_title_candidate panel class_only _ w Htitled Hw).
  reflexivity.
Qed.

(** The panel keeps its titles from one call to the next. *)
Lemma titled_transfer (p q : WSwitchPanel) (class_only : bool) :
  windows q = windows p -> win q = win p ->
  titled q class_only = titled p class_only.
Proof. trim. unfold titled. intros -> ->. reflexivity. Qed.

Lemma select_next_times_plain (n : nat) (back ignore_minimized : bool) :
  ignore_minimized && cycle_ignore_minimized wPreferences = false ->
  forall panel : WSwitchPanel,
    live panel ->
    titled panel false = true ->
    exists panel' : WSwitchPanel,
      select_next_times n panel back ignore_minimized false = Some panel'
      /\ windows panel' = windows panel
      /\ current panel'
         = Nat.iter n (advance (CFArrayGetCount (windows panel)) back)
                    (current panel).
Proof. trim.
  intros Him. induction n as [|n IH]; intros panel Hlive Htitled.
  - exists panel. simpl. auto.
  - destruct (wSwitchPanelSelectNext_live panel back ignore_minimized false
                Hlive Htitled)
      as (p1 & w & seed & Hcall & Hw1 & Hlive1 & _ & _ & _ & Hadv & _ & Hwin1).
    rewrite <- (titled_transfer panel p1 false Hw1 Hwin1) in Htitled.
    destruct (IH p1 Hlive1 Htitled) as (p2 & Hrest & Hw2 & Hc2).
    exists p2. simpl select_next_times. rewrite Hcall.
    split; [exact Hrest|]. split; [congruence|].
    rewrite Hc2, Hw1, (Hadv eq_refl Him). symmetry. apply Nat.iter_succ_r.
Qed.

Lemma first_index_from_spec (l : list wptr) (i : Z) (v : wptr) :
  (v ∈ l ->
   i <= first_index_from l i v < i + Z.of_nat (length l)
   /\ l !! Z.to_nat (first_index_from l i v - i) = Some v)
  /\ (v ∉ l -> first_index_from l i v = kCFNotFound).
Proof. trim.
  revert i. induction l as [|x l IH]; intros i; simpl.
  - split; [intros H; inversion H|reflexivity].
  - destruct (N.eqb_spec x v) as [->|Hne].
    + split.
      * intros _. split; [lia|]. replace (i - i) with 0 by lia. reflexivity.
      * intros Hnot. exfalso. apply Hnot. left.
    + destruct (IH (i + 1)) as [Hin Hout]. split.
      * intros Hv. apply elem_of_cons in Hv as [->|Hv]; [contradiction|].
        destruct (Hin Hv) as [Hr Hl]. split; [lia|].
        replace (Z.to_nat (first_index_from l (i + 1) v - i))
          with (S (Z.to_nat (first_index_from l (i + 1) v - (i + 1)))) by lia.
        exact Hl.
      * intros Hnot. apply Hout. intros Hv. apply Hnot. right. exact Hv.
Qed.

Lemma init_images_frame (n : nat) (i : Z) (p : WSwitchPanel) :
  windows (init_images n i p) = windows p
  /\ current (init_images n i p) = current p.
Proof. trim.
  revert i p. induction n as [|n IH]; intros i p; simpl; [tauto|].
  destruct (IH (i + 1) (changeImage p i false false true)) as [-> ->].
  pose proof (changeImage_frame p i false false true). tauto.
Qed.

(** C1 (as amended).  When the panel is drawn ([swtileImage] is set),
    [wInitSwitchPanel] on a non-empty candidate array yields a panel over
    that array whose [current] is the result of
    [CFArrayGetFirstIndexOfValue]: the first index of the hint window when
    it is a candidate, in which case [0 <= current < count] and that slot
    holds the hint, and [kCFNotFound] (-1), not 0, when it is not. *)
Theorem wInitSwitchPanel_current (fresh : WSwitchPanel) (wins : list wptr)
    (rect_width : Z) (curwin : wptr) :
  swtileImage wPreferences = true ->
  wins <> [] ->
  exists panel : WSwitchPanel,
    wInitSwitchPanel fresh wins rect_width curwin = Some panel
    /\ windows panel = wins
    /\ current panel = CFArrayGetFirstIndexOfValue wins curwin
    /\ (curwin ∈ wins ->
        live panel
        /\ CFArrayGetValueAtIndex wins (current panel) = Some curwin)
    /\ (curwin ∉ wins -> current panel = kCFNotFound).
Proof. trim.
  intros Htile Hne. unfold wInitSwitchPanel.
  assert (Hlen : 0 < CFArrayGetCount wins).
  { unfold CFArrayGetCount. destruct wins; [contradiction|simpl; lia]. }
  destruct (Z.eqb_spec (CFArrayGetCount wins) 0) as [?|_]; [lia|].
  rewrite Htile. simpl negb. cbv iota.
  destruct (Z.gtb_spec (CFArrayGetCount wins) 0) as [_|?]; [|lia].
  match goal with |- context [init_images ?n 0 ?q] =>
    pose proof (init_images_frame n 0 q) as [Hw0 _];
    set (p0 := init_images n 0 q) in *
  end.
  simpl in Hw0.
  set (p1 := set_current (CFArrayGetFirstIndexOfValue (windows p0) curwin) p0).
  assert (Hp1 : windows p1 = wins
                /\ current p1 = CFArrayGetFirstIndexOfValue wins curwin).
  { subst p1. simpl. rewrite Hw0. split; reflexivity. }
  match goal with |- context [Some ?q = Some _] =>
    assert (Hq : windows q = wins
                 /\ current q = CFArrayGetFirstIndexOfValue wins curwin)
  end.
  { destruct (current p1 >=? 0); [|exact Hp1].
    destruct (changeImage_frame p1 (current p1) true false false)
      as (Ha & Hb & _).
    destruct Hp1 as [Hp1w Hp1c]. split; congruence. }
  destruct Hq as [Hqw Hqc].
  eexists. split; [reflexivity|]. split; [exact Hqw|]. split; [exact Hqc|].
  destruct (first_index_from_spec wins 0 curwin) as [Hin Hout].
  fold (CFArrayGetFirstIndexOfValue wins curwin) in Hin, Hout.
  split.
  - intros Hv. destruct (Hin Hv) as [Hr Hl]. unfold live.
    rewrite Hqw, Hqc. split; [exact Hr|].
    unfold CFArrayGetValueAtIndex.
    destruct (Z.ltb_spec (CFArrayGetFirstIndexOfValue wins curwin) 0); [lia|].
    rewrite Z.sub_0_r in Hl. exact Hl.
  - intros Hv. rewrite Hqc. exact (Hout Hv).
Qed.

(** C7 (as amended).  For a live session whose titles can be read,
    cycled without filtering ([class_only] off and [ignore_minimized] off
    or disabled by the [cycle_ignore_minimized] preference), as many
    calls of [wSwitchPanelSelectNext] in one direction as there are
    candidates bring [current] back to where it started.  With a single
    candidate, one call with any arguments returns that candidate and
    leaves [current] unchanged.  The titles can be read when the panel is
    not drawn, or when every candidate has what the call reads for its
    title: a frame under [class_only], the GNUstep flag or a class
    otherwise. *)
Theorem select_next_cyclic_closure (panel : WSwitchPanel)
    (back ignore_minimized : bool) :
  live panel ->
  (ignore_minimized && cycle_ignore_minimized wPreferences = false ->
   titled panel false = true ->
   exists panel' : WSwitchPanel,
     select_next_times (length (windows panel)) panel back ignore_minimized
                       false = Some panel'
     /\ current panel' = current panel)
  /\ (forall class_only : bool,
       length (windows panel) = 1%nat ->
       titled panel class_only = true ->
       exists (panel' : WSwitchPanel) (w : wptr),
         wSwitchPanelSelectNext panel back ignore_minimized class_only
         = Some (panel', Some w)
         /\ current panel' = current panel
         /\ CFArrayGetValueAtIndex (windows panel) (current panel) = Some w).
Proof. trim.
  intros Hlive. split.
  - intros Him Htitled.
    destruct (select_next_times_plain (length (windows panel)) back
                ignore_minimized Him panel Hlive Htitled)
      as (p' & Hrun & _ & Hcur).
    exists p'. split; [exact Hrun|]. rewrite Hcur.
    replace (length (windows panel))
      with (Z.to_nat (CFArrayGetCount (windows panel)))
      by (unfold CFArrayGetCount; lia).
    apply iter_advance_cycle, Hlive.
  - intros class_only Hone Htitled.
    destruct (wSwitchPanelSelectNext_live panel back ignore_minimized
                class_only Hlive Htitled)
      as (p' & w & seed & Hcall & Hw' & Hlive' & Hw & _).
    unfold live, CFArrayGetCount in Hlive, Hlive'.
    rewrite Hw' in Hlive'. rewrite Hone in Hlive, Hlive'.
    assert (Hsame : current p' = current panel) by lia.
    exists p', w. rewrite <- Hsame. auto.
Qed.

(** C8.  Under [class_only], one call of [wSwitchPanelSelectNext] on a
    live session never leaves [current] on a candidate of another class
    than the seed (the window at the pre-advance index, compared by
    [sameWindowClass]), unless [current] is back on the seed index
    itself; and [current] comes back to the seed index only when no other
    candidate could be stopped on: each of them is of another class, or
    is unmapped while [ignore_minimized] is on.  This holds of whatever
    the call returns; and the call does return the window it leaves
    [current] on whenever the frame titles it draws can be read (the
    panel is not drawn, or every candidate has a frame). *)
Theorem select_next_class_only (panel : WSwitchPanel)
    (back ignore_minimized : bool) :
  live panel ->
  (titled panel true = true ->
   exists (panel' : WSwitchPanel) (w : wptr),
     wSwitchPanelSelectNext panel back ignore_minimized true
     = Some (panel', Some w))
  /\ (forall (panel' : WSwitchPanel) (r : option wptr),
       wSwitchPanelSelectNext panel back ignore_minimized true
       = Some (panel', r) ->
       exists w seed : wptr,
         r = Some w
         /\ CFArrayGetValueAtIndex (windows panel) (current panel) = Some seed
         /\ CFArrayGetValueAtIndex (windows panel') (current panel') = Some w
         /\ (current panel' = current panel
             \/ sameWindowClass (deref w) (deref seed) = true)
         /\ (current panel' = current panel ->
             forall (i : Z) (wi : wptr),
               i <> current panel ->
               CFArrayGetValueAtIndex (windows panel) i = Some wi ->
               sameWindowClass (deref wi) (deref seed) = false
               \/ (ignore_minimized = true
                   /\ canReceiveFocus (deref wi) < 0))).
Proof. trim.
  intros Hlive.
  destruct (wSwitchPanelSelectNext_run panel back ignore_minimized true Hlive)
    as (p' & w & seed & Hcall & Hw' & _ & Hw & Hseed & Hclass & _ & Hwrap & _).
  split.
  - intros Htitled. exists p', w.
    rewrite Hcall, (has_title_candidate panel true _ w Htitled Hw).
    reflexivity.
  - intros panel' r Hret. rewrite Hcall in Hret.
    destruct (win panel && negb (has_title (deref w) true)); [discriminate|].
    injection Hret as <- <-.
    exists w, seed. rewrite Hw'.
    split; [reflexivity|]. split; [exact Hseed|]. split; [exact Hw|].
    split; [apply Hclass; reflexivity|].
    intros Hback i wi Hne Hwi.
    destruct (Hwrap Hback i (CFArrayGetValueAtIndex_Some _ _ _ Hwi) Hne wi Hwi)
      as [[_ Hmis]|Hsoft]; [left; exact Hmis|right; exact Hsoft].
Qed.

(** ** The viewport *)

Lemma scroll_repaint_view (n : nat) (i : Z) (p : WSwitchPanel) :
  firstVisible (scroll_repaint n i p) = firstVisible p.
Proof. trim.
  revert i p. induction n as [|n IH]; intros i p; simpl; [reflexivity|].
  rewrite IH. destruct (i =? current p); [reflexivity|].
  destruct (CFArrayGetValueAtIndex (flags p) i) as [fl|]; [|reflexivity].
  apply changeImage_frame.
Qed.

Lemma scrollIcons_view (p : WSwitchPanel) (delta : Z) :
  visibleCount (scrollIcons p delta) = visibleCount p
  /\ firstVisible (scrollIcons p delta)
     = if CFArrayGetCount (windows p) <=? visibleCount p then firstVisible p
       else Z.max 0 (Z.min (firstVisible p + delta)
                           (CFArrayGetCount (windows p) - visibleCount p)).
Proof. trim.
  unfold scrollIcons.
  destruct (CFArrayGetCount (windows p) <=? visibleCount p) eqn:Hfit;
    [split; reflexivity|].
  apply Z.leb_gt in Hfit.
  set (nfirst :=
         if firstVisible p + delta <? 0 then 0
         else if firstVisible p + delta
                 >=? CFArrayGetCount (windows p) - visibleCount p
              then CFArrayGetCount (windows p) - visibleCount p
              else firstVisible p + delta).
  assert (Hn : nfirst
               = Z.max 0 (Z.min (firstVisible p + delta)
                                (CFArrayGetCount (windows p) - visibleCount p))).
  { unfold nfirst.
    destruct (firstVisible p + delta <? 0) eqn:H0;
      [apply Z.ltb_lt in H0; lia|apply Z.ltb_ge in H0].
    destruct (firstVisible p + delta
              >=? CFArrayGetCount (windows p) - visibleCount p) eqn:H1;
      [apply Z.geb_ge in H1; lia|].
    rewrite Z.geb_leb in H1. apply Z.leb_gt in H1. lia. }
  destruct (nfirst =? firstVisible p) eqn:Hsame.
  - apply Z.eqb_eq in Hsame. split; [reflexivity|]. rewrite <- Hn. now symmetry.
  - rewrite scroll_repaint_view.
    destruct (scroll_repaint_frame
                (Z.to_nat (visibleCount (set_firstVisible nfirst p)))
                (firstVisible (set_firstVisible nfirst p))
                (set_firstVisible nfirst p)) as (_ & _ & Hv & _).
    rewrite Hv. simpl. split; [reflexivity|exact Hn].
Qed.

(** X1.  [scrollIcons] never scrolls past either end of the row: when
    there are more candidates than tiles shown, the first tile shown
    afterwards lies between 0 and [count - visibleCount], and it is the
    requested position whenever that position is in this range; the
    candidates, the selection and the number of tiles shown are kept. *)
Theorem scrollIcons_clamps (panel : WSwitchPanel) (delta : Z) :
  visibleCount panel < CFArrayGetCount (windows panel) ->
  0 <= firstVisible (scrollIcons panel delta)
    <= CFArrayGetCount (windows panel) - visibleCount panel
  /\ (0 <= firstVisible panel + delta
        <= CFArrayGetCount (windows panel) - visibleCount panel ->
      firstVisible (scrollIcons panel delta) = firstVisible panel + delta)
  /\ visibleCount (scrollIcons panel delta) = visibleCount panel
  /\ windows (scrollIcons panel delta) = windows panel
  /\ current (scrollIcons panel delta) = current panel.
Proof. trim.
  intros Hmore.
  destruct (scrollIcons_view panel delta) as [Hv Hf].
  destruct (scrollIcons_frame panel delta) as (Hw & Hc & _).
  assert (Hfit : (CFArrayGetCount (windows panel) <=? visibleCount panel)
                 = false) by (apply Z.leb_gt; lia).
  rewrite Hfit in Hf. rewrite Hf.
  repeat split; try assumption; lia.
Qed.

Lemma view_transfer (p q : WSwitchPanel) :
  windows q = windows p -> current q = current p ->
  firstVisible q = firstVisible p -> visibleCount q = visibleCount p ->
  (viewport p -> viewport q) /\ (in_view p -> in_view q)
  /\ (live p -> live q).
Proof. trim.
  unfold viewport, in_view, live. intros -> -> -> ->. tauto.
Qed.

Lemma changeImage_view (p : WSwitchPanel) (i : Z) (a b c : bool) :
  (viewport p -> viewport (changeImage p i a b c))
  /\ (in_view p -> in_view (changeImage p i a b c))
  /\ (live p -> live (changeImage p i a b c)).
Proof. trim.
  destruct (changeImage_frame p i a b c) as (Hw & Hc & Hf & Hv & _).
  now apply view_transfer.
Qed.

(** The scrolling step of [wSwitchPanelSelectNext] brings the current
    candidate among the tiles shown. *)
Lemma scroll_into_view (p : WSwitchPanel) :
  viewport p -> live p ->
  let p' :=
    if current p <? firstVisible p
    then scrollIcons p (current p - firstVisible p)
    else if current p - firstVisible p >=? visibleCount p
    then scrollIcons p (current p - firstVisible p - visibleCount p + 1)
    else p in
  viewport p' /\ in_view p' /\ live p'
  /\ windows p' = windows p /\ current p' = current p /\ win p' = win p.
Proof. trim.
  intros (Hvis & Hfirst) Hlive. unfold live in Hlive.
  destruct (current p <? firstVisible p) eqn:Hlt; simpl.
  - apply Z.ltb_lt in Hlt.
    destruct (scrollIcons_view p (current p - firstVisible p)) as [Hv Hf].
    destruct (scrollIcons_frame p (current p - firstVisible p))
      as (Hw & Hc & Hwin).
    destruct (CFArrayGetCount (windows p) <=? visibleCount p) eqn:Hfit;
      [apply Z.leb_le in Hfit; lia|apply Z.leb_gt in Hfit].
    unfold viewport, in_view, live. rewrite Hv, Hf, Hw, Hc.
    repeat split; try assumption; lia.
  - apply Z.ltb_ge in Hlt.
    destruct (current p - firstVisible p >=? visibleCount p) eqn:Hge.
    + apply Z.geb_ge in Hge.
      destruct (scrollIcons_view
                  p (current p - firstVisible p - visibleCount p + 1))
        as [Hv Hf].
      destruct (scrollIcons_frame
                  p (current p - firstVisible p - visibleCount p + 1))
        as (Hw & Hc & Hwin).
      destruct (CFArrayGetCount (windows p) <=? visibleCount p) eqn:Hfit;
        [apply Z.leb_le in Hfit; lia|apply Z.leb_gt in Hfit].
      unfold viewport, in_view, live. rewrite Hv, Hf, Hw, Hc.
      repeat split; try assumption; lia.
    + rewrite Z.geb_leb in Hge. apply Z.leb_gt in Hge.
      unfold viewport, in_view, live.
      repeat split; try assumption; lia.
Qed.

Lemma wSwitchPanelSelectNext_view (panel panel' : WSwitchPanel)
    (back ignore_minimized class_only : bool) (w : wptr) :
  wSwitchPanelSelectNext panel back ignore_minimized class_only
  = Some (panel', Some w) ->
  viewport panel ->
  viewport panel' /\ in_view panel'
  /\ visibleCount panel' = visibleCount panel.
Proof. trim.
  unfold wSwitchPanelSelectNext. intros Hcall Hview.
  destruct ((CFArrayGetCount (windows panel) =? 0) || (current panel <? 0));
    [discriminate|].
  destruct (CFArrayGetValueAtIndex
              (windows panel)
              (Z.rem (CFArrayGetCount (windows panel) + current panel)
                     (CFArrayGetCount (windows panel))))
    as [seed|]; [|discriminate].
  simpl in Hcall.
  destruct (CFArrayGetValueAtIndex (windows panel) (current panel))
    as [curwin|]; [|discriminate].
  simpl in Hcall.
  match type of Hcall with context [select_outer ?f ?ws ?c ?o ?cw ?b ?i ?k ?cu] =>
    destruct (select_outer f ws c o cw b i k cu) as [[cur wwin]|] eqn:Hout;
      [|discriminate]
  end.
  simpl in Hcall.
  destruct (select_outer_sound _ _ _ _ _ _ _ _ _ _ _ Hout) as [Hw _].
  pose proof (CFArrayGetValueAtIndex_Some _ _ _ Hw) as Hc.
  pose proof (select_repaint_frame (windows panel) 0 (current panel) curwin
                class_only (set_current cur panel) false) as Hrep.
  destruct (select_repaint (windows panel) 0 (current panel) curwin
              class_only (set_current cur panel) false) as [p1 dim].
  simpl in Hrep. destruct Hrep as (Hw1 & Hc1 & Hf1 & Hv1 & Hwin1).
  assert (Hview1 : viewport p1).
  { unfold viewport. rewrite Hw1, Hf1, Hv1. exact Hview. }
  assert (Hlive1 : live p1).
  { unfold live. rewrite Hw1, Hc1. exact Hc. }
  pose proof (scroll_into_view p1 Hview1 Hlive1) as Hscroll.
  cbv zeta in Hscroll.
  match type of Hcall with context [if win ?q then _ else _] =>
    set (p2 := q) in *
  end.
  destruct Hscroll as (Hview2 & Hin2 & Hlive2 & Hw2 & Hc2 & Hwin2).
  assert (Hv2 : visibleCount p2 = visibleCount panel).
  { rewrite <- Hv1. subst p2.
    destruct (current p1 <? firstVisible p1); [apply scrollIcons_view|].
    destruct (current p1 - firstVisible p1 >=? visibleCount p1);
      [apply scrollIcons_view|reflexivity]. }
  clearbody p2.
  destruct (win p2).
  - destruct (select_next_title (deref wwin) class_only); [|discriminate].
    simpl in Hcall. injection Hcall as <- _.
    match goal with |- context [changeImage ?q (current ?q) true false false] =>
      assert (Hq : viewport q /\ in_view q
                   /\ visibleCount q = visibleCount panel)
    end.
    { destruct (negb (current p2 =? current panel)); [|tauto].
      destruct (changeImage_view p2 (current panel) false dim false)
        as (Hq1 & Hq2 & _).
      destruct (changeImage_frame p2 (current panel) false dim false)
        as (_ & _ & _ & Hq3 & _).
      rewrite Hq3. tauto. }
    match goal with |- context [changeImage ?q (current ?q) true false false] =>
      destruct (changeImage_view q (current q) true false false)
        as (Hr1 & Hr2 & _);
      destruct (changeImage_frame q (current q) true false false)
        as (_ & _ & _ & Hr3 & _)
    end.
    rewrite Hr3. tauto.
  - injection Hcall as <- _. tauto.
Qed.

(** X2.  The viewport follows the selection.  On a live panel whose
    viewport is well formed and whose titles can be read,
    [wSwitchPanelSelectNext] returns a window, keeps the viewport well
    formed and leaves the candidate it selects among the tiles shown,
    whatever the direction and the filters. *)
Theorem select_next_in_view (panel : WSwitchPanel)
    (back ignore_minimized class_only : bool) :
  live panel ->
  viewport panel ->
  titled panel class_only = true ->
  exists (panel' : WSwitchPanel) (w : wptr),
    wSwitchPanelSelectNext panel back ignore_minimized class_only
    = Some (panel', Some w)
    /\ live panel' /\ viewport panel' /\ in_view panel'
    /\ visibleCount panel' = visibleCount panel.
Proof. trim.
  intros Hlive Hview Htitled.
  destruct (wSwitchPanelSelectNext_live panel back ignore_minimized class_only
              Hlive Htitled) as (panel' & w & seed & Hcall & _ & Hlive' & _).
  exists panel', w. split; [exact Hcall|]. split; [exact Hlive'|].
  exact (wSwitchPanelSelectNext_view _ _ _ _ _ _ Hcall Hview).
Qed.

Lemma select_one_repaint_frame (n : nat) (i focus : Z) (p : WSwitchPanel) :
  windows (select_one_repaint n i focus p) = windows p
  /\ current (select_one_repaint n i focus p) = current p
  /\ firstVisible (select_one_repaint n i focus p) = firstVisible p
  /\ visibleCount (select_one_repaint n i focus p) = visibleCount p
  /\ win (select_one_repaint n i focus p) = win p.
Proof. trim.
  revert i p. induction n as [|n IH]; intros i p; simpl; [tauto|].
  destruct (IH (i + 1) (changeImage p i (i =? focus) false false))
    as (-> & -> & -> & -> & ->).
  apply changeImage_frame.
Qed.

(** X3.  [wSwitchPanelSelectFirst] on a panel with candidates selects
    the first candidate, or the last one when going backwards, returns
    that window and keeps the candidates; from a well-formed viewport it
    leaves a well-formed viewport that shows the selected candidate. *)
Theorem wSwitchPanelSelectFirst_spec (panel : WSwitchPanel) (back : bool) :
  windows panel <> [] ->
  exists (panel' : WSwitchPanel) (w : wptr),
    wSwitchPanelSelectFirst panel back = Some (panel', Some w)
    /\ windows panel' = windows panel
    /\ current panel'
       = (if back then CFArrayGetCount (windows panel) - 1 else 0)
    /\ CFArrayGetValueAtIndex (windows panel) (current panel') = Some w
    /\ live panel'
    /\ (viewport panel -> viewport panel' /\ in_view panel').
Proof. trim.
  intros Hne. unfold wSwitchPanelSelectFirst.
  assert (Hlen : 0 < CFArrayGetCount (windows panel)).
  { unfold CFArrayGetCount. destruct (windows panel); [contradiction|].
    simpl; lia. }
  destruct (Z.eqb_spec (CFArrayGetCount (windows panel)) 0) as [?|_]; [lia|].
  set (count := CFArrayGetCount (windows panel)) in *.
  set (c := if back then count - 1 else 0).
  set (p1 := if back then scrollIcons (set_current (count - 1) panel) count
             else scrollIcons (set_current 0 panel) (- count)).
  assert (Hp1 : windows p1 = windows panel /\ current p1 = c
                /\ visibleCount p1 = visibleCount panel
                /\ firstVisible p1
                   = if count <=? visibleCount panel then firstVisible panel
                     else Z.max 0 (Z.min (firstVisible panel
                                          + (if back then count else - count))
                                         (count - visibleCount panel))).
  { subst p1 c. destruct back.
    - destruct (scrollIcons_frame (set_current (count - 1) panel) count)
        as (Hw & Hc & _).
      destruct (scrollIcons_view (set_current (count - 1) panel) count)
        as (Hv & Hf).
      rewrite Hw, Hc, Hv, Hf. simpl. fold count. tauto.
    - destruct (scrollIcons_frame (set_current 0 panel) (- count))
        as (Hw & Hc & _).
      destruct (scrollIcons_view (set_current 0 panel) (- count))
        as (Hv & Hf).
      rewrite Hw, Hc, Hv, Hf. simpl. fold count. tauto. }
  clearbody p1. destruct Hp1 as (Hw1 & Hc1 & Hv1 & Hf1).
  assert (Hc : 0 <= c < count) by (subst c; destruct back; lia).
  destruct (CFArrayGetValueAtIndex_in_range (windows panel) c Hc)
    as [w Hw].
  rewrite Hw1, Hc1, Hw. simpl.
  set (p2 := if win p1 then select_one_repaint (Z.to_nat count) 0 c p1
             else p1).
  assert (Hp2 : windows p2 = windows p1 /\ current p2 = current p1
                /\ firstVisible p2 = firstVisible p1
                /\ visibleCount p2 = visibleCount p1).
  { subst p2. destruct (win p1); [|tauto].
    pose proof (select_one_repaint_frame (Z.to_nat count) 0 c p1). tauto. }
  clearbody p2. destruct Hp2 as (Hw2 & Hc2 & Hf2 & Hv2).
  exists p2, w. split; [reflexivity|].
  rewrite Hc2, Hc1, Hw2, Hw1.
  split; [reflexivity|]. split; [reflexivity|]. split; [exact Hw|].
  split; [unfold live; rewrite Hc2, Hc1, Hw2, Hw1; exact Hc|].
  intros (Hvis & Hfirst). fold count in Hfirst.
  unfold viewport, in_view.
  rewrite Hc2, Hc1, Hw2, Hw1, Hf2, Hf1, Hv2, Hv1. fold count.
  subst c.
  destruct (Z.leb_spec count (visibleCount panel)); destruct back; lia.
Qed.

Lemma init_images_view (n : nat) (i : Z) (p : WSwitchPanel) :
  firstVisible (init_images n i p) = firstVisible p
  /\ visibleCount (init_images n i p) = visibleCount p.
Proof. trim.
  revert i p. induction n as [|n IH]; intros i p; simpl; [tauto|].
  destruct (IH (i + 1) (changeImage p i false false true)) as [-> ->].
  pose proof (changeImage_frame p i false false true). tauto.
Qed.

(** The fields of the panel that [wInitSwitchPanel] returns. *)
Lemma wInitSwitchPanel_fields (fresh : WSwitchPanel) (wins : list wptr)
    (rect_width : Z) (curwin : wptr) :
  wins <> [] ->
  exists panel : WSwitchPanel,
    wInitSwitchPanel fresh wins rect_width curwin = Some panel
    /\ windows panel = wins
    /\ firstVisible panel = firstVisible fresh
    /\ visibleCount panel
       = (if ICON_TILE_SIZE * CFArrayGetCount wins >? rect_width
          then Z.quot (rect_width - SCREEN_BORDER_SPACING) ICON_TILE_SIZE
          else CFArrayGetCount wins)
    /\ current panel
       = (if swtileImage wPreferences
          then CFArrayGetFirstIndexOfValue wins curwin
          else current fresh).
Proof. trim.
  intros Hne. unfold wInitSwitchPanel.
  assert (Hlen : 0 < CFArrayGetCount wins).
  { unfold CFArrayGetCount. destruct wins; [contradiction|simpl; lia]. }
  destruct (Z.eqb_spec (CFArrayGetCount wins) 0) as [?|_]; [lia|].
  destruct (swtileImage wPreferences); simpl negb; cbv iota.
  2: { eexists. split; [reflexivity|]. simpl. tauto. }
  destruct (Z.gtb_spec (CFArrayGetCount wins) 0) as [_|?]; [|lia].
  match goal with |- context [init_images ?n 0 ?q] =>
    pose proof (init_images_frame n 0 q) as [Hw0 _];
    pose proof (init_images_view n 0 q) as [Hf0 Hv0];
    set (p0 := init_images n 0 q) in *
  end.
  simpl in Hw0, Hf0, Hv0.
  set (p1 := set_current (CFArrayGetFirstIndexOfValue (windows p0) curwin) p0).
  assert (Hp1 : windows p1 = wins
                /\ current p1 = CFArrayGetFirstIndexOfValue wins curwin
                /\ firstVisible p1 = firstVisible fresh
                /\ visibleCount p1 = visibleCount p0).
  { subst p1. simpl. rewrite Hw0, Hf0. tauto. }
  clearbody p1. destruct Hp1 as (Hw1 & Hc1 & Hf1 & Hv1).
  eexists. split; [reflexivity|].
  destruct (current p1 >=? 0).
  - destruct (changeImage_frame p1 (current p1) true false false)
      as (-> & -> & -> & -> & _).
    rewrite Hv1, Hv0. tauto.
  - rewrite Hv1, Hv0. tauto.
Qed.

(** X4.  The panel that [wInitSwitchPanel] builds on a head wide enough
    for one tile and the border, from a zeroed block, starts with a
    well-formed viewport at the first candidate: it shows at least one
    tile and at most one per candidate, and the tiles shown fit in the
    width of the head. *)
Theorem wInitSwitchPanel_viewport (fresh : WSwitchPanel) (wins : list wptr)
    (rect_width : Z) (curwin : wptr) :
  wins <> [] ->
  firstVisible fresh = 0 ->
  SCREEN_BORDER_SPACING + ICON_TILE_SIZE <= rect_width ->
  exists panel : WSwitchPanel,
    wInitSwitchPanel fresh wins rect_width curwin = Some panel
    /\ viewport panel
    /\ firstVisible panel = 0
    /\ 1 <= visibleCount panel <= CFArrayGetCount wins
    /\ ICON_TILE_SIZE * visibleCount panel <= rect_width.
Proof. trim.
  intros Hne Hfresh Hwide.
  destruct (wInitSwitchPanel_fields fresh wins rect_width curwin Hne)
    as (panel & Hcall & Hw & Hf & Hv & _).
  assert (Hlen : 0 < CFArrayGetCount wins).
  { unfold CFArrayGetCount. destruct wins; [contradiction|simpl; lia]. }
  exists panel. split; [exact Hcall|].
  unfold viewport. rewrite Hw, Hf, Hv, Hfresh.
  unfold ICON_TILE_SIZE, SCREEN_BORDER_SPACING in *.
  destruct (Z.gtb_spec (64 * CFArrayGetCount wins) rect_width) as [Hbig|Hfit].
  - pose proof (Z.quot_rem' (rect_width - 2 * 20) 64) as Hqr.
    pose proof (Z.rem_bound_pos (rect_width - 2 * 20) 64 ltac:(lia)
                  ltac:(lia)) as Hr.
    lia.
  - lia.
Qed.

(** X5.  A panel drawn with a hint that is not among the candidates has
    no selection, and it never gets one by cycling: every call of
    [wSwitchPanelSelectNext], in any direction and under any filters,
    returns NULL and leaves the panel as it is. *)
Theorem absent_hint_never_cycles (fresh : WSwitchPanel) (wins : list wptr)
    (rect_width : Z) (curwin : wptr) :
  swtileImage wPreferences = true ->
  wins <> [] ->
  curwin ∉ wins ->
  exists panel : WSwitchPanel,
    wInitSwitchPanel fresh wins rect_width curwin = Some panel
    /\ current panel = kCFNotFound
    /\ forall (n : nat) (back ignore_minimized class_only : bool),
         wSwitchPanelSelectNext panel back ignore_minimized class_only
         = Some (panel, None)
         /\ select_next_times n panel back ignore_minimized class_only
            = Some panel.
Proof. trim.
  intros Htile Hne Habsent.
  destruct (wInitSwitchPanel_fields fresh wins rect_width curwin Hne)
    as (panel & Hcall & Hw & _ & _ & Hc).
  rewrite Htile in Hc.
  destruct (first_index_from_spec wins 0 curwin) as [_ Hout].
  fold (CFArrayGetFirstIndexOfValue wins curwin) in Hout.
  rewrite (Hout Habsent) in Hc.
  exists panel. split; [exact Hcall|]. split; [exact Hc|].
  assert (Hnext : forall back ignore_minimized class_only,
            wSwitchPanelSelectNext panel back ignore_minimized class_only
            = Some (panel, None)).
  { intros back im co. unfold wSwitchPanelSelectNext. rewrite Hc.
    unfold kCFNotFound. simpl (-1 <? 0). rewrite orb_true_r. reflexivity. }
  intros n back im co. split; [apply Hnext|].
  induction n as [|n IH]; simpl; [reflexivity|].
  rewrite Hnext. exact IH.
Qed.

Lemma select_next_times_view (back ignore_minimized class_only : bool)
    (n : nat) :
  forall panel : WSwitchPanel,
    live panel -> viewport panel -> titled panel class_only = true ->
    exists panel' : WSwitchPanel,
      select_next_times n panel back ignore_minimized class_only = Some panel'
      /\ windows panel' = windows panel
      /\ live panel' /\ viewport panel'
      /\ ((0 < n)%nat -> in_view panel').
Proof. trim.
  induction n as [|n IH]; intros panel Hlive Hview Htitled.
  - exists panel. simpl. split; [reflexivity|]. split; [reflexivity|].
    split; [exact Hlive|]. split; [exact Hview|]. lia.
  - destruct (wSwitchPanelSelectNext_live panel back ignore_minimized
                class_only Hlive Htitled)
      as (p1 & w & seed & Hcall & Hw1 & Hlive1 & _ & _ & _ & _ & _ & Hwin1).
    destruct (wSwitchPanelSelectNext_view _ _ _ _ _ _ Hcall Hview)
      as (Hview1 & Hin1 & _).
    rewrite <- (titled_transfer panel p1 class_only Hw1 Hwin1) in Htitled.
    destruct (IH p1 Hlive1 Hview1 Htitled)
      as (p2 & Hrun & Hw2 & Hlive2 & Hview2 & Hin2).
    exists p2. simpl. rewrite Hcall. split; [exact Hrun|].
    split; [congruence|]. split; [exact Hlive2|]. split; [exact Hview2|].
    intros _. destruct n as [|n]; [|apply Hin2; lia].
    simpl in Hrun. injection Hrun as <-. exact Hin1.
Qed.

(** X29.  From the construction of a panel on, the selection stays in
    view.  A panel drawn by [wInitSwitchPanel] from a zeroed block, on a
    head wide enough for one tile and the border, with a hint that is
    among the candidates, is live; and after any number of calls of
    [wSwitchPanelSelectNext], in any direction and under any filters for
    which the titles of the candidates can be read, the panel is live,
    its candidates are the same, its viewport is well formed, and once a
    call has been made the current candidate is among the tiles shown. *)
Theorem cycling_keeps_selection_in_view (fresh : WSwitchPanel)
    (wins : list wptr) (rect_width : Z) (curwin : wptr) :
  swtileImage wPreferences = true ->
  curwin ∈ wins ->
  firstVisible fresh = 0 ->
  SCREEN_BORDER_SPACING + ICON_TILE_SIZE <= rect_width ->
  exists panel : WSwitchPanel,
    wInitSwitchPanel fresh wins rect_width curwin = Some panel
    /\ live panel
    /\ forall (n : nat) (back ignore_minimized class_only : bool),
       forallb (fun w => has_title (deref w) class_only) wins = true ->
       exists panel' : WSwitchPanel,
         select_next_times n panel back ignore_minimized class_only
         = Some panel'
         /\ windows panel' = wins
         /\ live panel' /\ viewport panel'
         /\ ((0 < n)%nat -> in_view panel').
Proof. trim.
  intros Htile Hin Hfresh Hwide.
  assert (Hne : wins <> []) by (intros ->; inversion Hin).
  destruct (wInitSwitchPanel_fields fresh wins rect_width curwin Hne)
    as (panel & Hcall & Hw & Hf & Hv & Hc).
  rewrite Htile in Hc.
  assert (Hlen : 0 < CFArrayGetCount wins).
  { unfold CFArrayGetCount. destruct wins; [contradiction|simpl; lia]. }
  assert (Hlive : live panel).
  { unfold live. rewrite Hw, Hc.
    destruct (first_index_from_spec wins 0 curwin) as [Hfound _].
    apply Hfound in Hin as [Hr _]. unfold CFArrayGetCount.
    unfold CFArrayGetFirstIndexOfValue. lia. }
  assert (Hview : viewport panel).
  { unfold viewport. rewrite Hw, Hf, Hv, Hfresh.
    unfold ICON_TILE_SIZE, SCREEN_BORDER_SPACING in *.
    destruct (Z.gtb_spec (64 * CFArrayGetCount wins) rect_width)
      as [Hbig|Hfit]; [|lia].
    pose proof (Z.quot_rem' (rect_width - 2 * 20) 64) as Hqr.
    pose proof (Z.rem_bound_pos (rect_width - 2 * 20) 64 ltac:(lia)
                  ltac:(lia)) as Hr.
    lia. }
  exists panel. split; [exact Hcall|]. split; [exact Hlive|].
  intros n back im co Htitles.
  assert (Htitled : titled panel co = true).
  { unfold titled. rewrite Hw, Htitles. apply orb_true_r. }
  destruct (select_next_times_view back im co n panel Hlive Hview Htitled)
    as (panel' & Hrun & Hw' & Hrest).
  exists panel'. split; [exact Hrun|]. split; [congruence|exact Hrest].
Qed.

(** ** Classes and candidates *)

(** X6.  [sameWindowClass] never matches a window without a class; it
    matches every window with a class against itself; and among windows
    that agree on the GNUstep flag it is symmetric and transitive. *)
Theorem sameWindowClass_equivalence (a b c : WWindow) :
  (wm_class a = None \/ wm_class b = None -> sameWindowClass a b = false)
  /\ (wm_class a <> None -> sameWindowClass a a = true)
  /\ (is_gnustep a = is_gnustep b ->
      sameWindowClass a b = sameWindowClass b a)
  /\ (is_gnustep b = is_gnustep c ->
      sameWindowClass a b = true -> sameWindowClass b c = true ->
      sameWindowClass a c = true).
Proof. trim.
  unfold sameWindowClass. repeat split.
  - intros [Hn|Hn]; rewrite Hn; [reflexivity|].
    destruct (wm_class a); reflexivity.
  - intros Hc. destruct (wm_class a) as [ca|]; [|contradiction].
    rewrite !String.eqb_refl. simpl. rewrite andb_false_r. reflexivity.
  - intros Hg. destruct (wm_class a) as [ca|], (wm_class b) as [cb|];
      try reflexivity.
    rewrite Hg, (String.eqb_sym (wm_instance b) (wm_instance a)),
      (String.eqb_sym cb ca).
    destruct (String.eqb_spec ca cb) as [->|_]; [reflexivity|].
    simpl. destruct (_ && _), (_ && _); reflexivity.
  - intros Hg.
    destruct (wm_class a) as [ca|], (wm_class b) as [cb|],
      (wm_class c) as [cc|]; try (intros; congruence).
    rewrite Hg.
    destruct (String.eqb_spec ca cb) as [Hab|_]; simpl.
    2: { match goal with |- (if ?t then _ else _) = _ -> _ => destruct t end;
         intros; congruence. }
    destruct (String.eqb_spec cb cc) as [Hbc|_]; simpl.
    2: { intros _.
         match goal with |- (if ?t then _ else _) = _ -> _ => destruct t end;
         intros; congruence. }
    rewrite Hab, Hbc, String.eqb_refl. simpl.
    destruct (is_gnustep c || String.eqb cc "GNUstep"); simpl;
      [|reflexivity].
    destruct (String.eqb_spec (wm_instance a) (wm_instance b)) as [Ha|_];
      simpl; [|intros; congruence].
    destruct (String.eqb_spec (wm_instance b) (wm_instance c)) as [Hb|_];
      simpl; [|intros; congruence].
    rewrite Ha, Hb, String.eqb_refl. reflexivity.
Qed.

Lemma mapped_windows_loop_filter (focused : wptr) (chain : list wptr)
    (include_unmapped : bool) (acc : list wptr) :
  mapped_windows_loop focused chain include_unmapped acc
  = acc ++ List.filter (cycle_candidate focused include_unmapped) chain.
Proof. trim.
  revert acc. induction chain as [|wwin prev IH]; intros acc; simpl.
  - now rewrite app_nil_r.
  - unfold cycle_candidate at 1.
    destruct (negb (canReceiveFocus (deref wwin) =? 0)
              && (mapped (deref wwin) || shaded (deref wwin)
                  || include_unmapped)
              && negb (skip_switchpanel (deref wwin))); simpl.
    + destruct (sameWindowClass (deref focused) (deref wwin)); simpl.
      * rewrite IH, <- app_assoc. reflexivity.
      * apply IH.
    + apply IH.
Qed.

(** X7.  Cycling within a class starts from the focused window.  The
    candidates of [makeWindowListArray] are then the windows of the list
    that pass the test of the loop, in list order; when the focused
    window has no class there is no candidate and [wInitSwitchPanel]
    returns NULL; when the focused window passes the test it is
    candidate 0, and a panel drawn with it as hint selects it. *)
Theorem class_only_candidates (wapp_list : list WAppWindows)
    (focused : wptr) (prev : list wptr) (include_unmapped : bool)
    (fresh : WSwitchPanel) (rect_width : Z) :
  let wins :=
    makeWindowListArray wapp_list (focused :: prev) include_unmapped true in
  wins = List.filter (cycle_candidate focused include_unmapped)
                     (focused :: prev)
  /\ (forall w : wptr,
        w ∈ wins ->
        canReceiveFocus (deref w) <> 0
        /\ skip_switchpanel (deref w) = false
        /\ sameWindowClass (deref focused) (deref w) = true)
  /\ (wm_class (deref focused) = None ->
      wins = []
      /\ forall curwin : wptr,
           wInitSwitchPanel fresh wins rect_width curwin = None)
  /\ (cycle_candidate focused include_unmapped focused = true ->
      swtileImage wPreferences = true ->
      exists panel : WSwitchPanel,
        wInitSwitchPanel fresh wins rect_width focused = Some panel
        /\ current panel = 0
        /\ CFArrayGetValueAtIndex (windows panel) 0 = Some focused).
Proof. trim.
  intros wins.
  assert (Hwins : wins = List.filter (cycle_candidate focused include_unmapped)
                                     (focused :: prev)).
  { subst wins. unfold makeWindowListArray. simpl negb. cbv iota.
    rewrite mapped_windows_loop_filter. reflexivity. }
  clearbody wins. split; [exact Hwins|]. split; [|split].
  - intros w Hw. rewrite Hwins, list_elem_of_In, filter_In in Hw.
    destruct Hw as [_ Hw]. unfold cycle_candidate in Hw.
    rewrite !andb_true_iff, !negb_true_iff in Hw.
    destruct Hw as [[[Hfocus _] Hskip] Hclass].
    split; [|tauto]. apply Z.eqb_neq. exact Hfocus.
  - intros Hnone.
    assert (Hnil : wins = []).
    { rewrite Hwins. clear Hwins. induction (focused :: prev) as [|x l IH]; [reflexivity|].
      simpl. unfold cycle_candidate at 1, sameWindowClass.
      rewrite Hnone, andb_false_r. exact IH. }
    split; [exact Hnil|]. intros curwin. rewrite Hnil. reflexivity.
  - intros Hcand Htile.
    assert (Hhead : wins
                    = focused :: List.filter
                                   (cycle_candidate focused include_unmapped)
                                   prev).
    { rewrite Hwins. simpl. rewrite Hcand. reflexivity. }
    assert (Hne : wins <> []) by (rewrite Hhead; discriminate).
    destruct (wInitSwitchPanel_fields fresh wins rect_width focused Hne)
      as (panel & Hcall & Hw & _ & _ & Hc).
    exists panel. split; [exact Hcall|].
    rewrite Htile in Hc. rewrite Hc, Hw, Hhead.
    unfold CFArrayGetFirstIndexOfValue. simpl. rewrite N.eqb_refl.
    split; reflexivity.
Qed.

Lemma app_windows_loop_omap (wapp : list WAppWindows) (acc : list wptr) :
  app_windows_loop wapp acc = acc ++ omap app_candidate wapp.
Proof. trim.
  revert acc. induction wapp as [|a next IH]; intros acc; simpl.
  - now rewrite app_nil_r.
  - rewrite IH.
    match goal with |- context [match ?e with Some _ => _ | None => acc end] =>
      assert (Hpick : e = app_candidate a)
    end.
    { unfold app_candidate. destruct (app_is_gnustep a); [reflexivity|].
      destruct (app_windows a) as [|first rest]; [reflexivity|].
      replace (CFArrayGetCount (first :: rest) >? 0) with true
        by (symmetry; apply Z.gtb_lt; unfold CFArrayGetCount; simpl; lia).
      destruct (last_focused a); reflexivity. }
    rewrite Hpick.
    destruct (app_candidate a); [now rewrite <- app_assoc|reflexivity].
Qed.

(** What [app_candidate] yields, read off the fields of the
    application. *)
Lemma app_candidate_fields (a : WAppWindows) (w : wptr) :
  app_candidate a = Some w ->
  if app_is_gnustep a
  then menu_win a = Some w
       \/ (menu_win a = None /\ main_window_desc a = Some w)
  else last_focused a = Some w
       \/ (last_focused a = None /\ app_windows a !! 0%nat = Some w).
Proof. trim.
  unfold app_candidate. destruct (app_is_gnustep a).
  - destruct (menu_win a); [left; assumption|right; tauto].
  - destruct (app_windows a) as [|first rest]; [discriminate|].
    destruct (last_focused a); [left; assumption|].
    intros [= <-]. right. split; reflexivity.
Qed.

Lemma app_candidate_some (a : WAppWindows) :
  gnustep_window a = true ->
  is_Some (app_candidate a)
  <-> app_is_gnustep a || negb (CFArrayGetCount (app_windows a) =? 0) = true.
Proof. trim.
  unfold gnustep_window, app_candidate. destruct (app_is_gnustep a); simpl.
  - intros Hg. split; [reflexivity|]. intros _.
    destruct (menu_win a); [eauto|].
    destruct (main_window_desc a); [eauto|].
    simpl in Hg. discriminate.
  - intros _. destruct (app_windows a) as [|first rest]; simpl.
    + split; [intros [? ?]|]; discriminate.
    + split; [reflexivity|].
      intros _. destruct (last_focused a); eauto.
Qed.

Lemma length_omap_filter {A B : Type} (f : A -> option B) (p : A -> bool)
    (l : list A) :
  (forall a, a ∈ l -> is_Some (f a) <-> p a = true) ->
  length (omap f l) = length (List.filter p l).
Proof. trim.
  induction l as [|a l IH]; intros Hfp; simpl; [reflexivity|].
  assert (IH' : length (omap f l) = length (List.filter p l)).
  { apply IH. intros a' Ha'. apply Hfp. right. exact Ha'. }
  destruct (Hfp a ltac:(left)) as [H1 H2].
  destruct (f a) as [b|], (p a); simpl.
  - f_equal. exact IH'.
  - specialize (H1 ltac:(eauto)). discriminate.
  - destruct (H2 eq_refl). discriminate.
  - exact IH'.
Qed.

(** X8.  Cycling between applications offers one candidate for each
    application that has one, in the order of the applications and
    whatever the window list holds.  Where every GNUstep application has
    a menu window or a main window, the candidates are the list of the
    [app_candidate]s; there are as many as there are applications that
    are GNUstep or have a window; every such application has its
    candidate in the array: its menu window, or its main window when it
    has no menu window, for a GNUstep application, the window focused
    last, or its first window when none is recorded, for another one; and
    every candidate is such a window of an application. *)
Theorem application_candidates (wapp_list : list WAppWindows)
    (chain : list wptr) (include_unmapped : bool) :
  forallb gnustep_window wapp_list = true ->
  let wins := makeWindowListArray wapp_list chain include_unmapped false in
  wins = omap app_candidate wapp_list
  /\ length wins
     = length (List.filter
                 (fun a => app_is_gnustep a
                           || negb (CFArrayGetCount (app_windows a) =? 0))
                 wapp_list)
  /\ (forall a : WAppWindows,
        a ∈ wapp_list ->
        app_is_gnustep a = true \/ app_windows a <> [] ->
        exists w : wptr,
          w ∈ wins
          /\ if app_is_gnustep a
             then menu_win a = Some w
                  \/ (menu_win a = None /\ main_window_desc a = Some w)
             else last_focused a = Some w
                  \/ (last_focused a = None
                      /\ app_windows a !! 0%nat = Some w))
  /\ (forall w : wptr,
        w ∈ wins ->
        exists a : WAppWindows,
          a ∈ wapp_list
          /\ if app_is_gnustep a
             then menu_win a = Some w
                  \/ (menu_win a = None /\ main_window_desc a = Some w)
             else last_focused a = Some w
                  \/ (last_focused a = None
                      /\ app_windows a !! 0%nat = Some w)).
Proof. trim.
  intros Hgnustep. unfold makeWindowListArray. simpl negb. cbv iota.
  rewrite app_windows_loop_omap. simpl.
  rewrite forallb_forall in Hgnustep.
  split; [reflexivity|]. split; [|split].
  - apply length_omap_filter. intros a Ha.
    apply app_candidate_some, Hgnustep, list_elem_of_In, Ha.
  - intros a Ha Hhas.
    assert (Hsome : is_Some (app_candidate a)).
    { apply app_candidate_some; [apply Hgnustep, list_elem_of_In, Ha|].
      destruct Hhas as [->|Hne]; [reflexivity|].
      apply orb_true_iff. right. apply negb_true_iff, Z.eqb_neq.
      unfold CFArrayGetCount. destruct (app_windows a); [contradiction|].
      simpl. lia. }
    destruct Hsome as [w Hw]. exists w.
    split; [|exact (app_candidate_fields a w Hw)].
    apply list_elem_of_omap. exists a. split; assumption.
  - intros w Hw. apply list_elem_of_omap in Hw as (a & Ha & Hcand).
    exists a. split; [exact Ha|exact (app_candidate_fields a w Hcand)].
Qed.

(** ** Hovering over a tile *)

Lemma first_xid_from_spec (icons : list Z) (i window : Z) :
  (first_xid_from icons i window = -1 /\ window ∉ icons)
  \/ (i <= first_xid_from icons i window < i + Z.of_nat (length icons)
      /\ icons !! Z.to_nat (first_xid_from icons i window - i) = Some window).
Proof. trim.
  revert i. induction icons as [|xid rest IH]; intros i; simpl.
  - left. split; [reflexivity|]. apply not_elem_of_nil.
  - destruct (Z.eqb_spec xid window) as [->|Hne].
    + right. split; [lia|]. rewrite Z.sub_diag. reflexivity.
    + destruct (IH (i + 1)) as [[Hr Hout]|[Hr Hl]].
      * left. split; [exact Hr|].
        rewrite not_elem_of_cons. split; [congruence|exact Hout].
      * right. split; [lia|].
        replace (Z.to_nat (first_xid_from rest (i + 1) window - i))
          with (S (Z.to_nat (first_xid_from rest (i + 1) window - (i + 1))))
          by lia.
        exact Hl.
Qed.

(** X9.  Hovering selects the tile under the pointer.  On a panel with
    one tile for each candidate, all of which have a frame,
    [wSwitchPanelHandleEvent] keeps the candidates; when it returns a
    window, the event is a pointer motion over a tile other than the
    current one, that tile is now the selection, and the window returned
    is its candidate; in every other case it returns NULL and nothing
    changes. *)
Theorem wSwitchPanelHandleEvent_spec (panel : WSwitchPanel) (icons : list Z)
    (event : XEvent) :
  length icons = length (windows panel) ->
  framed panel = true ->
  exists (panel' : WSwitchPanel) (r : option wptr),
    wSwitchPanelHandleEvent panel icons event = Some (panel', r)
    /\ windows panel' = windows panel
    /\ match r with
       | Some w =>
           exists window : Z,
             event = MotionNotify window
             /\ win panel = true
             /\ current panel' <> current panel
             /\ live panel'
             /\ CFArrayGetValueAtIndex icons (current panel') = Some window
             /\ CFArrayGetValueAtIndex (windows panel) (current panel')
                = Some w
       | None =>
           panel' = panel
           /\ forall window : Z,
                event = MotionNotify window -> win panel = true ->
                window ∈ icons ->
                CFArrayGetValueAtIndex icons (current panel) = Some window
       end.
Proof. trim.
  intros Hlen Hframed. unfold wSwitchPanelHandleEvent.
  destruct (win panel) eqn:Hwin; simpl negb; cbv iota.
  2: { exists panel, None. repeat split; try reflexivity.
       intros window _ Hw. discriminate. }
  destruct event as [window|].
  2: { simpl. exists panel, None. repeat split; try reflexivity.
       intros window Hw. discriminate. }
  destruct (first_xid_from_spec icons 0 window) as [[Hr Hout]|[Hr Hl]].
  - rewrite Hr. simpl. exists panel, None. repeat split; try reflexivity.
    intros window' [= <-] _ Hin. contradiction.
  - set (focus := first_xid_from icons 0 window) in *.
    rewrite Z.sub_0_r in Hl.
    destruct (Z.geb_spec focus 0) as [_|?]; [|lia]. simpl andb.
    destruct (Z.eqb_spec (current panel) focus) as [Hcur|Hcur]; simpl negb;
      cbv iota.
    + exists panel, None. repeat split; try reflexivity.
      intros window' [= <-] _ _. rewrite Hcur.
      unfold CFArrayGetValueAtIndex.
      destruct (Z.ltb_spec focus 0); [lia|exact Hl].
    + destruct (select_one_repaint_frame
                  (Z.to_nat (CFArrayGetCount (windows panel))) 0 focus panel)
        as (Hw1 & _).
      set (p1 := select_one_repaint _ 0 focus panel) in *.
      assert (Hrange : 0 <= focus < CFArrayGetCount (windows panel)).
      { unfold CFArrayGetCount. rewrite <- Hlen. lia. }
      destruct (CFArrayGetValueAtIndex_in_range (windows panel) focus Hrange)
        as [w Hw].
      assert (Hframe : is_Some (frame (deref w))).
      { unfold framed in Hframed. rewrite forallb_forall in Hframed.
        eapply bool_decide_eq_true_1, Hframed, list_elem_of_In.
        unfold CFArrayGetValueAtIndex in Hw.
        destruct (focus <? 0); [discriminate|].
        eapply list_elem_of_lookup_2, Hw. }
      destruct Hframe as [fr Hfr].
      simpl windows. rewrite Hw1, Hw. simpl. rewrite Hfr. simpl.
      exists (set_current focus p1), (Some w).
      split; [reflexivity|]. split; [exact Hw1|].
      exists window. simpl. split; [reflexivity|]. split; [reflexivity|].
      split; [congruence|]. split; [unfold live; simpl; rewrite Hw1; lia|].
      split; [|exact Hw].
      unfold CFArrayGetValueAtIndex.
      destruct (Z.ltb_spec focus 0); [lia|exact Hl].
Qed.

(** * Facts about the workspace engine *)

(** ** Deleting a workspace *)



(** ** Renaming a workspace *)

Lemma substring_length (n : nat) (s : string) :
  String.length (String.substring 0 n s) = Nat.min n (String.length s).
Proof. trim.
  revert n. induction s as [|c s IH]; intros [|n]; simpl; try reflexivity.
  rewrite IH. reflexivity.
Qed.

Lemma skip_spaces_all (s : string) :
  all_spaces s = true -> skip_spaces s = EmptyString.
Proof. trim.
  induction s as [|c s IH]; simpl; [reflexivity|].
  destruct (Ascii.is_space c); simpl; [exact IH|discriminate].
Qed.

Lemma wtrimspace_all_spaces (s : string) :
  all_spaces s = true -> wtrimspace s = EmptyString.
Proof. trim.
  intros H. unfold wtrimspace. rewrite (skip_spaces_all s H). reflexivity.
Qed.

Lemma update_workspace_lookup (scr : WScreen) (i : Z)
    (f : WWorkspace -> WWorkspace) :
  workspace_at (update_workspace i f scr) i = f <$> workspace_at scr i.
Proof. trim.
  unfold workspace_at, update_workspace.
  destruct (i <? 0); [reflexivity|]. simpl.
  apply list_lookup_alter_eq.
Qed.

(** An assignment inside one workspace leaves the rest of the screen
    alone. *)
Lemma update_workspace_frame (scr : WScreen) (i : Z)
    (f : WWorkspace -> WWorkspace) :
  current_workspace (update_workspace i f scr) = current_workspace scr
  /\ last_workspace (update_workspace i f scr) = last_workspace scr
  /\ focused_window (update_workspace i f scr) = focused_window scr
  /\ wapps (update_workspace i f scr) = wapps scr
  /\ ignore_focus_events (update_workspace i f scr) = ignore_focus_events scr
  /\ calls (update_workspace i f scr) = calls scr
  /\ workspace_count (update_workspace i f scr) = workspace_count scr.
Proof. trim.
  unfold update_workspace, workspace_count.
  destruct (i <? 0); simpl; rewrite ?length_alter; repeat split; reflexivity.
Qed.

Lemma substring_idem (n : nat) (s : string) :
  String.substring 0 n (String.substring 0 n s) = String.substring 0 n s.
Proof. trim.
  revert n. induction s as [|c s IH]; intros [|n]; simpl; try reflexivity.
  rewrite IH. reflexivity.
Qed.

Lemma length_zero_empty (s : string) :
  (String.length s =? 0)%nat = true <-> s = EmptyString.
Proof. trim.
  destruct s; simpl; split; intros H; try reflexivity; discriminate.
Qed.

(** C3 (as amended).  For an index below [workspace_count],
    [wWorkspaceRename] stores the computed name and posts the name-change
    notification, in every case.  The computed name is never longer than
    [MAX_WORKSPACENAME_WIDTH]; it is the trimmed name cut to that length
    when the trimmed name is not empty, and the generated
    ["Workspace <index+1>"] cut to that length (so not the empty string,
    the maximum being positive) when the raw name is all whitespace. *)
Theorem wWorkspaceRename_stores_and_notifies (scr : WScreen) (workspace : Z)
    (raw : string) :
  0 <= workspace < workspace_count scr ->
  name <$> workspace_at (wWorkspaceRename scr workspace raw) workspace
  = Some (rename_buf workspace raw)
  /\ calls (wWorkspaceRename scr workspace raw)
     = calls scr
       ++ [PostNotification WMDidChangeWorkspaceNameNotification workspace]
  /\ (String.length (rename_buf workspace raw) <= MAX_WORKSPACENAME_WIDTH)%nat
  /\ (wtrimspace raw <> EmptyString ->
      rename_buf workspace raw
      = String.substring 0 MAX_WORKSPACENAME_WIDTH (wtrimspace raw))
  /\ (all_spaces raw = true ->
      rename_buf workspace raw
      = String.substring 0 MAX_WORKSPACENAME_WIDTH
                         ("Workspace " +:+ pretty (workspace + 1))
      /\ ((0 < MAX_WORKSPACENAME_WIDTH)%nat ->
          rename_buf workspace raw <> EmptyString)).
Proof. trim.
  intros Hrange. unfold wWorkspaceRename.
  destruct (Z.geb_spec workspace (workspace_count scr)) as [?|_]; [lia|].
  split; [|split; [|split; [|split]]].
  2: { unfold _postNotification. simpl.
       destruct (update_workspace_frame scr workspace
                   (set_name (rename_buf workspace raw)))
         as (_ & _ & _ & _ & _ & -> & _).
       reflexivity. }
  - change (workspace_at (_postNotification ?n ?w ?s) workspace)
      with (workspace_at s workspace).
    rewrite update_workspace_lookup.
    unfold workspace_at, workspace_count in *.
    destruct (Z.ltb_spec workspace 0); [lia|].
    destruct (lookup_lt_is_Some_2 (workspaces scr) (Z.to_nat workspace))
      as [w Hw]; [lia|].
    rewrite Hw. reflexivity.
  - unfold rename_buf. rewrite substring_length. apply Nat.le_min_l.
  - intros Hne. unfold rename_buf.
    destruct (String.length (wtrimspace raw) =? 0)%nat eqn:Hlen.
    + apply length_zero_empty in Hlen. contradiction.
    + apply substring_idem.
  - intros Hall. unfold rename_buf.
    rewrite (wtrimspace_all_spaces raw Hall). simpl Nat.eqb. cbv iota.
    unfold snprintf_workspace.
    replace (MAX_WORKSPACENAME_WIDTH + 1 - 1)%nat
      with MAX_WORKSPACENAME_WIDTH by lia.
    rewrite substring_idem. split; [reflexivity|].
    intros Hpos. destruct MAX_WORKSPACENAME_WIDTH as [|n]; [lia|].
    unfold String.app. simpl. discriminate.
Qed.

(** ** Workspace transitions *)

Lemma keeps_workspaces_refl (s : WScreen) : keeps_workspaces s s.
Proof. trim. unfold keeps_workspaces. auto. Qed.

Lemma keeps_workspaces_trans (s1 s2 s3 : WScreen) :
  keeps_workspaces s1 s2 -> keeps_workspaces s2 s3 -> keeps_workspaces s1 s3.
Proof. trim.
  unfold keeps_workspaces.
  intros (H1 & H2 & H3 & H4) (H5 & H6 & H7 & H8).
  repeat split; congruence.
Qed.

Lemma unmap_at_keeps (i : nat) (s : WScreen) :
  keeps_workspaces s (unmap_at i s).
Proof. trim.
  unfold unmap_at. destruct (focused_window s !! i);
    [unfold keeps_workspaces; simpl; auto|apply keeps_workspaces_refl].
Qed.

Lemma map_at_keeps (i : nat) (s : WScreen) : keeps_workspaces s (map_at i s).
Proof. trim.
  unfold map_at. destruct (focused_window s !! i);
    [unfold keeps_workspaces; simpl; auto|apply keeps_workspaces_refl].
Qed.

Lemma apply_queue_keeps (f : nat -> WScreen -> WScreen) (queue : list nat)
    (s : WScreen) :
  (forall i s', keeps_workspaces s' (f i s')) ->
  keeps_workspaces s (apply_queue f queue s).
Proof. trim.
  intros Hf. unfold apply_queue. revert s.
  induction (rev queue) as [|i q IH]; intros s; simpl.
  - apply keeps_workspaces_refl.
  - eapply keeps_workspaces_trans; [apply Hf|apply IH].
Qed.

Lemma force_change_remap_keeps (scr : WScreen) (workspace : Z) :
  keeps_workspaces scr (fst (force_change_remap scr workspace)).
Proof. trim.
  unfold force_change_remap. simpl.
  eapply keeps_workspaces_trans; [|apply apply_queue_keeps, map_at_keeps].
  eapply keeps_workspaces_trans; [|apply apply_queue_keeps, unmap_at_keeps].
  unfold keeps_workspaces. simpl. auto.
Qed.

Lemma wWorkspaceNew_frame (scr : WScreen) :
  current_workspace (fst (wWorkspaceNew scr)) = current_workspace scr
  /\ last_workspace (fst (wWorkspaceNew scr)) = last_workspace scr
  /\ focused_window (fst (wWorkspaceNew scr)) = focused_window scr
  /\ wapps (fst (wWorkspaceNew scr)) = wapps scr
  /\ ignore_focus_events (fst (wWorkspaceNew scr)) = ignore_focus_events scr.
Proof. trim.
  unfold wWorkspaceNew.
  destruct (workspace_count scr <? MAX_WORKSPACES); simpl; auto.
Qed.

Lemma make_loop_frame (count : nat) (scr : WScreen) :
  current_workspace (make_loop count scr) = current_workspace scr
  /\ last_workspace (make_loop count scr) = last_workspace scr
  /\ focused_window (make_loop count scr) = focused_window scr
  /\ wapps (make_loop count scr) = wapps scr
  /\ ignore_focus_events (make_loop count scr) = ignore_focus_events scr.
Proof. trim.
  revert scr. induction count as [|count IH]; intros scr; simpl; [auto|].
  destruct (IH (fst (wWorkspaceNew scr))) as (-> & -> & -> & -> & ->).
  apply wWorkspaceNew_frame.
Qed.

Lemma wWorkspaceSaveFocusedWindow_frame (scr : WScreen) (workspace : Z)
    (wwin : option WWindow) :
  let scr' := wWorkspaceSaveFocusedWindow scr workspace wwin in
  current_workspace scr' = current_workspace scr
  /\ last_workspace scr' = last_workspace scr
  /\ focused_window scr' = focused_window scr
  /\ wapps scr' = wapps scr
  /\ ignore_focus_events scr' = ignore_focus_events scr.
Proof. trim.
  unfold wWorkspaceSaveFocusedWindow.
  destruct wwin as [w|]; simpl;
    match goal with |- context [update_workspace ?i ?f ?s] =>
      destruct (update_workspace_frame s i f) as (-> & -> & -> & -> & -> & _)
    end; auto.
Qed.

(** Lines 597-614 record the workspace being left in [last_workspace],
    make the target current and leave the window list alone. *)
Lemma force_change_begin_frame (scr : WScreen) (workspace : Z) :
  current_workspace (force_change_begin scr workspace) = workspace
  /\ last_workspace (force_change_begin scr workspace) = current_workspace scr
  /\ focused_window (force_change_begin scr workspace) = focused_window scr
  /\ wapps (force_change_begin scr workspace) = wapps scr
  /\ ignore_focus_events (force_change_begin scr workspace)
     = ignore_focus_events scr.
Proof. trim.
  unfold force_change_begin.
  match goal with |- context [if ?c then wWorkspaceMake scr ?n else scr] =>
    set (s1 := if c then wWorkspaceMake scr n else scr);
    assert (H1 : current_workspace s1 = current_workspace scr
                 /\ last_workspace s1 = last_workspace scr
                 /\ focused_window s1 = focused_window scr
                 /\ wapps s1 = wapps scr
                 /\ ignore_focus_events s1 = ignore_focus_events scr)
  end.
  { subst s1. destruct (_ >? _); [apply make_loop_frame|auto]. }
  destruct H1 as (Hc & Hl & Hf & Ha & Hi).
  match goal with |- context [set_last_workspace _ ?s] =>
    set (s2 := s);
    assert (H2 : current_workspace s2 = current_workspace s1
                 /\ last_workspace s2 = last_workspace s1
                 /\ focused_window s2 = focused_window s1
                 /\ wapps s2 = wapps s1
                 /\ ignore_focus_events s2 = ignore_focus_events s1)
  end.
  { subst s2.
    pose proof (wWorkspaceSaveFocusedWindow_frame s1 (current_workspace s1))
      as Hsave. simpl in Hsave.
    destruct (focused_window s1) as [|w l]; [apply Hsave|].
    destruct (on_workspace w (current_workspace s1)); apply Hsave. }
  destruct H2 as (Hc2 & Hl2 & Hf2 & Ha2 & Hi2).
  simpl. repeat split; congruence.
Qed.

(** The shape of a transition that goes ahead, on a screen that manages
    at least one window. *)
Lemma wWorkspaceForceChange_unfold (scr : WScreen) (workspace : Z)
    (focus_win : option WWindow) :
  0 <= workspace < MAX_WORKSPACES ->
  workspace <> current_workspace scr ->
  focused_window scr <> [] ->
  wWorkspaceForceChange scr workspace focus_win
  = let remapped :=
      force_change_remap (force_change_begin scr workspace) workspace in
    let flushed := flush_events (fst remapped) in
    force_change_end
      (wSetFocusTo flushed
                   (new_focus flushed workspace focus_win (snd remapped)))
      workspace.
Proof. trim.
  intros Hrange Hne Hwin. unfold wWorkspaceForceChange.
  destruct (Z.geb_spec workspace MAX_WORKSPACES); [lia|].
  destruct (Z.ltb_spec workspace 0); [lia|].
  destruct (Z.eqb_spec workspace (current_workspace scr)); [contradiction|].
  simpl orb. cbv iota.
  destruct (force_change_begin_frame scr workspace) as (_ & _ & Hf & _).
  destruct (focused_window (force_change_begin scr workspace)) as [|w l] eqn:Hl;
    [congruence|].
  destruct (force_change_remap (force_change_begin scr workspace) workspace)
    as [s0 foc0]. reflexivity.
Qed.

(** C10.  A transition to a valid target other than the current workspace
    first records the workspace being left in [last_workspace] and ends
    with [last_workspace] overwritten by the target; the target is also
    the current workspace at the end (the handlers run by the event flush
    not changing it), so the two fields are equal. *)
Theorem force_change_last_workspace (scr : WScreen) (workspace : Z)
    (focus_win : option WWindow) :
  0 <= workspace < MAX_WORKSPACES ->
  workspace <> current_workspace scr ->
  last_workspace (force_change_begin scr workspace) = current_workspace scr
  /\ last_workspace (wWorkspaceForceChange scr workspace focus_win) = workspace
  /\ ((forall s, current_workspace (ProcessPendingEvents s)
                 = current_workspace s) ->
      current_workspace (wWorkspaceForceChange scr workspace focus_win)
      = workspace
      /\ last_workspace (wWorkspaceForceChange scr workspace focus_win)
         = current_workspace (wWorkspaceForceChange scr workspace focus_win)).
Proof. trim.
  intros Hrange Hne.
  destruct (force_change_begin_frame scr workspace) as (Hcur & Hlast & _).
  split; [exact Hlast|].
  assert (Hend : forall s, last_workspace (force_change_end s workspace)
                           = workspace).
  { intros s. unfold force_change_end.
    destruct (negb (sticky_icons wPreferences)); reflexivity. }
  assert (Hendc : forall s, current_workspace (force_change_end s workspace)
                            = current_workspace s).
  { intros s. unfold force_change_end.
    destruct (negb (sticky_icons wPreferences)); reflexivity. }
  assert (Hshape : exists s,
             wWorkspaceForceChange scr workspace focus_win
             = force_change_end s workspace
             /\ ((forall s', current_workspace (ProcessPendingEvents s')
                             = current_workspace s') ->
                 current_workspace s = workspace)).
  { unfold wWorkspaceForceChange.
    destruct (Z.geb_spec workspace MAX_WORKSPACES); [lia|].
    destruct (Z.ltb_spec workspace 0); [lia|].
    destruct (Z.eqb_spec workspace (current_workspace scr)); [contradiction|].
    simpl orb. cbv iota.
    destruct (focused_window (force_change_begin scr workspace)) as [|w l].
    - eexists. split; [reflexivity|]. intros _. exact Hcur.
    - pose proof (force_change_remap_keeps
                    (force_change_begin scr workspace) workspace) as Hk.
      destruct (force_change_remap (force_change_begin scr workspace)
                                   workspace) as [s0 foc0].
      eexists. split; [reflexivity|]. intros Hpe.
      destruct Hk as (_ & Hk & _). simpl in Hk.
      unfold wSetFocusTo, flush_events. simpl. rewrite Hpe. simpl.
      congruence. }
  destruct Hshape as (s & -> & Hs).
  split; [apply Hend|]. intros Hpe.
  rewrite Hend, Hendc. split; [|symmetry]; apply Hs, Hpe.
Qed.

(** ** The traversal of the window list *)

Lemma elem_of_queue_from (p : WWindow -> bool) (rest : list WWindow)
    (i j : nat) :
  j ∈ queue_from p i rest ->
  exists (k : nat) (w : WWindow),
    j = (i + k)%nat /\ rest !! k = Some w /\ p w = true.
Proof. trim.
  revert i. induction rest as [|w rest IH]; intros i; simpl.
  - intros H. inversion H.
  - intros H. apply elem_of_app in H as [H|H].
    + destruct (p w) eqn:Hp; [|inversion H].
      apply list_elem_of_singleton in H as ->.
      exists 0%nat, w. split; [lia|]. auto.
    + destruct (IH _ H) as (k & w' & -> & Hk & Hp).
      exists (S k), w'. split; [lia|]. auto.
Qed.

Lemma partition_step_shape (workspace : Z) (i : nat) (tmp : WWindow)
    (acc : Partition) :
  visited (partition_step workspace i tmp acc)
  = visited acc ++ [window_after workspace tmp]
  /\ toUnmap (partition_step workspace i tmp acc)
     = toUnmap acc ++ (if queued_unmap workspace tmp then [i] else [])
  /\ toMap (partition_step workspace i tmp acc)
     = toMap acc ++ (if queued_map workspace tmp then [i] else [])
  /\ foc (partition_step workspace i tmp acc)
     = match foc acc with
       | Some f => Some f
       | None =>
           if selected tmp
              && negb (miniaturized (wWindowChangeWorkspace tmp workspace))
           then Some (wWindowChangeWorkspace tmp workspace)
           else None
       end.
Proof. trim.
  unfold window_after, queued_unmap, queued_map, partition_step.
  destruct (on_workspace tmp workspace), (selected tmp); simpl.
  - destruct (foc acc) as [f|]; simpl;
      rewrite ?andb_false_r, ?app_nil_r; simpl;
      [auto|destruct (miniaturized _); simpl; auto].
  - destruct (hidden tmp); simpl; rewrite ?app_nil_r.
    + destruct (foc acc); auto.
    + destruct (mapped tmp || miniaturized tmp); simpl; rewrite ?app_nil_r;
        destruct (foc acc); auto.
  - destruct (foc acc) as [f|]; simpl;
      rewrite ?andb_false_r, ?app_nil_r; simpl;
      [auto|destruct (miniaturized _); simpl; auto].
  - destruct (IS_OMNIPRESENT tmp); simpl; rewrite ?app_nil_r.
    + destruct (apps acc !! main_window tmp);
        [destruct (negb (window_level tmp =? NSMainMenuWindowLevel))|];
        simpl; destruct (foc acc); auto.
    + destruct ((mapped tmp || shaded tmp) && negb (changing_workspace tmp));
        simpl; rewrite ?app_nil_r; destruct (foc acc); auto.
Qed.

Lemma partition_loop_shape (workspace : Z) (rest : list WWindow) (i : nat)
    (acc : Partition) :
  visited (partition_loop workspace i rest acc)
  = visited acc ++ (window_after workspace <$> rest)
  /\ toUnmap (partition_loop workspace i rest acc)
     = toUnmap acc ++ queue_from (queued_unmap workspace) i rest
  /\ toMap (partition_loop workspace i rest acc)
     = toMap acc ++ queue_from (queued_map workspace) i rest
  /\ foc (partition_loop workspace i rest acc)
     = match foc acc with
       | Some f => Some f
       | None =>
           find (fun w => negb (miniaturized w))
                ((fun w => wWindowChangeWorkspace w workspace)
                   <$> List.filter selected rest)
       end.
Proof. trim.
  revert i acc. induction rest as [|tmp rest IH]; intros i acc; simpl.
  - rewrite !app_nil_r. destruct (foc acc); auto.
  - destruct (IH (S i) (partition_step workspace i tmp acc))
      as (-> & -> & -> & ->).
    destruct (partition_step_shape workspace i tmp acc)
      as (-> & -> & -> & ->).
    rewrite <- !app_assoc. simpl. repeat split; try reflexivity.
    destruct (foc acc) as [f|]; [reflexivity|].
    destruct (selected tmp); simpl; [|reflexivity].
    destruct (miniaturized (wWindowChangeWorkspace tmp workspace));
      reflexivity.
Qed.





(** Emptying a queue touches only the windows it names. *)
Lemma apply_queue_preserves {A : Type} (g : WScreen -> A)
    (f : nat -> WScreen -> WScreen) (queue : list nat) (s : WScreen) :
  (forall i s', g (f i s') = g s') -> g (apply_queue f queue s) = g s.
Proof. trim.
  intros Hf. unfold apply_queue. revert s.
  induction (rev queue) as [|i q IH]; intros s; simpl; [reflexivity|].
  rewrite IH. apply Hf.
Qed.

Lemma apply_queue_lookup_other (f : nat -> WScreen -> WScreen)
    (queue : list nat) (s : WScreen) (j : nat) :
  (forall i s', i <> j ->
                focused_window (f i s') !! j = focused_window s' !! j) ->
  j ∉ queue ->
  focused_window (apply_queue f queue s) !! j = focused_window s !! j.
Proof. trim.
  intros Hf Hj. unfold apply_queue.
  assert (Hrev : j ∉ rev queue)
    by (rewrite list_elem_of_In, <- in_rev, <- list_elem_of_In; exact Hj).
  revert s. induction (rev queue) as [|i q IH]; intros s; simpl;
    [reflexivity|].
  apply not_elem_of_cons in Hrev as [Hne Hq].
  rewrite (IH Hq). apply Hf. congruence.
Qed.

Lemma unmap_at_lookup_other (i : nat) (s : WScreen) (j : nat) :
  i <> j -> focused_window (unmap_at i s) !! j = focused_window s !! j.
Proof. trim.
  intros Hne. unfold unmap_at.
  destruct (focused_window s !! i); [|reflexivity].
  simpl. apply list_lookup_alter_ne. exact Hne.
Qed.

Lemma map_at_lookup_other (i : nat) (s : WScreen) (j : nat) :
  i <> j -> focused_window (map_at i s) !! j = focused_window s !! j.
Proof. trim.
  intros Hne. unfold map_at.
  destruct (focused_window s !! i); [|reflexivity].
  simpl. apply list_lookup_alter_ne. exact Hne.
Qed.


(** The focus candidate left by the traversal. *)
Lemma force_change_remap_foc (s : WScreen) (workspace : Z) :
  snd (force_change_remap s workspace)
  = find (fun w => negb (miniaturized w))
         ((fun w => wWindowChangeWorkspace w workspace)
            <$> List.filter selected (focused_window s)).
Proof. trim.
  unfold force_change_remap. cbn [snd].
  pose proof (partition_loop_shape workspace (focused_window s) 0
                (mkPartition [] [] [] None (wapps s))) as (_ & _ & _ & Hf).
  rewrite Hf. reflexivity.
Qed.

(** C6.  In a transition that goes ahead on a screen managing at least
    one window, the window handed to [wSetFocusTo] after the event flush
    is resolved from, in this order: the focus window given by the
    caller; else the focus candidate of the traversal, which is the first
    window of the list that was selected and is not miniaturized once
    moved to the target; else the saved focused window of the target
    workspace.  The candidate is looked
    up again in the window list as it stands after the flush, by its
    [client_win]; when no window of the list has that id, or the one found
    is hidden, [wSetFocusTo] is given no window. *)
Theorem new_focus_resolution (scr : WScreen) (workspace : Z)
    (focus_win : option WWindow) :
  0 <= workspace < MAX_WORKSPACES ->
  workspace <> current_workspace scr ->
  focused_window scr <> [] ->
  let remapped :=
    force_change_remap (force_change_begin scr workspace) workspace in
  let flushed := flush_events (fst remapped) in
  let moved :=
    find (fun w => negb (miniaturized w))
         ((fun w => wWindowChangeWorkspace w workspace)
            <$> List.filter selected (focused_window scr)) in
  let candidate :=
    match focus_win, moved with
    | Some f, _ => Some f
    | None, Some m => Some m
    | None, None => workspace_at flushed workspace ≫= ws_focused_window
    end in
  let found :=
    candidate
      ≫= (fun c => find (fun parse => client_win parse =? client_win c)
                        (focused_window flushed)) in
  let chosen := found ≫= (fun p => if hidden p then None else Some p) in
  wWorkspaceForceChange scr workspace focus_win
  = force_change_end (wSetFocusTo flushed chosen) workspace
  /\ SetFocusTo (client_win <$> chosen)
     ∈ calls (wWorkspaceForceChange scr workspace focus_win).
Proof. trim.
  intros Hrange Hne Hwin. cbv zeta.
  rewrite (wWorkspaceForceChange_unfold scr workspace focus_win Hrange Hne
             Hwin).
  cbv zeta.
  destruct (force_change_begin_frame scr workspace) as (_ & _ & Hlist & _).
  rewrite force_change_remap_foc, Hlist.
  set (flushed := flush_events
                    (fst (force_change_remap
                            (force_change_begin scr workspace) workspace))).
  set (moved := find _ _).
  assert (Hnew : new_focus flushed workspace focus_win moved
                 = ((match focus_win, moved with
                     | Some f, _ => Some f
                     | None, Some m => Some m
                     | None, None =>
                         workspace_at flushed workspace ≫= ws_focused_window
                     end)
                    ≫= (fun c => find (fun parse => client_win parse
                                                    =? client_win c)
                                      (focused_window flushed)))
                   ≫= (fun p => if hidden p then None else Some p)).
  { unfold new_focus.
    destruct focus_win as [f|]; simpl; [reflexivity|].
    destruct moved as [m|]; simpl; [reflexivity|].
    destruct (workspace_at flushed workspace ≫= ws_focused_window);
      reflexivity. }
  rewrite Hnew. split; [reflexivity|].
  unfold force_change_end, wSetFocusTo, _postNotification.
  destruct (negb (sticky_icons wPreferences)); simpl;
    rewrite !elem_of_app, !list_elem_of_singleton; tauto.
Qed.

(** ** Creating workspaces *)

Lemma wWorkspaceNew_unfold (scr : WScreen) :
  wWorkspaceNew scr
  = if workspace_count scr <? MAX_WORKSPACES then
      (call (PostNotification WMDidCreateWorkspaceNotification
                              (workspace_count scr))
            (set_workspaces
               (workspaces scr
                ++ [mkWorkspace
                      (snprintf_workspace 20 (workspace_count scr + 1))
                      (negb (noclip wPreferences)) None])
               scr),
       workspace_count scr)
    else (scr, -1).
Proof. trim.
  unfold wWorkspaceNew.
  destruct (workspace_count scr <? MAX_WORKSPACES); [|reflexivity].
  unfold _postNotification, workspace_count. simpl workspaces.
  rewrite length_app. simpl length.
  replace (Z.of_nat (length (workspaces scr) + 1) - 1)
    with (Z.of_nat (length (workspaces scr))) by lia.
  reflexivity.
Qed.

Lemma workspace_count_nonneg (scr : WScreen) : 0 <= workspace_count scr.
Proof. trim. unfold workspace_count. lia. Qed.

(** X10.  [wWorkspaceNew] below the limit appends one workspace and
    returns its index: the workspaces before it are untouched, the new
    one has no saved focus, and one creation notice naming the new index
    is posted; at the limit it returns -1 and changes nothing. *)
Theorem wWorkspaceNew_index (scr : WScreen) :
  (workspace_count scr < MAX_WORKSPACES ->
   exists wspace : WWorkspace,
     snd (wWorkspaceNew scr) = workspace_count scr
     /\ workspaces (fst (wWorkspaceNew scr)) = workspaces scr ++ [wspace]
     /\ workspace_at (fst (wWorkspaceNew scr)) (snd (wWorkspaceNew scr))
        = Some wspace
     /\ ws_focused_window wspace = None
     /\ clip wspace = negb (noclip wPreferences)
     /\ (forall i : Z,
           i < workspace_count scr ->
           workspace_at (fst (wWorkspaceNew scr)) i = workspace_at scr i)
     /\ calls (fst (wWorkspaceNew scr))
        = calls scr
          ++ [PostNotification WMDidCreateWorkspaceNotification
                               (workspace_count scr)])
  /\ (MAX_WORKSPACES <= workspace_count scr ->
      wWorkspaceNew scr = (scr, -1)).
Proof. trim.
  rewrite wWorkspaceNew_unfold. split; intros Hcount.
  - destruct (Z.ltb_spec (workspace_count scr) MAX_WORKSPACES); [|lia].
    eexists. simpl. split; [reflexivity|]. split; [reflexivity|].
    pose proof (workspace_count_nonneg scr) as Hpos.
    unfold workspace_at. simpl workspaces.
    destruct (Z.ltb_spec (workspace_count scr) 0); [lia|].
    split.
    { unfold workspace_count. rewrite Nat2Z.id.
      apply list_lookup_middle. reflexivity. }
    split; [reflexivity|]. split; [reflexivity|]. split; [|reflexivity].
    intros i Hi. destruct (i <? 0) eqn:Hneg; [reflexivity|].
    apply Z.ltb_ge in Hneg. apply lookup_app_l.
    unfold workspace_count in Hi. lia.
  - destruct (Z.ltb_spec (workspace_count scr) MAX_WORKSPACES); [lia|].
    reflexivity.
Qed.

Lemma make_loop_spec (n : nat) (scr : WScreen) :
  workspace_count scr <= MAX_WORKSPACES ->
  exists added : list WWorkspace,
    workspaces (make_loop n scr) = workspaces scr ++ added
    /\ Z.of_nat (length added)
       = Z.min (Z.of_nat n) (MAX_WORKSPACES - workspace_count scr)
    /\ calls (make_loop n scr)
       = calls scr
         ++ (PostNotification WMDidCreateWorkspaceNotification
               <$> seqZ (workspace_count scr)
                        (Z.min (Z.of_nat n)
                               (MAX_WORKSPACES - workspace_count scr))).
Proof. trim.
  revert scr. induction n as [|n IH]; intros scr Hcap.
  - exists []. simpl make_loop. rewrite app_nil_r.
    replace (Z.min (Z.of_nat 0) (MAX_WORKSPACES - workspace_count scr))
      with 0 by lia.
    simpl. rewrite app_nil_r. tauto.
  - simpl make_loop. rewrite wWorkspaceNew_unfold.
    destruct (Z.ltb_spec (workspace_count scr) MAX_WORKSPACES) as [Hlt|Hge].
    + simpl fst.
      match goal with |- context [make_loop n ?s1] =>
        destruct (IH s1) as (added & Hw & Hlen & Hcalls);
          [unfold workspace_count in *; simpl; rewrite length_app; simpl; lia|];
        assert (Hc1 : workspace_count s1 = workspace_count scr + 1)
          by (unfold workspace_count; simpl; rewrite length_app; simpl; lia)
      end.
      rewrite Hc1 in Hlen, Hcalls. simpl workspaces in Hw.
      simpl calls in Hcalls.
      eexists. rewrite Hw, <- app_assoc. split; [reflexivity|].
      split; [simpl length; lia|].
      rewrite Hcalls, <- app_assoc. f_equal.
      rewrite (seqZ_cons (workspace_count scr)
                 (Z.min (Z.of_nat (S n))
                        (MAX_WORKSPACES - workspace_count scr))) by lia.
      simpl. do 3 f_equal; lia.
    + simpl fst. destruct (IH scr Hcap) as (added & Hw & Hlen & Hcalls).
      exists added. split; [exact Hw|].
      replace (Z.min (Z.of_nat (S n)) (MAX_WORKSPACES - workspace_count scr))
        with (Z.min (Z.of_nat n) (MAX_WORKSPACES - workspace_count scr))
        by lia.
      tauto.
Qed.

(** X11.  [wWorkspaceMake] never takes the screen over the limit: asked
    for [count] workspaces on a screen within the limit, it appends as
    many as fit, keeps the existing ones in place, and posts one creation
    notice for each new index, in increasing order. *)
Theorem wWorkspaceMake_capped (scr : WScreen) (count : Z) :
  workspace_count scr <= MAX_WORKSPACES ->
  exists added : list WWorkspace,
    workspaces (wWorkspaceMake scr count) = workspaces scr ++ added
    /\ workspace_count (wWorkspaceMake scr count)
       = Z.min (workspace_count scr + Z.max 0 count) MAX_WORKSPACES
    /\ calls (wWorkspaceMake scr count)
       = calls scr
         ++ (PostNotification WMDidCreateWorkspaceNotification
               <$> seqZ (workspace_count scr)
                        (workspace_count (wWorkspaceMake scr count)
                         - workspace_count scr)).
Proof. trim.
  intros Hcap. unfold wWorkspaceMake.
  destruct (make_loop_spec (Z.to_nat count) scr Hcap)
    as (added & Hw & Hlen & Hcalls).
  assert (Hcount : workspace_count (make_loop (Z.to_nat count) scr)
                   = Z.min (workspace_count scr + Z.max 0 count)
                           MAX_WORKSPACES).
  { unfold workspace_count in *. rewrite Hw, length_app. lia. }
  exists added. split; [exact Hw|]. split; [exact Hcount|].
  rewrite Hcalls, Hcount.
  replace (Z.min (workspace_count scr + Z.max 0 count) MAX_WORKSPACES
           - workspace_count scr)
    with (Z.min (Z.of_nat (Z.to_nat count))
                (MAX_WORKSPACES - workspace_count scr)) by lia.
  reflexivity.
Qed.

(** ** Transitions and the workspace fields *)

Lemma force_change_remap_preserves {A : Type} (g : WScreen -> A)
    (s : WScreen) (workspace : Z) :
  (forall s' c, g (call c s') = g s') ->
  (forall s' l, g (set_focused_window l s') = g s') ->
  (forall s' m, g (set_wapps m s') = g s') ->
  g (fst (force_change_remap s workspace)) = g s.
Proof. trim.
  intros Hcall Hwin Happs. unfold force_change_remap. simpl fst.
  rewrite (apply_queue_preserves g map_at).
  2: { intros i s'. unfold map_at.
       destruct (focused_window s' !! i); [|reflexivity].
       rewrite Hcall, Hwin. reflexivity. }
  rewrite (apply_queue_preserves g unmap_at).
  2: { intros i s'. unfold unmap_at.
       destruct (focused_window s' !! i); [|reflexivity].
       rewrite Hcall, Hwin. reflexivity. }
  rewrite Happs, Hwin. reflexivity.
Qed.

(** A field that the steps of a transition after its beginning do not
    assign, and that the handlers run by the flush keep, has at the end
    the value it had after the beginning. *)
Lemma wWorkspaceForceChange_preserves {A : Type} (g : WScreen -> A)
    (scr : WScreen) (workspace : Z) (focus_win : option WWindow) :
  0 <= workspace < MAX_WORKSPACES ->
  workspace <> current_workspace scr ->
  (forall s' c, g (call c s') = g s') ->
  (forall s' l, g (set_focused_window l s') = g s') ->
  (forall s' m, g (set_wapps m s') = g s') ->
  (forall s' b, g (set_ignore_focus_events b s') = g s') ->
  (forall s' w, g (set_last_workspace w s') = g s') ->
  (forall s', g (ProcessPendingEvents s') = g s') ->
  g (wWorkspaceForceChange scr workspace focus_win)
  = g (force_change_begin scr workspace).
Proof. trim.
  intros Hrange Hne Hcall Hwin Happs Hflag Hlast Hpe.
  assert (Hend : forall s, g (force_change_end s workspace) = g s).
  { intros s. unfold force_change_end, _postNotification.
    rewrite Hcall, Hlast, Hcall.
    destruct (negb (sticky_icons wPreferences)); [apply Hcall|reflexivity]. }
  unfold wWorkspaceForceChange.
  destruct (Z.geb_spec workspace MAX_WORKSPACES); [lia|].
  destruct (Z.ltb_spec workspace 0); [lia|].
  destruct (Z.eqb_spec workspace (current_workspace scr)); [contradiction|].
  simpl orb. cbv iota. rewrite Hend.
  destruct (focused_window (force_change_begin scr workspace)) as [|w l];
    [reflexivity|].
  pose proof (force_change_remap_preserves
                g (force_change_begin scr workspace) workspace
                Hcall Hwin Happs) as Hk.
  destruct (force_change_remap (force_change_begin scr workspace) workspace)
    as [s0 foc0].
  simpl in Hk. unfold wSetFocusTo, flush_events.
  rewrite Hcall, Hflag, Hpe, Hflag. exact Hk.
Qed.

Lemma force_change_begin_count (scr : WScreen) (workspace : Z) :
  workspace_count scr <= MAX_WORKSPACES ->
  0 <= workspace < MAX_WORKSPACES ->
  workspace_count (force_change_begin scr workspace)
  = Z.max (workspace_count scr) (workspace + 1).
Proof. trim.
  intros Hcap Hrange. unfold force_change_begin.
  match goal with |- context [if ?c then wWorkspaceMake scr ?n else scr] =>
    set (s1 := if c then wWorkspaceMake scr n else scr);
    assert (H1 : workspace_count s1
                 = Z.max (workspace_count scr) (workspace + 1))
  end.
  { subst s1. destruct (Z.gtb_spec workspace (workspace_count scr - 1)).
    - unfold wWorkspaceMake.
      destruct (make_loop_spec
                  (Z.to_nat (workspace - workspace_count scr + 1)) scr Hcap)
        as (added & Hw & Hlen & _).
      unfold workspace_count in *. rewrite Hw, length_app. lia.
    - lia. }
  clearbody s1.
  match goal with |- context [set_last_workspace _ ?s] =>
    set (s2 := s); assert (H2 : workspace_count s2 = workspace_count s1)
  end.
  { subst s2. unfold wWorkspaceSaveFocusedWindow.
    destruct (focused_window s1) as [|w l]; [apply update_workspace_frame|].
    destruct (on_workspace w (current_workspace s1));
      apply update_workspace_frame. }
  clearbody s2. unfold workspace_count in *. simpl. congruence.
Qed.

Lemma wWorkspaceForceChange_current (scr : WScreen) (workspace : Z)
    (focus_win : option WWindow) :
  0 <= workspace < MAX_WORKSPACES ->
  workspace <> current_workspace scr ->
  (forall s, current_workspace (ProcessPendingEvents s)
             = current_workspace s) ->
  current_workspace (wWorkspaceForceChange scr workspace focus_win)
  = workspace.
Proof. trim.
  intros Hrange Hne Hpe.
  rewrite (wWorkspaceForceChange_preserves current_workspace)
    by (assumption || reflexivity).
  apply force_change_begin_frame.
Qed.

Lemma wWorkspaceForceChange_count (scr : WScreen) (workspace : Z)
    (focus_win : option WWindow) :
  workspace_count scr <= MAX_WORKSPACES ->
  0 <= workspace < MAX_WORKSPACES ->
  workspace <> current_workspace scr ->
  (forall s, workspace_count (ProcessPendingEvents s) = workspace_count s) ->
  workspace_count (wWorkspaceForceChange scr workspace focus_win)
  = Z.max (workspace_count scr) (workspace + 1).
Proof. trim.
  intros Hcap Hrange Hne Hpe.
  rewrite (wWorkspaceForceChange_preserves workspace_count)
    by (assumption || reflexivity).
  apply force_change_begin_count; assumption.
Qed.

(** X12.  A transition to an index beyond the last workspace creates
    exactly the workspaces that are missing.  On a screen within the
    limit, after [wWorkspaceForceChange] to a valid target other than
    the current workspace, the handlers run by the flush keeping the
    number of workspaces, the screen holds the larger of its former
    number of workspaces and the target plus one, so the target names a
    workspace and the limit still holds. *)
Theorem transition_creates_missing_workspaces (scr : WScreen)
    (workspace : Z) (focus_win : option WWindow) :
  workspace_count scr <= MAX_WORKSPACES ->
  0 <= workspace < MAX_WORKSPACES ->
  workspace <> current_workspace scr ->
  (forall s, workspace_count (ProcessPendingEvents s) = workspace_count s) ->
  let scr' := wWorkspaceForceChange scr workspace focus_win in
  workspace_count scr' = Z.max (workspace_count scr) (workspace + 1)
  /\ workspace_count scr' <= MAX_WORKSPACES
  /\ is_Some (workspace_at scr' workspace).
Proof. trim.
  intros Hcap Hrange Hne Hpe scr'.
  pose proof (wWorkspaceForceChange_count scr workspace focus_win Hcap Hrange
                Hne Hpe) as Hcount.
  fold scr' in Hcount. split; [exact Hcount|]. split; [lia|].
  unfold workspace_at. destruct (Z.ltb_spec workspace 0); [lia|].
  apply lookup_lt_is_Some. unfold workspace_count in Hcount. lia.
Qed.

(** X13.  Asking twice for the same workspace is the same as asking
    once: after [wWorkspaceChange], a second request for the same target
    changes nothing (the handlers run by the flush keeping the current
    workspace). *)
Theorem wWorkspaceChange_idempotent (scr : WScreen) (workspace : Z)
    (focus_win focus_win' : option WWindow) :
  (forall s, current_workspace (ProcessPendingEvents s)
             = current_workspace s) ->
  wWorkspaceChange (wWorkspaceChange scr workspace focus_win) workspace
                   focus_win'
  = wWorkspaceChange scr workspace focus_win.
Proof. trim.
  intros Hpe.
  destruct (startup scr || startup2 scr || ignore_focus_events scr) eqn:Hg.
  { unfold wWorkspaceChange. rewrite Hg, Hg. reflexivity. }
  destruct (Z.eqb_spec workspace (current_workspace scr)) as [Heq|Hne].
  { unfold wWorkspaceChange. rewrite Hg.
    destruct (Z.eqb_spec workspace (current_workspace scr)); [|contradiction].
    simpl. rewrite Hg.
    destruct (Z.eqb_spec workspace (current_workspace scr)); [|contradiction].
    reflexivity. }
  assert (Hfirst : wWorkspaceChange scr workspace focus_win
                   = wWorkspaceForceChange scr workspace focus_win).
  { unfold wWorkspaceChange. rewrite Hg.
    destruct (Z.eqb_spec workspace (current_workspace scr)); [contradiction|].
    reflexivity. }
  rewrite Hfirst.
  destruct (Z_lt_le_dec workspace 0) as [Hneg|Hpos];
    [|destruct (Z_lt_le_dec workspace MAX_WORKSPACES) as [Hlt|Hbig]].
  - assert (Hnop : forall f, wWorkspaceForceChange scr workspace f = scr).
    { intros f. unfold wWorkspaceForceChange.
      destruct (Z.ltb_spec workspace 0); [|lia].
      rewrite orb_true_r. reflexivity. }
    rewrite Hnop. unfold wWorkspaceChange. rewrite Hg.
    destruct (Z.eqb_spec workspace (current_workspace scr)); [contradiction|].
    apply Hnop.
  - pose proof (wWorkspaceForceChange_current scr workspace focus_win
                  ltac:(lia) Hne Hpe) as Hcur.
    unfold wWorkspaceChange at 1. rewrite Hcur, Z.eqb_refl. simpl.
    match goal with |- (if ?c then _ else _) = _ => destruct c end;
      reflexivity.
  - assert (Hnop : forall f, wWorkspaceForceChange scr workspace f = scr).
    { intros f. unfold wWorkspaceForceChange.
      destruct (Z.geb_spec workspace MAX_WORKSPACES); [|lia]. reflexivity. }
    rewrite Hnop. unfold wWorkspaceChange. rewrite Hg.
    destruct (Z.eqb_spec workspace (current_workspace scr)); [contradiction|].
    apply Hnop.
Qed.

(** ** Relative changes *)

Lemma wWorkspaceChange_cases (scr : WScreen) (workspace : Z)
    (focus_win : option WWindow) :
  wWorkspaceChange scr workspace focus_win = scr
  \/ (0 <= workspace < MAX_WORKSPACES
      /\ workspace <> current_workspace scr
      /\ wWorkspaceChange scr workspace focus_win
         = wWorkspaceForceChange scr workspace focus_win).
Proof. trim.
  unfold wWorkspaceChange.
  destruct (startup scr || startup2 scr || ignore_focus_events scr);
    [left; reflexivity|].
  destruct (Z.eqb_spec workspace (current_workspace scr)) as [Heq|Hne];
    [left; reflexivity|]. simpl.
  unfold wWorkspaceForceChange at 1.
  destruct (Z.geb_spec workspace MAX_WORKSPACES); [left; reflexivity|].
  destruct (Z.ltb_spec workspace 0); [left; reflexivity|].
  right. split; [lia|]. split; [exact Hne|reflexivity].
Qed.

Lemma wWorkspaceChange_current (scr : WScreen) (workspace : Z)
    (focus_win : option WWindow) :
  startup scr = false -> startup2 scr = false ->
  ignore_focus_events scr = false ->
  0 <= workspace < MAX_WORKSPACES ->
  (forall s, current_workspace (ProcessPendingEvents s)
             = current_workspace s) ->
  current_workspace (wWorkspaceChange scr workspace focus_win) = workspace.
Proof. trim.
  intros H1 H2 H3 Hrange Hpe. unfold wWorkspaceChange.
  rewrite H1, H2, H3. simpl.
  destruct (Z.eqb_spec workspace (current_workspace scr)) as [Heq|Hne]; simpl.
  - now symmetry.
  - now apply wWorkspaceForceChange_current.
Qed.

Lemma wWorkspaceChange_count (scr : WScreen) (workspace : Z)
    (focus_win : option WWindow) :
  startup scr = false -> startup2 scr = false ->
  ignore_focus_events scr = false ->
  0 <= current_workspace scr < workspace_count scr ->
  workspace_count scr <= MAX_WORKSPACES ->
  0 <= workspace < MAX_WORKSPACES ->
  (forall s, workspace_count (ProcessPendingEvents s) = workspace_count s) ->
  workspace_count (wWorkspaceChange scr workspace focus_win)
  = Z.max (workspace_count scr) (workspace + 1).
Proof. trim.
  intros H1 H2 H3 Hcur Hcap Hrange Hpe. unfold wWorkspaceChange.
  rewrite H1, H2, H3. simpl.
  destruct (Z.eqb_spec workspace (current_workspace scr)) as [Heq|Hne]; simpl.
  - lia.
  - now apply wWorkspaceForceChange_count.
Qed.

Lemma wWorkspaceChange_keeps_range (scr : WScreen) (workspace : Z)
    (focus_win : option WWindow) :
  0 <= current_workspace scr < workspace_count scr ->
  workspace_count scr <= MAX_WORKSPACES ->
  workspace < workspace_count scr ->
  (forall s, current_workspace (ProcessPendingEvents s)
             = current_workspace s) ->
  (forall s, workspace_count (ProcessPendingEvents s) = workspace_count s) ->
  workspace_count (wWorkspaceChange scr workspace focus_win)
  = workspace_count scr
  /\ 0 <= current_workspace (wWorkspaceChange scr workspace focus_win)
       < workspace_count scr.
Proof. trim.
  intros Hcur Hcap Hlt Hpec Hpen.
  destruct (wWorkspaceChange_cases scr workspace focus_win)
    as [->|(Hrange & Hne & ->)]; [tauto|].
  rewrite wWorkspaceForceChange_count, wWorkspaceForceChange_current
    by assumption.
  lia.
Qed.

(** An [int] is within its bounds; a result within the bounds is not
    changed by the wrap-around, and a result not below [INT_MIN] is not
    raised by it. *)
Lemma int32_range (z : Z) : INT_MIN <= int32 z <= INT_MAX.
Proof. trim.
  unfold int32, INT_MIN, INT_MAX.
  pose proof (Z.mod_pos_bound (z + 2 ^ 31) (2 ^ 32) ltac:(lia)). lia.
Qed.

Lemma int32_small (z : Z) : INT_MIN <= z <= INT_MAX -> int32 z = z.
Proof. trim.
  unfold int32, INT_MIN, INT_MAX. intros Hz.
  rewrite Z.mod_small by lia. lia.
Qed.

Lemma int32_le (z : Z) : INT_MIN <= z -> int32 z <= z.
Proof. trim.
  unfold int32, INT_MIN. intros Hz.
  pose proof (Z.mod_le (z + 2 ^ 31) (2 ^ 32) ltac:(lia) ltac:(lia)). lia.
Qed.

(** X14.  Without the setting that creates workspaces on the way,
    [wWorkspaceRelativeChange] never leaves the workspaces there are:
    whatever the amount, and whether or not it wraps around, the number
    of workspaces is the same afterwards and the current workspace is one
    of them (the handlers run by the flush keeping both). *)
Theorem relative_change_stays_in_range (scr : WScreen) (amount : Z) :
  ws_advance = false ->
  0 <= current_workspace scr < workspace_count scr ->
  workspace_count scr <= MAX_WORKSPACES ->
  (forall s, current_workspace (ProcessPendingEvents s)
             = current_workspace s) ->
  (forall s, workspace_count (ProcessPendingEvents s) = workspace_count s) ->
  workspace_count (wWorkspaceRelativeChange scr amount) = workspace_count scr
  /\ 0 <= current_workspace (wWorkspaceRelativeChange scr amount)
       < workspace_count scr.
Proof. trim.
  intros Hadv Hcur Hcap Hpec Hpen. unfold wWorkspaceRelativeChange.
  rewrite Hadv.
  destruct ignore_workspace_change; [tauto|]. cbv zeta.
  pose proof (int32_range amount) as Ha.
  set (a := int32 amount) in *.
  pose proof (int32_range (current_workspace scr + a)) as Hw.
  destruct (Z.ltb_spec a 0) as [Hneg|Hnonneg].
  - pose proof (int32_le (current_workspace scr + a) ltac:(lia)) as Hle.
    destruct (Z.geb_spec (int32 (current_workspace scr + a)) 0).
    + apply wWorkspaceChange_keeps_range; try assumption. lia.
    + destruct ws_cycle; [|tauto].
      apply wWorkspaceChange_keeps_range; try assumption.
      pose proof (int32_le (workspace_count scr
                            + int32 (current_workspace scr + a))
                    ltac:(lia)).
      lia.
  - destruct (Z.gtb_spec a 0) as [Hpos|_]; [|tauto].
    destruct (Z.ltb_spec (int32 (current_workspace scr + a))
                         (workspace_count scr)).
    + apply wWorkspaceChange_keeps_range; assumption.
    + destruct ws_cycle; [|tauto].
      apply wWorkspaceChange_keeps_range; try assumption.
      apply Z.rem_bound_pos; lia.
Qed.

(** X15.  With wrapping on (and creation on the way off), a relative
    change steps around the ring of workspaces: from workspace [c] of
    [n], on a screen that accepts changes, [wWorkspaceRelativeChange] by
    an amount not below [-n - c], when the amount and the sum
    [c + amount] are within the bounds of an [int], leaves workspace
    [(c + amount) mod n] current. *)
Theorem relative_change_cycles (scr : WScreen) (amount : Z) :
  ignore_workspace_change = false ->
  ws_cycle = true ->
  ws_advance = false ->
  startup scr = false -> startup2 scr = false ->
  ignore_focus_events scr = false ->
  0 <= current_workspace scr < workspace_count scr ->
  workspace_count scr <= MAX_WORKSPACES ->
  MAX_WORKSPACES <= INT_MAX ->
  INT_MIN <= amount ->
  - workspace_count scr <= current_workspace scr + amount <= INT_MAX ->
  (forall s, current_workspace (ProcessPendingEvents s)
             = current_workspace s) ->
  current_workspace (wWorkspaceRelativeChange scr amount)
  = (current_workspace scr + amount) mod workspace_count scr.
Proof. trim.
  intros Hign Hcycle Hadv H1 H2 H3 Hcur Hcap Hint Hamount Hsum Hpe.
  unfold wWorkspaceRelativeChange. rewrite Hign, Hcycle, Hadv. cbv zeta.
  rewrite (int32_small amount) by lia.
  rewrite (int32_small (current_workspace scr + amount))
    by (unfold INT_MIN, INT_MAX in *; lia).
  destruct (Z.ltb_spec amount 0) as [Hneg|Hnonneg].
  - destruct (Z.geb_spec (current_workspace scr + amount) 0).
    + rewrite wWorkspaceChange_current by (assumption || lia).
      symmetry. apply Z.mod_small. lia.
    + rewrite int32_small by (unfold INT_MIN, INT_MAX in *; lia).
      rewrite wWorkspaceChange_current by (assumption || lia).
      apply Z.mod_unique with (q := -1); lia.
  - destruct (Z.gtb_spec amount 0) as [Hpos|Hzero].
    + destruct (Z.ltb_spec (current_workspace scr + amount)
                           (workspace_count scr)).
      * rewrite wWorkspaceChange_current by (assumption || lia).
        symmetry. apply Z.mod_small. lia.
      * pose proof (Z.rem_bound_pos (current_workspace scr + amount)
                      (workspace_count scr) ltac:(lia) ltac:(lia)).
        rewrite wWorkspaceChange_current by (assumption || lia).
        apply Z.rem_mod_nonneg; lia.
    + replace amount with 0 by lia. rewrite Z.add_0_r.
      symmetry. apply Z.mod_small. lia.
Qed.

(** X16.  With creation on the way on, stepping forwards past the last
    workspace, to a target [c + amount] within the bounds of an [int],
    creates the workspaces up to the target, which is capped at the last
    index the limit allows: afterwards the target is the current
    workspace, the screen holds the workspaces up to it, and the limit
    still holds. *)
Theorem relative_change_advances (scr : WScreen) (amount : Z) :
  ignore_workspace_change = false ->
  ws_advance = true ->
  (forall a b, WMIN a b = Z.min a b) ->
  startup scr = false -> startup2 scr = false ->
  ignore_focus_events scr = false ->
  0 <= current_workspace scr < workspace_count scr ->
  workspace_count scr <= MAX_WORKSPACES ->
  workspace_count scr <= current_workspace scr + amount <= INT_MAX ->
  (forall s, current_workspace (ProcessPendingEvents s)
             = current_workspace s) ->
  (forall s, workspace_count (ProcessPendingEvents s) = workspace_count s) ->
  let target := Z.min (current_workspace scr + amount) (MAX_WORKSPACES - 1) in
  current_workspace (wWorkspaceRelativeChange scr amount) = target
  /\ workspace_count (wWorkspaceRelativeChange scr amount)
     = Z.max (workspace_count scr) (target + 1)
  /\ workspace_count (wWorkspaceRelativeChange scr amount) <= MAX_WORKSPACES.
Proof. trim.
  intros Hign Hadv Hmin H1 H2 H3 Hcur Hcap Hpast Hpec Hpen target.
  unfold wWorkspaceRelativeChange. rewrite Hign, Hadv, Hmin. cbv zeta.
  rewrite (int32_small amount) by (unfold INT_MIN, INT_MAX in *; lia).
  rewrite (int32_small (current_workspace scr + amount))
    by (unfold INT_MIN, INT_MAX in *; lia).
  destruct (Z.ltb_spec amount 0); [lia|].
  destruct (Z.gtb_spec amount 0); [|lia].
  destruct (Z.ltb_spec (current_workspace scr + amount)
                       (workspace_count scr)); [lia|].
  fold target.
  rewrite wWorkspaceChange_current, wWorkspaceChange_count
    by (assumption || (subst target; lia)).
  subst target. lia.
Qed.

(** ** The focus after a transition *)

Lemma find_by_client_win (l : list WWindow) (id : Z) (f : WWindow) :
  find (fun parse => client_win parse =? id) l = Some f ->
  f ∈ l /\ client_win f = id.
Proof. trim.
  induction l as [|x l IH]; simpl; [discriminate|].
  destruct (Z.eqb_spec (client_win x) id) as [Heq|_].
  - intros [= <-]. split; [left|exact Heq].
  - intros Hf. destruct (IH Hf) as [Hin Hid]. split; [right|]; assumption.
Qed.

Lemma find_unique_client_win (l : list WWindow) (w : WWindow) :
  NoDup (client_win <$> l) -> w ∈ l ->
  find (fun parse => client_win parse =? client_win w) l = Some w.
Proof. trim.
  induction l as [|x l IH]; intros Hnd Hin; [inversion Hin|].
  simpl in *. apply NoDup_cons in Hnd as [Hx Hnd].
  apply elem_of_cons in Hin as [->|Hin].
  - rewrite Z.eqb_refl. reflexivity.
  - destruct (Z.eqb_spec (client_win x) (client_win w)) as [Heq|_];
      [|apply IH; assumption].
    exfalso. apply Hx. rewrite Heq. apply list_elem_of_fmap.
    exists w. split; [reflexivity|exact Hin].
Qed.

(** X17.  The window handed to [wSetFocusTo] is never a stale one: when
    [new_focus] yields a window, that window is in the window list as it
    stands, it is not hidden, and it carries the numeric id of the
    candidate that was resolved (the caller's window, else the candidate
    of the traversal, else the saved focus of the workspace). *)
Theorem new_focus_safe (scr : WScreen) (workspace : Z)
    (focus_win foc : option WWindow) (f : WWindow) :
  new_focus scr workspace focus_win foc = Some f ->
  f ∈ focused_window scr
  /\ hidden f = false
  /\ exists candidate : WWindow,
       client_win f = client_win candidate
       /\ (focus_win = Some candidate
           \/ (focus_win = None /\ foc = Some candidate)
           \/ (focus_win = None /\ foc = None
               /\ workspace_at scr workspace ≫= ws_focused_window
                  = Some candidate)).
Proof. trim.
  unfold new_focus.
  set (c1 := match focus_win with Some f0 => Some f0 | None => foc end).
  set (c2 := match c1 with
             | Some f0 => Some f0
             | None => workspace_at scr workspace ≫= ws_focused_window
             end).
  assert (Hc2 : forall cand, c2 = Some cand ->
            focus_win = Some cand
            \/ (focus_win = None /\ foc = Some cand)
            \/ (focus_win = None /\ foc = None
                /\ workspace_at scr workspace ≫= ws_focused_window
                   = Some cand)).
  { intros cand. subst c2 c1.
    destruct focus_win as [f0|]; [intros [= ->]; left; reflexivity|].
    destruct foc as [f0|]; [intros [= ->]; right; left; tauto|].
    intros Hs. right; right. tauto. }
  clearbody c2. destruct c2 as [cand|]; [|discriminate].
  destruct (find _ _) as [g|] eqn:Hfind; [|discriminate].
  destruct (hidden g) eqn:Hh; [discriminate|]. intros [= <-].
  destruct (find_by_client_win _ _ _ Hfind) as [Hin Hid].
  split; [exact Hin|]. split; [exact Hh|].
  exists cand. split; [exact Hid|]. apply Hc2. reflexivity.
Qed.

(** X18.  The saved focus of a workspace brings the window back.  What
    [wWorkspaceSaveFocusedWindow] stores for a window of the list is a
    copy holding its class, instance and numeric id; on a window list
    whose ids are distinct, [new_focus] with no other candidate resolves
    this copy to the window itself, unless the window is hidden; and
    after a save without a window it resolves to none. *)
Theorem saved_focus_round_trip (scr : WScreen) (workspace : Z)
    (w : WWindow) :
  0 <= workspace < workspace_count scr ->
  w ∈ focused_window scr ->
  NoDup (client_win <$> focused_window scr) ->
  (exists saved : WWindow,
     workspace_at (wWorkspaceSaveFocusedWindow scr workspace (Some w))
                  workspace ≫= ws_focused_window = Some saved
     /\ client_win saved = client_win w
     /\ wm_class saved = wm_class w
     /\ wm_instance saved = wm_instance w
     /\ frame saved = None)
  /\ new_focus (wWorkspaceSaveFocusedWindow scr workspace (Some w))
               workspace None None
     = (if hidden w then None else Some w)
  /\ new_focus (wWorkspaceSaveFocusedWindow scr workspace None)
               workspace None None
     = None.
Proof. trim.
  intros Hrange Hin Hnd.
  assert (Hat : exists ws, workspace_at scr workspace = Some ws).
  { unfold workspace_at. destruct (Z.ltb_spec workspace 0); [lia|].
    apply lookup_lt_is_Some. unfold workspace_count in Hrange. lia. }
  destruct Hat as [ws Hat].
  assert (Hsaved : forall x,
            workspace_at (wWorkspaceSaveFocusedWindow scr workspace x)
                         workspace ≫= ws_focused_window
            = match x with
              | Some wwin =>
                  Some (mkWindow (client_win wwin) 0 (wm_class wwin)
                                 (wm_instance wwin) None None false false
                                 false false false false false false false
                                 0 0)
              | None => None
              end).
  { intros [wwin|]; unfold wWorkspaceSaveFocusedWindow;
      rewrite update_workspace_lookup, Hat; reflexivity. }
  assert (Hlist : forall x,
            focused_window (wWorkspaceSaveFocusedWindow scr workspace x)
            = focused_window scr).
  { intros x.
    pose proof (wWorkspaceSaveFocusedWindow_frame scr workspace x) as Hf.
    simpl in Hf. tauto. }
  split; [|split].
  - eexists. split; [apply (Hsaved (Some w))|]. simpl. tauto.
  - unfold new_focus. rewrite (Hsaved (Some w)), Hlist. simpl client_win.
    rewrite (find_unique_client_win _ _ Hnd Hin). reflexivity.
  - unfold new_focus. rewrite (Hsaved None). reflexivity.
Qed.

(** ** The two queues of a transition *)

Lemma elem_of_queue_from_iff (p : WWindow -> bool) (rest : list WWindow)
    (i k : nat) (w : WWindow) :
  rest !! k = Some w ->
  ((i + k)%nat ∈ queue_from p i rest <-> p w = true).
Proof. trim.
  revert i k. induction rest as [|x rest IH]; intros i k Hk;
    [discriminate|].
  simpl. rewrite elem_of_app. destruct k as [|k]; simpl in Hk.
  - injection Hk as ->. rewrite Nat.add_0_r. split.
    + intros [Hhead|Htail].
      * destruct (p w); [reflexivity|inversion Hhead].
      * apply elem_of_queue_from in Htail as (k' & _ & Hj & _). lia.
    + intros ->. left. left.
  - replace (i + S k)%nat with (S i + k)%nat by lia.
    rewrite <- (IH (S i) k Hk). split; [|tauto].
    intros [Hhead|Htail]; [|exact Htail].
    destruct (p x); [|inversion Hhead].
    apply list_elem_of_singleton in Hhead. lia.
Qed.

Lemma NoDup_queue_from (p : WWindow -> bool) (rest : list WWindow) (i : nat) :
  NoDup (queue_from p i rest).
Proof. trim.
  revert i. induction rest as [|x rest IH]; intros i; simpl;
    [apply NoDup_nil_2|].
  destruct (p x); simpl; [|apply IH].
  apply NoDup_cons. split; [|apply IH].
  intros Hin. apply elem_of_queue_from in Hin as (k & _ & Hj & _). lia.
Qed.

Lemma queued_disjoint (workspace : Z) (w : WWindow) :
  queued_unmap workspace w = true -> queued_map workspace w = true -> False.
Proof. trim.
  unfold queued_unmap, queued_map.
  destruct (on_workspace w workspace), (selected w); simpl; congruence.
Qed.

(** X19.  Which windows a transition queues.  In the traversal of
    [wWorkspaceForceChange], the window at a position of the list is
    queued for unmapping exactly when it is on another workspace, not
    selected, not omnipresent, mapped or shaded, and not already
    changing workspace; it is queued for mapping exactly when it is on
    the target workspace, not selected, not hidden, and neither mapped
    nor miniaturized; and no window is in both queues. *)
Theorem transition_queues (scr : WScreen) (workspace : Z) (i : nat)
    (w : WWindow) :
  focused_window scr !! i = Some w ->
  let acc :=
    partition_loop workspace 0 (focused_window scr)
                   (mkPartition [] [] [] None (wapps scr)) in
  (i ∈ toUnmap acc
   <-> on_workspace w workspace = false /\ selected w = false
       /\ IS_OMNIPRESENT w = false
       /\ (mapped w = true \/ shaded w = true)
       /\ changing_workspace w = false)
  /\ (i ∈ toMap acc
      <-> on_workspace w workspace = true /\ selected w = false
          /\ hidden w = false /\ mapped w = false /\ miniaturized w = false)
  /\ ~ (i ∈ toUnmap acc /\ i ∈ toMap acc).
Proof. trim.
  intros Hw acc.
  destruct (partition_loop_shape workspace (focused_window scr) 0
              (mkPartition [] [] [] None (wapps scr)))
    as (_ & Hu & Hm & _).
  fold acc in Hu, Hm. simpl in Hu, Hm. rewrite Hu, Hm.
  pose proof (elem_of_queue_from_iff (queued_unmap workspace) _ 0 i w Hw)
    as Hqu.
  pose proof (elem_of_queue_from_iff (queued_map workspace) _ 0 i w Hw)
    as Hqm.
  simpl in Hqu, Hqm. rewrite Hqu, Hqm.
  split; [|split].
  - unfold queued_unmap, IS_OMNIPRESENT.
    destruct (on_workspace w workspace), (selected w), (omnipresent w),
      (mapped w), (shaded w), (changing_workspace w); simpl;
      intuition congruence.
  - unfold queued_map.
    destruct (on_workspace w workspace), (selected w), (hidden w),
      (mapped w), (miniaturized w); simpl; intuition congruence.
  - intros [Ha Hb]. exact (queued_disjoint workspace w Ha Hb).
Qed.

(** ** The calls of a transition *)

Lemma rev_reverse {A : Type} (l : list A) : rev l = reverse l.
Proof. trim. unfold reverse. apply rev_alt. Qed.

(** The calls made while a queue is emptied, for a step [f] that calls
    [C] on the window at its position and touches no other position. *)
Lemma fold_queue_calls (f : nat -> WScreen -> WScreen) (C : Z -> Call)
    (queue : list nat) (wl : list WWindow) (s : WScreen) :
  (forall i s' w, focused_window s' !! i = Some w ->
                  calls (f i s') = calls s' ++ [C (client_win w)]) ->
  (forall i s' j, i <> j ->
                  focused_window (f i s') !! j = focused_window s' !! j) ->
  NoDup queue ->
  Forall2 (fun i w => focused_window s !! i = Some w) queue wl ->
  calls (fold_left (fun s' i => f i s') queue s)
  = calls s ++ (C <$> (client_win <$> wl)).
Proof. trim.
  intros Hcall Hother Hnd Hall. revert s Hall Hnd.
  revert wl. induction queue as [|i queue IH]; intros wl s Hall Hnd.
  - inversion Hall; subst. simpl. now rewrite app_nil_r.
  - inversion Hall as [|? w ? wl' Hi Hrest]; subst.
    apply NoDup_cons in Hnd as [Hi_fresh Hnd].
    simpl fold_left. rewrite (IH wl' (f i s)); [|
      |exact Hnd].
    + rewrite (Hcall i s w Hi), <- app_assoc. reflexivity.
    + clear IH Hall. induction Hrest as [|j w' queue wl' Hj Hrest IH'];
        [constructor|].
      constructor.
      * rewrite Hother; [exact Hj|].
        intros ->. apply Hi_fresh. left.
      * apply IH'.
        -- intros Hin. apply Hi_fresh. right. exact Hin.
        -- apply NoDup_cons in Hnd. tauto.
Qed.

Lemma queue_from_windows (p : WWindow -> bool) (l pre : list WWindow) :
  Forall2 (fun i w => (pre ++ l) !! i = Some w /\ p w = true)
          (queue_from p (length pre) l) (List.filter p l).
Proof. trim.
  revert pre. induction l as [|x l IH]; intros pre; simpl; [constructor|].
  specialize (IH (pre ++ [x])).
  rewrite length_app, <- app_assoc in IH. simpl in IH.
  replace (length pre + 1)%nat with (S (length pre)) in IH by lia.
  destruct (p x) eqn:Hpx; simpl; [|exact IH].
  constructor; [|exact IH].
  split; [|exact Hpx]. apply list_lookup_middle. reflexivity.
Qed.

Lemma window_after_client_win (workspace : Z) (tmp : WWindow) :
  selected tmp = false ->
  client_win (window_after workspace tmp) = client_win tmp.
Proof. trim.
  intros Hsel. unfold window_after, partition_step. rewrite Hsel.
  destruct (on_workspace tmp workspace); simpl.
  - destruct (hidden tmp); simpl; [reflexivity|].
    destruct (_ && _ && _ && _); reflexivity.
  - unfold IS_OMNIPRESENT. destruct (omnipresent tmp); simpl.
    + destruct (_ && _ && _ && _); reflexivity.
    + destruct (_ && _ && _ && _); reflexivity.
Qed.

Lemma unmap_at_calls (i : nat) (s : WScreen) (w : WWindow) :
  focused_window s !! i = Some w ->
  calls (unmap_at i s) = calls s ++ [WindowUnmap (client_win w)].
Proof. trim. intros Hw. unfold unmap_at. rewrite Hw. reflexivity. Qed.

Lemma map_at_calls (i : nat) (s : WScreen) (w : WWindow) :
  focused_window s !! i = Some w ->
  calls (map_at i s) = calls s ++ [WindowMap (client_win w)].
Proof. trim. intros Hw. unfold map_at. rewrite Hw. reflexivity. Qed.

(** X20.  The unmaps and maps of the remapping step, in order.  The
    step unmaps before it maps: the calls it adds to the log are those of
    [wWindowUnmap] on the windows queued for unmapping, from the last one
    queued to the first, then those of [wWindowMap] on the windows queued
    for mapping, again from the last to the first.  (The calls of
    [wWindowChangeWorkspace] on the selected windows, made during the
    traversal and so before the first unmap, are not entries of the
    log.) *)
Theorem remap_calls_in_order (s : WScreen) (workspace : Z) :
  calls (fst (force_change_remap s workspace))
  = calls s
    ++ (WindowUnmap
          <$> (client_win
                 <$> rev (List.filter (queued_unmap workspace)
                                      (focused_window s))))
    ++ (WindowMap
          <$> (client_win
                 <$> rev (List.filter (queued_map workspace)
                                      (focused_window s)))).
Proof. trim.
  unfold force_change_remap. simpl fst.
  destruct (partition_loop_shape workspace (focused_window s) 0
              (mkPartition [] [] [] None (wapps s)))
    as (Hv & Hu & Hm & _).
  simpl in Hv, Hu, Hm. rewrite Hv, Hu, Hm.
  set (l := focused_window s).
  set (s1 := set_wapps _ (set_focused_window (window_after workspace <$> l) s)).
  assert (Hqueue : forall p,
            Forall2 (fun i w' =>
                       focused_window s1 !! i = Some w'
                       /\ exists w, l !! i = Some w /\ p w = true)
                    (rev (queue_from p 0 l))
                    (rev (window_after workspace <$> List.filter p l))).
  { intros p. rewrite !rev_reverse. apply Forall2_reverse.
    apply Forall2_fmap_r.
    pose proof (queue_from_windows p l []) as Hq. simpl in Hq.
    eapply Forall2_impl; [exact Hq|].
    intros i w [Hi Hp]. simpl. rewrite list_lookup_fmap, Hi.
    split; [reflexivity|]. exists w. tauto. }
  assert (Hids : forall p,
            (forall w, p w = true -> selected w = false) ->
            client_win <$> rev (window_after workspace <$> List.filter p l)
            = client_win <$> rev (List.filter p l)).
  { intros p Hp. rewrite !rev_reverse, !fmap_reverse. f_equal.
    rewrite <- list_fmap_compose. apply list_fmap_ext.
    intros i w Hi. simpl. apply window_after_client_win, Hp.
    apply list_elem_of_lookup_2 in Hi.
    rewrite list_elem_of_In, filter_In in Hi. tauto. }
  unfold apply_queue.
  rewrite (fold_queue_calls
             map_at WindowMap (rev (queue_from (queued_map workspace) 0 l))
             (rev (window_after workspace
                     <$> List.filter (queued_map workspace) l))
             _ map_at_calls map_at_lookup_other).
  2: { rewrite rev_reverse, reverse_Permutation. apply NoDup_queue_from. }
  2: { eapply Forall2_impl; [apply (Hqueue (queued_map workspace))|].
       intros i w' (Hi & w & Hw & Hpm). simpl in Hi |- *.
       fold (apply_queue unmap_at (queue_from (queued_unmap workspace) 0 l)
                         s1).
       rewrite (apply_queue_lookup_other unmap_at _ s1 i
                  (fun i0 s' Hne => unmap_at_lookup_other i0 s' i Hne));
         [exact Hi|].
       intros Hiu.
       apply elem_of_queue_from in Hiu as (k & w0 & -> & Hk & Hpu).
       simpl in Hw. rewrite Hw in Hk. injection Hk as <-.
       exact (queued_disjoint workspace w Hpu Hpm). }
  rewrite (fold_queue_calls
             unmap_at WindowUnmap
             (rev (queue_from (queued_unmap workspace) 0 l))
             (rev (window_after workspace
                     <$> List.filter (queued_unmap workspace) l))
             _ unmap_at_calls unmap_at_lookup_other).
  2: { rewrite rev_reverse, reverse_Permutation. apply NoDup_queue_from. }
  2: { eapply Forall2_impl; [apply (Hqueue (queued_unmap workspace))|].
       intros i w' [Hi _]. exact Hi. }
  rewrite !Hids.
  - subst s1. simpl calls. rewrite <- app_assoc. reflexivity.
  - unfold queued_map. intros w.
    destruct (selected w), (on_workspace w workspace); simpl;
      intros; congruence.
  - unfold queued_unmap. intros w.
    destruct (selected w), (on_workspace w workspace); simpl;
      intros; congruence.
Qed.

(** ** Deleting a workspace that is free *)


(** ** Looking a workspace up by name *)

Lemma name_index_from_spec (rest : list WWorkspace) (i : Z) (value : string) :
  (name_index_from rest i value = -1
   /\ forall ws, ws ∈ rest -> name ws <> value)
  \/ (i <= name_index_from rest i value < i + Z.of_nat (length rest)
      /\ name <$> rest !! Z.to_nat (name_index_from rest i value - i)
         = Some value
      /\ forall (j : nat) ws,
           Z.of_nat j < name_index_from rest i value - i ->
           rest !! j = Some ws -> name ws <> value).
Proof. trim.
  revert i. induction rest as [|x rest IH]; intros i; simpl.
  - left. split; [reflexivity|]. intros ws Hin. inversion Hin.
  - destruct (String.eqb_spec (name x) value) as [Heq|Hne].
    + right. split; [lia|]. rewrite Z.sub_diag. simpl.
      split; [congruence|]. intros j ws Hj. lia.
    + destruct (IH (i + 1)) as [[Hr Hout]|(Hr & Hl & Hfirst)].
      * left. split; [exact Hr|]. intros ws Hin.
        apply elem_of_cons in Hin as [->|Hin]; [exact Hne|].
        exact (Hout ws Hin).
      * right. split; [lia|].
        replace (Z.to_nat (name_index_from rest (i + 1) value - i))
          with (S (Z.to_nat (name_index_from rest (i + 1) value - (i + 1))))
          by lia.
        split; [exact Hl|].
        intros [|j] ws Hj Hws; simpl in Hws.
        -- injection Hws as <-. exact Hne.
        -- apply (Hfirst j ws); [lia|exact Hws].
Qed.

(** X22.  [wGetWorkspaceNumber] reads a value that begins with a number
    as that number less one, whatever the workspaces are called, for a
    number above [INT_MIN] within the bounds of an [int]; any other value
    is looked up among the names, and the result is the first workspace
    called so, or -1 when there is none. *)
Theorem wGetWorkspaceNumber_spec (scr : WScreen) (value : string) :
  (forall w : Z,
     sscanf_i value = Some w -> INT_MIN < w <= INT_MAX ->
     wGetWorkspaceNumber scr value = w - 1)
  /\ (sscanf_i value = None ->
      let r := wGetWorkspaceNumber scr value in
      (r = -1
       /\ forall i ws, workspace_at scr i = Some ws -> name ws <> value)
      \/ (0 <= r < workspace_count scr
          /\ name <$> workspace_at scr r = Some value
          /\ forall i ws,
               i < r -> workspace_at scr i = Some ws -> name ws <> value)).
Proof. trim.
  unfold wGetWorkspaceNumber. split.
  - intros w -> Hw. apply int32_small. lia.
  - intros ->. cbv zeta.
    destruct (name_index_from_spec (workspaces scr) 0 value)
      as [[Hr Hout]|(Hr & Hl & Hfirst)].
    + left. split; [exact Hr|]. intros i ws. unfold workspace_at.
      destruct (i <? 0); [discriminate|]. intros Hi.
      apply Hout. eapply list_elem_of_lookup_2. exact Hi.
    + right. rewrite Z.sub_0_r in *.
      set (r := name_index_from (workspaces scr) 0 value) in *.
      split; [unfold workspace_count; lia|]. unfold workspace_at.
      destruct (Z.ltb_spec r 0); [lia|]. split; [exact Hl|].
      intros i ws Hi. destruct (Z.ltb_spec i 0); [discriminate|].
      intros Hws. apply (Hfirst (Z.to_nat i) ws); [lia|exact Hws].
Qed.

(** X23.  A workspace can be found again under the name it was given.
    After [wWorkspaceRename] of a workspace of the screen, looking up
    the name that was stored, when it does not begin with a number,
    yields a workspace that carries this name, at or before the renamed
    one; it is the renamed one when no earlier workspace is called the
    same. *)
Theorem rename_then_lookup (scr : WScreen) (workspace : Z) (raw : string) :
  0 <= workspace < workspace_count scr ->
  sscanf_i (rename_buf workspace raw) = None ->
  let scr' := wWorkspaceRename scr workspace raw in
  let r := wGetWorkspaceNumber scr' (rename_buf workspace raw) in
  0 <= r <= workspace
  /\ name <$> workspace_at scr' r = Some (rename_buf workspace raw)
  /\ ((forall i ws, 0 <= i < workspace -> workspace_at scr i = Some ws ->
                    name ws <> rename_buf workspace raw) ->
      r = workspace).
Proof. trim.
  intros Hrange Hscan scr' r.
  assert (Hws : workspaces scr'
                = alter (set_name (rename_buf workspace raw))
                        (Z.to_nat workspace) (workspaces scr)).
  { subst scr'. unfold wWorkspaceRename.
    destruct (Z.geb_spec workspace (workspace_count scr)); [lia|].
    unfold _postNotification, update_workspace.
    destruct (Z.ltb_spec workspace 0); [lia|]. reflexivity. }
  assert (Hk : exists ws0, workspaces scr !! Z.to_nat workspace = Some ws0).
  { apply lookup_lt_is_Some. unfold workspace_count in Hrange. lia. }
  destruct Hk as [ws0 Hk].
  assert (Hnew : workspaces scr' !! Z.to_nat workspace
                 = Some (set_name (rename_buf workspace raw) ws0)).
  { rewrite Hws, list_lookup_alter_eq, Hk. reflexivity. }
  subst r. unfold wGetWorkspaceNumber. rewrite Hscan.
  destruct (name_index_from_spec (workspaces scr') 0
              (rename_buf workspace raw))
    as [[Hr Hout]|(Hr & Hl & Hfirst)].
  { exfalso. apply (Hout (set_name (rename_buf workspace raw) ws0)).
    - eapply list_elem_of_lookup_2. exact Hnew.
    - reflexivity. }
  rewrite Z.sub_0_r in *.
  set (r := name_index_from (workspaces scr') 0 (rename_buf workspace raw))
    in *.
  assert (Hle : r <= workspace).
  { destruct (Z_le_gt_dec r workspace) as [|Hgt]; [assumption|].
    exfalso.
    apply (Hfirst (Z.to_nat workspace)
                  (set_name (rename_buf workspace raw) ws0));
      [lia|exact Hnew|reflexivity]. }
  split; [lia|]. split.
  - unfold workspace_at. destruct (Z.ltb_spec r 0); [lia|]. exact Hl.
  - intros Hearlier.
    destruct (Z.eq_dec r workspace) as [|Hne]; [assumption|]. exfalso.
    assert (Hlt : Z.to_nat r <> Z.to_nat workspace) by lia.
    rewrite Hws, list_lookup_alter_ne in Hl
      by (intros E; apply Hlt; now symmetry).
    destruct (workspaces scr !! Z.to_nat r) as [wsr|] eqn:Hwsr;
      [|discriminate].
    simpl in Hl. injection Hl as Hname.
    apply (Hearlier r wsr); [lia| |exact Hname].
    unfold workspace_at. destruct (Z.ltb_spec r 0); [lia|exact Hwsr].
Qed.

(** * Facts about dead processes and clicks *)

(** A bind on a value that is there. *)
Ltac bind_some :=
  match goal with
  | |- context [Some ?x ≫= ?f] => change (Some x ≫= f) with (f x); cbv beta
  end.

Lemma saved_states_loop_spec (n i : nat) (st : EventState) :
  (i + n <= length (deadProcesses st))%nat ->
  saved_states_loop n (Z.of_nat i) st
  = Some (mkEventState
            (deadProcesses st) (deadProcessPtr st) (handler_heap st)
            (deathHandlers st)
            (event_calls st
             ++ (DeleteSavedStatesForPID
                   <$> (pid <$> take n (drop i (deadProcesses st)))))).
Proof. trim.
  revert i st. induction n as [|n IH]; intros i st Hlen.
  - simpl. rewrite app_nil_r. destruct st; reflexivity.
  - simpl saved_states_loop. unfold CFArrayGetValueAtIndex.
    destruct (Z.ltb_spec (Z.of_nat i) 0); [lia|]. rewrite Nat2Z.id.
    destruct (lookup_lt_is_Some_2 (deadProcesses st) i ltac:(lia))
      as [d Hd].
    rewrite Hd. simpl.
    replace (Z.of_nat i + 1) with (Z.of_nat (S i)) by lia.
    rewrite IH by (simpl; lia). simpl.
    rewrite (drop_S _ _ _ Hd). simpl. rewrite <- app_assoc. reflexivity.
Qed.

Lemma first_index_from_middle (a b : list wptr) (h : wptr) (i : Z) :
  h ∉ a ->
  first_index_from (a ++ h :: b) i h = i + Z.of_nat (length a).
Proof. trim.
  revert i. induction a as [|x a IH]; intros i Ha; simpl.
  - rewrite N.eqb_refl. lia.
  - apply not_elem_of_cons in Ha as [Hx Ha].
    destruct (N.eqb_spec x h) as [Heq|_]; [congruence|].
    rewrite IH by exact Ha. lia.
Qed.

Lemma NoDup_List_filter {A : Type} (f : A -> bool) (l : list A) :
  NoDup l -> NoDup (List.filter f l).
Proof. trim.
  induction 1 as [|x l Hx Hnd IH]; simpl; [constructor|].
  destruct (f x); [|exact IH].
  constructor; [|exact IH].
  rewrite list_elem_of_In, filter_In, <- list_elem_of_In. tauto.
Qed.

Lemma elem_of_List_filter {A : Type} (f : A -> bool) (l : list A) (x : A) :
  x ∈ List.filter f l <-> x ∈ l /\ f x = true.
Proof. trim. rewrite !list_elem_of_In. apply filter_In. Qed.

(** The inner loop of [handleDeadProcess] on handlers that are distinct
    live blocks described by [rec]: the handlers registered for the dead
    process are called from the last one to the first and removed. *)
Lemma handlers_loop_spec (rec : wptr -> DeathHandler) (d : DeadProcesses)
    (pre : list wptr) :
  forall (post : list wptr) (st : EventState),
    deathHandlers st = Some (pre ++ post) ->
    NoDup (pre ++ post) ->
    (forall h, h ∈ pre ++ post ->
               h <> 0%N /\ handler_heap st !! h = Some (rec h)) ->
    exists st' : EventState,
      handlers_loop (length pre) d st = Some st'
      /\ deathHandlers st'
         = Some (List.filter (fun h => negb (handler_pid (rec h) =? pid d))
                             pre ++ post)
      /\ (forall h,
            h ∈ List.filter (fun h => negb (handler_pid (rec h) =? pid d))
                            pre ++ post ->
            handler_heap st' !! h = Some (rec h))
      /\ (forall h, h ∈ pre -> (handler_pid (rec h) =? pid d) = true ->
                    handler_heap st' !! h = None)
      /\ (forall h, (h ∉ pre) ->
                    handler_heap st' !! h = handler_heap st !! h)
      /\ event_calls st'
         = event_calls st
           ++ ((fun h => death_call (rec h) d)
                 <$> rev (List.filter (fun h => handler_pid (rec h) =? pid d)
                                      pre))
      /\ deadProcesses st' = deadProcesses st
      /\ deadProcessPtr st' = deadProcessPtr st.
Proof. trim.
  induction pre as [|h pre IH] using rev_ind; intros post st Harr Hnd Hwf.
  - exists st. simpl. rewrite app_nil_r. repeat split; try reflexivity.
    + exact Harr.
    + intros h Hh. apply Hwf. exact Hh.
    + intros h Hh. inversion Hh.
  - rewrite length_app. simpl length.
    replace (length pre + 1)%nat with (S (length pre)) by lia.
    simpl handlers_loop. rewrite Harr. bind_some.
    assert (Hat : @CFArrayGetValueAtIndex N ((pre ++ [h]) ++ post)
                                          (Z.of_nat (length pre)) = Some h).
    { unfold CFArrayGetValueAtIndex.
      destruct (Z.ltb_spec (Z.of_nat (length pre)) 0); [lia|].
      rewrite Nat2Z.id, <- app_assoc. apply list_lookup_middle. reflexivity. }
    rewrite Hat. bind_some.
    destruct (Hwf h) as [Hnz Hheap].
    { rewrite !elem_of_app, list_elem_of_singleton. tauto. }
    destruct (N.eqb_spec h 0) as [?|_]; [contradiction|].
    rewrite Hheap. bind_some.
    assert (Hnd' : NoDup (pre ++ post) /\ (h ∉ pre) /\ (h ∉ post)).
    { rewrite <- app_assoc in Hnd. simpl in Hnd.
      apply NoDup_app in Hnd as (Hp & Hdis & Hq).
      apply NoDup_cons in Hq as [Hhq Hq].
      split; [|split].
      - apply NoDup_app. split; [exact Hp|]. split; [|exact Hq].
        intros x Hx Hxq. apply (Hdis x Hx). right. exact Hxq.
      - intros Hhp. apply (Hdis h Hhp). left.
      - exact Hhq. }
    destruct Hnd' as (Hnd' & Hhpre & Hhpost).
    rewrite !List.filter_app. simpl List.filter.
    destruct (Z.eqb_spec (handler_pid (rec h)) (pid d)) as [Hmatch|Hmiss];
      simpl negb; cbv iota.
    + set (st1 := event_call (death_call (rec h) d) st).
      assert (Hdel : wdelete_death_handler h st1
                     = mkEventState (deadProcesses st) (deadProcessPtr st)
                                    (delete h (handler_heap st))
                                    (Some (pre ++ post))
                                    (event_calls st
                                     ++ [death_call (rec h) d])).
      { unfold wdelete_death_handler.
        destruct (N.eqb_spec h 0) as [?|_]; [contradiction|].
        subst st1. simpl deathHandlers. rewrite Harr.
        unfold CFArrayGetFirstIndexOfValue.
        rewrite <- app_assoc. simpl app.
        rewrite (first_index_from_middle pre post h 0 Hhpre).
        unfold kCFNotFound.
        destruct (Z.eqb_spec (0 + Z.of_nat (length pre)) (-1)); [lia|].
        simpl negb. cbv iota.
        replace (Z.to_nat (0 + Z.of_nat (length pre))) with (length pre)
          by lia.
        rewrite delete_middle. reflexivity. }
      fold (death_call (rec h) d). fold st1. rewrite Hdel.
      match goal with |- context [handlers_loop _ d ?s2] =>
        destruct (IH post s2) as (st' & Hrun & Hrest & Hkept & Hgone & Hother
                                  & Hcalls & Hdead & Hptr)
      end.
      * reflexivity.
      * exact Hnd'.
      * intros x Hx. simpl.
        assert (Hxh : h <> x) by (intros <-; apply elem_of_app in Hx; tauto).
        rewrite lookup_delete_ne by exact Hxh.
        apply Hwf. rewrite !elem_of_app in *. tauto.
      * exists st'. split; [exact Hrun|]. rewrite app_nil_r.
        split; [exact Hrest|]. split; [exact Hkept|]. split; [|split].
        -- intros x Hx Hxm. apply elem_of_app in Hx as [Hx|Hx].
           ++ apply Hgone; assumption.
           ++ apply list_elem_of_singleton in Hx as ->.
              rewrite (Hother h Hhpre). simpl. apply lookup_delete_eq.
        -- intros x Hx. rewrite not_elem_of_app in Hx.
           destruct Hx as [Hx Hxh]. rewrite (Hother x Hx). simpl.
           apply lookup_delete_ne. intros ->. apply Hxh. left.
        -- rewrite Hcalls. simpl event_calls.
           rewrite rev_app_distr. simpl. rewrite <- app_assoc.
           split; [reflexivity|]. simpl in Hdead, Hptr. tauto.
    + destruct (IH (h :: post) st) as (st' & Hrun & Hrest & Hkept & Hgone
                                       & Hother & Hcalls & Hdead & Hptr).
      * rewrite Harr, <- app_assoc. reflexivity.
      * rewrite <- app_assoc in Hnd. exact Hnd.
      * intros x Hx. apply Hwf. rewrite <- app_assoc. exact Hx.
      * exists st'. split; [exact Hrun|]. rewrite <- !app_assoc.
        simpl app. rewrite app_nil_r.
        split; [exact Hrest|]. split; [exact Hkept|]. split; [|split].
        -- intros x Hx Hxm. apply elem_of_app in Hx as [Hx|Hx].
           ++ apply Hgone; assumption.
           ++ apply list_elem_of_singleton in Hx as ->. lia.
        -- intros x Hx. rewrite not_elem_of_app in Hx. apply Hother. tauto.
        -- tauto.
Qed.

Lemma dead_loop_spec (rec : wptr -> DeathHandler) (m : nat) :
  forall (st : EventState) (l : list wptr),
    (m <= length (deadProcesses st))%nat ->
    deathHandlers st = Some l ->
    NoDup l ->
    (forall h, h ∈ l -> h <> 0%N /\ handler_heap st !! h = Some (rec h)) ->
    let r := dispatch rec (rev (take m (deadProcesses st))) l in
    exists st' : EventState,
      dead_loop m st = Some st'
      /\ deathHandlers st' = Some (fst r)
      /\ event_calls st' = event_calls st ++ snd r
      /\ (forall h, h ∈ fst r -> handler_heap st' !! h = Some (rec h))
      /\ (forall h, h ∈ l -> h ∉ fst r -> handler_heap st' !! h = None)
      /\ (forall h, h ∉ l -> handler_heap st' !! h = handler_heap st !! h)
      /\ deadProcessPtr st'
         = match m with O => deadProcessPtr st | S _ => 0 end
      /\ deadProcesses st' = deadProcesses st.
Proof. trim.
  induction m as [|m IH]; intros st l Hlen Harr Hnd Hwf.
  - exists st. simpl. rewrite app_nil_r. repeat split; try assumption.
    + intros h Hh. apply Hwf. exact Hh.
    + intros h Hh Hnh. contradiction.
  - cbv zeta. simpl dead_loop.
    destruct (lookup_lt_is_Some_2 (deadProcesses st) m ltac:(lia))
      as [d Hd].
    unfold CFArrayGetValueAtIndex at 1. simpl deadProcessPtr.
    simpl deadProcesses.
    destruct (Z.ltb_spec (Z.of_nat m) 0); [lia|].
    rewrite Nat2Z.id, Hd. bind_some. simpl deathHandlers.
    rewrite Harr. bind_some.
    replace (Z.to_nat (CFArrayGetCount l)) with (length l)
      by (unfold CFArrayGetCount; lia).
    destruct (handlers_loop_spec rec d l [] (set_deadProcessPtr (Z.of_nat m)
                                                                st))
      as (st1 & Hrun & Hrest & Hkept & Hgone & Hother & Hcalls & Hdead
          & Hptr).
    { simpl. rewrite app_nil_r. exact Harr. }
    { rewrite app_nil_r. exact Hnd. }
    { intros h Hh. rewrite app_nil_r in Hh. simpl. apply Hwf. exact Hh. }
    rewrite app_nil_r in Hrest, Hkept. simpl in Hother, Hcalls, Hdead, Hptr.
    rewrite Hrun. bind_some.
    set (l1 := List.filter (fun h => negb (handler_pid (rec h) =? pid d)) l)
      in *.
    destruct (IH st1 l1) as (st' & Hrun' & Hrest' & Hcalls' & Hkept' & Hgone'
                             & Hother' & Hptr' & Hdead').
    { rewrite Hdead. lia. }
    { exact Hrest. }
    { apply NoDup_List_filter. exact Hnd. }
    { intros h Hh. split; [|apply Hkept; exact Hh].
      apply elem_of_List_filter in Hh as [Hh _]. apply Hwf. exact Hh. }
    rewrite (take_S_r _ _ _ Hd), rev_unit. simpl dispatch. fold l1.
    rewrite Hdead in *. cbv zeta in *.
    set (r := dispatch rec (rev (take m (deadProcesses st))) l1) in *.
    exists st'. split; [exact Hrun'|]. simpl fst. simpl snd.
    split; [exact Hrest'|].
    split; [rewrite Hcalls', Hcalls, <- app_assoc; reflexivity|].
    split; [exact Hkept'|]. split; [|split; [|split]].
    + intros h Hh Hnh.
      destruct (decide (h ∈ l1)) as [Hin|Hout]; [apply Hgone'; assumption|].
      rewrite (Hother' h Hout). apply Hgone; [exact Hh|].
      destruct (handler_pid (rec h) =? pid d) eqn:Hm; [reflexivity|].
      exfalso. apply Hout. apply elem_of_List_filter. rewrite Hm. tauto.
    + intros h Hh. rewrite Hother'.
      * apply Hother. exact Hh.
      * intros Hin. apply elem_of_List_filter in Hin. tauto.
    + rewrite Hptr'. destruct m; [exact Hptr|reflexivity].
    + exact Hdead'.
Qed.

Lemma List_filter_filter {A : Type} (f g : A -> bool) (l : list A) :
  List.filter f (List.filter g l) = List.filter (fun x => g x && f x) l.
Proof. trim.
  induction l as [|x l IH]; simpl; [reflexivity|].
  destruct (g x); simpl; [|exact IH]. destruct (f x); congruence.
Qed.

Lemma dispatch_fst (rec : wptr -> DeathHandler) (stack : list DeadProcesses) :
  forall l : list wptr,
    fst (dispatch rec stack l)
    = List.filter
        (fun h => forallb (fun d => negb (handler_pid (rec h) =? pid d)) stack)
        l.
Proof. trim.
  induction stack as [|d below IH]; intros l; simpl.
  - symmetry. apply forallb_filter_id. apply forallb_forall. reflexivity.
  - rewrite IH, List_filter_filter. reflexivity.
Qed.

Lemma dispatch_snd_elem (rec : wptr -> DeathHandler)
    (stack : list DeadProcesses) :
  forall (l : list wptr) (c : EventCall),
    c ∈ snd (dispatch rec stack l)
    <-> exists (h : wptr) (d : DeadProcesses),
          h ∈ l
          /\ find (fun d => handler_pid (rec h) =? pid d) stack = Some d
          /\ c = death_call (rec h) d.
Proof. trim.
  induction stack as [|d below IH]; intros l c; simpl.
  - split; [intros Hc; inversion Hc|]. intros (h & d & _ & Hf & _).
    discriminate.
  - rewrite elem_of_app, IH, list_elem_of_fmap. split.
    + intros [(h & -> & Hh)|(h & d' & Hh & Hf & ->)].
      * rewrite list_elem_of_In, <- in_rev, <- list_elem_of_In in Hh.
        apply elem_of_List_filter in Hh as [Hh Hm].
        exists h, d. rewrite Hm. tauto.
      * apply elem_of_List_filter in Hh as [Hh Hm].
        apply negb_true_iff in Hm.
        exists h, d'. rewrite Hm. tauto.
    + intros (h & d' & Hh & Hf & ->).
      destruct (handler_pid (rec h) =? pid d) eqn:Hm.
      * injection Hf as <-. left. exists h. split; [reflexivity|].
        rewrite list_elem_of_In, <- in_rev, <- list_elem_of_In.
        apply elem_of_List_filter. tauto.
      * right. exists h, d'. split; [|tauto].
        apply elem_of_List_filter. rewrite Hm. tauto.
Qed.

Lemma dispatch_snd_length (rec : wptr -> DeathHandler)
    (stack : list DeadProcesses) :
  forall l : list wptr,
    (length (snd (dispatch rec stack l)) + length (fst (dispatch rec stack l))
     = length l)%nat.
Proof. trim.
  induction stack as [|d below IH]; intros l; simpl; [reflexivity|].
  rewrite length_app, length_fmap, length_rev.
  pose proof (IH (List.filter
                    (fun h => negb (handler_pid (rec h) =? pid d)) l)) as Hb.
  pose proof (List.filter_length
                (fun h => handler_pid (rec h) =? pid d) l) as Hsplit.
  lia.
Qed.

Lemma wAddDeathHandler_wf (handler : wptr) (p : Z) (cb cdata : N)
    (st : EventState) :
  handlers_wf st ->
  handler_heap st !! handler = None ->
  handler <> 0%N ->
  handlers_wf (fst (wAddDeathHandler handler p cb cdata st)).
Proof. trim.
  intros Hwf Hfresh Hnz. unfold wAddDeathHandler.
  destruct (N.eqb_spec handler 0) as [?|_]; [contradiction|].
  unfold handlers_wf in *. simpl.
  assert (Hold : forall l, deathHandlers st = Some l -> handler ∉ l).
  { intros l Hl Hin. rewrite Hl in Hwf. destruct Hwf as [_ Hlive].
    destruct (Hlive handler Hin) as [_ [r Hr]].
    discriminate (eq_trans (eq_sym Hr) Hfresh). }
  destruct (deathHandlers st) as [l|] eqn:Hl.
  - destruct Hwf as [Hnd Hlive]. split.
    + apply NoDup_app. split; [exact Hnd|]. split.
      * intros x Hx Hxh. apply list_elem_of_singleton in Hxh as ->.
        exact (Hold l eq_refl Hx).
      * apply NoDup_singleton.
    + intros h Hh. apply elem_of_app in Hh as [Hh|Hh].
      * destruct (Hlive h Hh) as [Hhz Hsome]. split; [exact Hhz|].
        rewrite lookup_insert_ne; [exact Hsome|].
        intros ->. exact (Hold l eq_refl Hh).
      * apply list_elem_of_singleton in Hh as ->.
        split; [exact Hnz|]. rewrite lookup_insert_eq. eauto.
  - simpl. split; [apply NoDup_singleton|].
    intros h Hh. apply list_elem_of_singleton in Hh as ->.
    split; [exact Hnz|]. rewrite lookup_insert_eq. eauto.
Qed.

(** X24.  [wAddDeathHandler], given a block that [malloc] has just
    allocated, appends the handler to the array (creating the array when
    there is none), stores the three values in it, returns its address,
    and keeps the handlers distinct live blocks; when [malloc] fails it
    returns 0 and changes nothing. *)
Theorem wAddDeathHandler_registers (handler : wptr) (p : Z) (cb cdata : N)
    (st : EventState) :
  handlers_wf st ->
  handler_heap st !! handler = None ->
  let r := wAddDeathHandler handler p cb cdata st in
  (handler = 0%N -> r = (st, 0%N))
  /\ (handler <> 0%N ->
      snd r = handler
      /\ deathHandlers (fst r)
         = Some (match deathHandlers st with Some l => l | None => [] end
                 ++ [handler])
      /\ handler_heap (fst r) !! handler = Some (mkDeathHandler cb p cdata)
      /\ (forall h, h <> handler ->
                    handler_heap (fst r) !! h = handler_heap st !! h)
      /\ handlers_wf (fst r)
      /\ deadProcesses (fst r) = deadProcesses st
      /\ deadProcessPtr (fst r) = deadProcessPtr st
      /\ event_calls (fst r) = event_calls st).
Proof. trim.
  intros Hwf Hfresh r. subst r. split.
  - intros ->. reflexivity.
  - intros Hnz.
    pose proof (wAddDeathHandler_wf handler p cb cdata st Hwf Hfresh Hnz)
      as Hwf'.
    revert Hwf'. unfold wAddDeathHandler.
    destruct (N.eqb_spec handler 0) as [?|_]; [contradiction|].
    simpl. intros Hwf'. split; [reflexivity|]. split; [reflexivity|].
    split; [apply lookup_insert_eq|].
    split; [intros h Hh; apply lookup_insert_ne; congruence|].
    split; [exact Hwf'|]. tauto.
Qed.

(** Below the bound, [NotifyDeadProcess] pushes the process. *)
Lemma NotifyDeadProcess_push (p status : Z) (st : EventState) :
  stack_wf st ->
  deadProcessPtr st < MAX_DEAD_PROCESSES - 1 ->
  let st' := NotifyDeadProcess p status st in
  dead_stack st' = dead_stack st ++ [mkDeadProcesses p status]
  /\ deadProcessPtr st' = deadProcessPtr st + 1
  /\ length (deadProcesses st') = length (deadProcesses st)
  /\ handler_heap st' = handler_heap st
  /\ deathHandlers st' = deathHandlers st
  /\ event_calls st' = event_calls st.
Proof.
  clear - MAX_DEAD_PROCESSES.
  intros [Hlen Hptr] Hroom. unfold NotifyDeadProcess, dead_stack.
  destruct (Z.geb_spec (deadProcessPtr st) (MAX_DEAD_PROCESSES - 1)); [lia|].
  simpl. destruct (Z.ltb_spec (deadProcessPtr st) 0); [lia|].
  rewrite length_insert. split; [|tauto].
  replace (Z.to_nat (deadProcessPtr st + 1))
    with (S (Z.to_nat (deadProcessPtr st))) by lia.
  assert (Hin : (Z.to_nat (deadProcessPtr st)
                 < length (deadProcesses st))%nat) by lia.
  rewrite (take_S_r _ _ (mkDeadProcesses p status)).
  - rewrite take_insert_ge by lia. reflexivity.
  - apply list_lookup_insert_eq. exact Hin.
Qed.

(** X25.  The stack of dead processes never overflows, and its last
    slot is never used: [NotifyDeadProcess] keeps the stack pointer
    between 0 and [MAX_DEAD_PROCESSES - 1]; below that bound it pushes
    the process on top of the stack, and at the bound the notification
    is dropped. *)
Theorem NotifyDeadProcess_bounded (p status : Z) (st : EventState) :
  stack_wf st ->
  stack_wf (NotifyDeadProcess p status st)
  /\ (deadProcessPtr st < MAX_DEAD_PROCESSES - 1 ->
      dead_stack (NotifyDeadProcess p status st)
      = dead_stack st ++ [mkDeadProcesses p status]
      /\ deadProcessPtr (NotifyDeadProcess p status st)
         = deadProcessPtr st + 1)
  /\ (deadProcessPtr st = MAX_DEAD_PROCESSES - 1 ->
      NotifyDeadProcess p status st = st)
  /\ handler_heap (NotifyDeadProcess p status st) = handler_heap st
  /\ deathHandlers (NotifyDeadProcess p status st) = deathHandlers st
  /\ event_calls (NotifyDeadProcess p status st) = event_calls st.
Proof.
  clear - MAX_DEAD_PROCESSES.
  intros Hwf.
  destruct (Z_lt_le_dec (deadProcessPtr st) (MAX_DEAD_PROCESSES - 1))
    as [Hroom|Hfull].
  - destruct (NotifyDeadProcess_push p status st Hwf Hroom)
      as (Hstack & Hptr & Hlen & Hheap & Harr & Hcalls).
    destruct Hwf as [Hsize Hrange].
    split; [unfold stack_wf; rewrite Hlen, Hptr; lia|].
    split; [tauto|]. split; [lia|]. tauto.
  - assert (Hnop : NotifyDeadProcess p status st = st).
    { unfold NotifyDeadProcess.
      destruct (Z.geb_spec (deadProcessPtr st) (MAX_DEAD_PROCESSES - 1));
        [reflexivity|lia]. }
    rewrite Hnop. split; [exact Hwf|]. split; [lia|]. tauto.
Qed.

Lemma for_dead_process_spec (st : EventState) (h : wptr) (r : DeathHandler) :
  handler_heap st !! h = Some r ->
  negb (for_dead_process st h)
  = forallb (fun d => negb (handler_pid r =? pid d)) (rev (dead_stack st)).
Proof. trim.
  intros Hr. unfold for_dead_process. rewrite Hr.
  destruct (existsb _ _) eqn:Hex; simpl; symmetry.
  - apply existsb_exists in Hex as (d & Hd & Hm).
    apply not_true_is_false. intros Hall.
    rewrite forallb_forall in Hall.
    specialize (Hall d (proj1 (in_rev _ _) Hd)). rewrite Hm in Hall.
    discriminate.
  - apply forallb_forall. intros d Hd. apply in_rev in Hd.
    apply negb_true_iff. apply not_true_is_false. intros Hm.
    assert (Hex' : existsb (fun d => handler_pid r =? pid d) (dead_stack st)
                   = true) by (apply existsb_exists; eauto).
    congruence.
Qed.

(** [handleDeadProcess] on handlers that are distinct live blocks
    described by [rec], in terms of [dispatch]. *)
Lemma handleDeadProcess_dispatch (rec : wptr -> DeathHandler)
    (st : EventState) (l : list wptr) :
  0 <= deadProcessPtr st <= Z.of_nat (length (deadProcesses st)) ->
  deathHandlers st = Some l ->
  NoDup l ->
  (forall h, h ∈ l -> h <> 0%N /\ handler_heap st !! h = Some (rec h)) ->
  let r := dispatch rec (rev (dead_stack st)) l in
  exists st' : EventState,
    handleDeadProcess st = Some st'
    /\ deadProcessPtr st' = 0
    /\ deathHandlers st' = Some (fst r)
    /\ event_calls st'
       = event_calls st
         ++ (DeleteSavedStatesForPID <$> (pid <$> dead_stack st))
         ++ snd r
    /\ (forall h, h ∈ fst r -> handler_heap st' !! h = Some (rec h))
    /\ (forall h, h ∈ l -> (h ∉ fst r) -> handler_heap st' !! h = None).
Proof. trim.
  intros Hptr Harr Hnd Hrec.
  set (st1 := mkEventState
                (deadProcesses st) (deadProcessPtr st) (handler_heap st)
                (deathHandlers st)
                (event_calls st
                 ++ (DeleteSavedStatesForPID <$> (pid <$> dead_stack st)))).
  assert (Hhandle : handleDeadProcess st
                    = dead_loop (Z.to_nat (deadProcessPtr st)) st1).
  { unfold handleDeadProcess.
    pose proof (saved_states_loop_spec (Z.to_nat (deadProcessPtr st)) 0 st)
      as Hsaved.
    change (Z.of_nat 0) with 0 in Hsaved. rewrite Hsaved by (simpl; lia).
    bind_some. simpl deathHandlers. subst st1. unfold dead_stack.
    rewrite Harr, drop_0. reflexivity. }
  rewrite Hhandle.
  destruct (dead_loop_spec rec (Z.to_nat (deadProcessPtr st)) st1 l)
    as (st' & Hrun & Hrest & Hcalls & Hkept & Hgone & Hother & Hptr'
        & Hdead).
  { subst st1. simpl. lia. }
  { exact Harr. }
  { exact Hnd. }
  { exact Hrec. }
  cbv zeta in *. subst st1. simpl deadProcesses in *.
  simpl event_calls in *. simpl handler_heap in *.
  simpl deadProcessPtr in *. fold (dead_stack st) in *.
  exists st'. split; [exact Hrun|]. split.
  { rewrite Hptr'. destruct (Z.to_nat (deadProcessPtr st)) eqn:Hz;
      [lia|reflexivity]. }
  split; [exact Hrest|].
  split; [rewrite Hcalls, <- app_assoc; reflexivity|].
  split; [exact Hkept|exact Hgone].
Qed.

(** X26.  What [handleDeadProcess] does with the stack when handlers are
    registered.  On a stack pointer within the array and handlers that
    are distinct live blocks, it returns with the stack empty; it has
    called [wWindowDeleteSavedStatesForPID] for every process of the
    stack, the oldest first, and then the callbacks; a handler stays in
    the array, in its place, exactly when no process of the stack has
    its pid, and every other handler is removed and freed; there is one
    callback for each handler removed, and it is given the pid and the
    client data of the handler and the exit status of the newest process
    of the stack with that pid. *)
Theorem handleDeadProcess_dispatches (st : EventState) (l : list wptr) :
  0 <= deadProcessPtr st <= Z.of_nat (length (deadProcesses st)) ->
  deathHandlers st = Some l ->
  handlers_wf st ->
  exists (st' : EventState) (cbs : list EventCall),
    handleDeadProcess st = Some st'
    /\ deadProcessPtr st' = 0
    /\ deathHandlers st'
       = Some (List.filter (fun h => negb (for_dead_process st h)) l)
    /\ (forall h, h ∈ l ->
                  handler_heap st' !! h
                  = if for_dead_process st h then None
                    else handler_heap st !! h)
    /\ event_calls st'
       = event_calls st
         ++ (DeleteSavedStatesForPID <$> (pid <$> dead_stack st))
         ++ cbs
    /\ length cbs
       = length (List.filter (fun h => for_dead_process st h) l)
    /\ forall c : EventCall,
         c ∈ cbs
         <-> exists (h : wptr) (r : DeathHandler) (d : DeadProcesses),
               h ∈ l
               /\ handler_heap st !! h = Some r
               /\ find (fun d => handler_pid r =? pid d)
                       (rev (dead_stack st)) = Some d
               /\ c = death_call r d.
Proof. trim.
  intros Hptr Harr Hwf. unfold handlers_wf in Hwf. rewrite Harr in Hwf.
  destruct Hwf as [Hnd Hlive].
  set (rec := fun h => default (mkDeathHandler 0 0 0) (handler_heap st !! h)).
  assert (Hrec : forall h, h ∈ l ->
            h <> 0%N /\ handler_heap st !! h = Some (rec h)).
  { intros h Hh. destruct (Hlive h Hh) as [Hnz [r Hr]].
    split; [exact Hnz|]. subst rec. simpl. rewrite Hr. reflexivity. }
  destruct (handleDeadProcess_dispatch rec st l Hptr Harr Hnd Hrec)
    as (st' & Hrun & Hptr' & Hrest & Hcalls & Hkept & Hgone).
  cbv zeta in *.
  set (r := dispatch rec (rev (dead_stack st)) l) in *.
  assert (Hkeep : forall h, h ∈ l ->
            forallb (fun d => negb (handler_pid (rec h) =? pid d))
                    (rev (dead_stack st))
            = negb (for_dead_process st h)).
  { intros h Hh. symmetry. apply for_dead_process_spec.
    apply (Hrec h Hh). }
  assert (Hfst : fst r
                 = List.filter (fun h => negb (for_dead_process st h)) l).
  { subst r. rewrite dispatch_fst. apply List.filter_ext_in.
    intros h Hh. apply Hkeep. apply list_elem_of_In. exact Hh. }
  exists st', (snd r). split; [exact Hrun|]. split; [exact Hptr'|].
  split; [rewrite Hrest, Hfst; reflexivity|]. split.
  { intros h Hh. destruct (for_dead_process st h) eqn:Hd.
    - apply Hgone; [exact Hh|]. rewrite Hfst.
      intros Hin. apply elem_of_List_filter in Hin as [_ Hin].
      rewrite Hd in Hin. discriminate.
    - transitivity (Some (rec h));
        [|symmetry; exact (proj2 (Hrec h Hh))].
      apply Hkept. rewrite Hfst.
      apply elem_of_List_filter. rewrite Hd. tauto. }
  split; [exact Hcalls|]. split.
  { pose proof (dispatch_snd_length rec (rev (dead_stack st)) l) as Hlen.
    fold r in Hlen. rewrite Hfst in Hlen.
    pose proof (List.filter_length (fun h => for_dead_process st h) l)
      as Hsplit.
    lia. }
  intros c. subst r. rewrite dispatch_snd_elem. split.
  - intros (h & d & Hh & Hf & ->). exists h, (rec h), d.
    split; [exact Hh|]. split; [apply (Hrec h Hh)|]. tauto.
  - intros (h & r & d & Hh & Hr & Hf & ->). exists h, d.
    assert (Hrh : rec h = r).
    { destruct (Hrec h Hh) as [_ Hrr].
      injection (eq_trans (eq_sym Hrr) Hr) as E. exact E. }
    rewrite Hrh. tauto.
Qed.

(** X27.  Registering for a process, its death, and the dispatch.  A
    handler registered with [wAddDeathHandler] for a pid, on a stack
    with room, followed by [NotifyDeadProcess] for that pid and by
    [handleDeadProcess]: the callback of the handler is called with the
    pid, the exit status notified and the client data; the handler is
    removed from the array and freed; and the stack is empty. *)
Theorem death_notice_round_trip (handler : wptr) (p status : Z)
    (cb cdata : N) (st : EventState) :
  handlers_wf st ->
  stack_wf st ->
  deadProcessPtr st < MAX_DEAD_PROCESSES - 1 ->
  handler <> 0%N ->
  handler_heap st !! handler = None ->
  let st1 := fst (wAddDeathHandler handler p cb cdata st) in
  let st2 := NotifyDeadProcess p status st1 in
  exists (st3 : EventState) (l3 : list wptr),
    handleDeadProcess st2 = Some st3
    /\ DeathCallback cb p status cdata ∈ event_calls st3
    /\ deathHandlers st3 = Some l3
    /\ (handler ∉ l3)
    /\ handler_heap st3 !! handler = None
    /\ deadProcessPtr st3 = 0.
Proof.
  clear - MAX_DEAD_PROCESSES.
  intros Hwf Hstack Hroom Hnz Hfresh st1 st2.
  pose proof (wAddDeathHandler_wf handler p cb cdata st Hwf Hfresh Hnz)
    as Hwf1.
  fold st1 in Hwf1.
  set (l := match deathHandlers st with Some l => l | None => [] end
            ++ [handler]).
  assert (Hst1 : deathHandlers st1 = Some l
                 /\ handler_heap st1 !! handler
                    = Some (mkDeathHandler cb p cdata)
                 /\ deadProcesses st1 = deadProcesses st
                 /\ deadProcessPtr st1 = deadProcessPtr st).
  { subst st1 l. unfold wAddDeathHandler.
    destruct (N.eqb_spec handler 0) as [?|_]; [contradiction|].
    simpl. split; [reflexivity|]. split; [apply lookup_insert_eq|].
    tauto. }
  destruct Hst1 as (Harr1 & Hheap1 & Hdead1 & Hptr1).
  assert (Hstack1 : stack_wf st1).
  { unfold stack_wf. rewrite Hdead1, Hptr1. exact Hstack. }
  destruct (NotifyDeadProcess_push p status st1 Hstack1 ltac:(lia))
    as (Hstk2 & Hptr2 & Hlen2 & Hheap2 & Harr2 & _).
  fold st2 in Hstk2, Hptr2, Hlen2, Hheap2, Harr2.
  unfold handlers_wf in Hwf1. rewrite Harr1 in Hwf1.
  destruct Hwf1 as [Hnd Hlive].
  set (rec := fun h => default (mkDeathHandler 0 0 0)
                               (handler_heap st2 !! h)).
  assert (Hrec : forall h, h ∈ l ->
            h <> 0%N /\ handler_heap st2 !! h = Some (rec h)).
  { intros h Hh. destruct (Hlive h Hh) as [Hhz [r Hr]].
    split; [exact Hhz|]. subst rec. simpl. rewrite Hheap2.
    rewrite Hr. reflexivity. }
  assert (Hrange : 0 <= deadProcessPtr st2
                   <= Z.of_nat (length (deadProcesses st2))).
  { destruct Hstack1 as [Hsize Hbound]. rewrite Hptr2, Hlen2. lia. }
  destruct (handleDeadProcess_dispatch
              rec st2 l Hrange ltac:(rewrite Harr2; exact Harr1) Hnd Hrec)
    as (st3 & Hrun & Hptr3 & Harr3 & Hcalls3 & _ & Hgone).
  cbv zeta in *.
  assert (Hin : handler ∈ l).
  { subst l. apply elem_of_app. right. left. }
  assert (Hrh : rec handler = mkDeathHandler cb p cdata).
  { subst rec. simpl. rewrite Hheap2.
    change (default (mkDeathHandler 0 0 0) (handler_heap st1 !! handler)
            = mkDeathHandler cb p cdata).
    rewrite Hheap1. reflexivity. }
  assert (Hout : handler ∉ fst (dispatch rec (rev (dead_stack st2)) l)).
  { rewrite dispatch_fst, Hstk2, rev_unit. intros Hkept.
    apply elem_of_List_filter in Hkept as [_ Hkept].
    simpl in Hkept. rewrite Hrh in Hkept. simpl in Hkept.
    rewrite Z.eqb_refl in Hkept. discriminate. }
  exists st3, (fst (dispatch rec (rev (dead_stack st2)) l)).
  split; [exact Hrun|]. split; [|split; [exact Harr3|split; [exact Hout|]]].
  - rewrite Hcalls3, !elem_of_app. right. right.
    apply dispatch_snd_elem.
    exists handler, (mkDeadProcesses p status).
    split; [exact Hin|]. rewrite Hrh. split; [|reflexivity].
    rewrite Hstk2, rev_unit. simpl. rewrite Z.eqb_refl. reflexivity.
  - split; [|exact Hptr3]. apply Hgone; assumption.
Qed.

(** X28.  A double click is not counted twice.  When [IsDoubleClick]
    reports a double click it forgets the time of the last click and
    marks the next click, so that the call that follows, for any event,
    reports none and leaves the click fields as they are; and a call
    that reports none changes nothing. *)
Theorem IsDoubleClick_not_twice (scr : ClickState) (event : XButtonEvent) :
  (snd (IsDoubleClick scr event) = true ->
   last_click_time (fst (IsDoubleClick scr event)) = 0
   /\ next_click_is_not_double (fst (IsDoubleClick scr event)) = true
   /\ last_click_window scr = xbutton_window event
   /\ last_click_button scr = xbutton_button event
   /\ forall event' : XButtonEvent,
        IsDoubleClick (fst (IsDoubleClick scr event)) event'
        = (fst (IsDoubleClick scr event), false))
  /\ (snd (IsDoubleClick scr event) = false ->
      fst (IsDoubleClick scr event) = scr).
Proof. trim.
  destruct (IsDoubleClick scr event) as [scr' b] eqn:Hcall.
  unfold IsDoubleClick in Hcall. simpl fst. simpl snd.
  destruct (_ && _ && _ && _) eqn:Htest; injection Hcall as <- <-.
  - split; [|discriminate]. intros _.
    apply andb_true_iff in Htest as [Htest Hw].
    apply andb_true_iff in Htest as [_ Hb].
    apply Z.eqb_eq in Hw, Hb.
    split; [reflexivity|]. split; [reflexivity|].
    split; [congruence|]. split; [congruence|].
    intros event'. reflexivity.
  - split; [discriminate|reflexivity].
Qed.

End Model.

(** * Requests made while a transition runs *)

Section Reentrancy.

Variable wPreferences : WPreferences.
Variable MAX_WORKSPACES : Z.
Variable NSMainMenuWindowLevel : Z.
Variable wWindowMap : WWindow -> WWindow.
Variable wWindowUnmap : WWindow -> WWindow.
Variable wWindowChangeWorkspace : WWindow -> Z -> WWindow.
(** A handler run by the event flush: it does [before], asks for a
    change to [workspace'] through [wWorkspaceChange], then does [after];
    [nested] is what a nested flush would run.  [before] leaves the flag
    alone. *)
Variable before : WScreen -> WScreen.
Variable after : WScreen -> WScreen.
Variable nested : WScreen -> WScreen.
Variable workspace' : Z.
Variable focus_win' : option WWindow.
Hypothesis before_keeps_flag :
  forall s : WScreen, ignore_focus_events (before s) = ignore_focus_events s.

(** C4 (as amended).  [wWorkspaceChange] on a screen whose
    [ignore_focus_events] flag is set returns the screen unchanged.  The
    flag is set for the event flush of a transition, so a request made
    through [wWorkspaceChange] by a handler run during the flush changes
    nothing: the transition is the one obtained when the handler makes no
    request.  The flag is clear again as soon as the flush returns. *)
Theorem reentrant_change_ignored (scr : WScreen) (workspace : Z)
    (focus_win : option WWindow) :
  (forall s : WScreen,
     ignore_focus_events s = true ->
     wWorkspaceChange wPreferences MAX_WORKSPACES NSMainMenuWindowLevel
                      wWindowMap wWindowUnmap wWindowChangeWorkspace nested
                      s workspace' focus_win' = s)
  /\ wWorkspaceForceChange wPreferences MAX_WORKSPACES NSMainMenuWindowLevel
       wWindowMap wWindowUnmap wWindowChangeWorkspace
       (fun s => after
                   (wWorkspaceChange wPreferences MAX_WORKSPACES
                      NSMainMenuWindowLevel wWindowMap wWindowUnmap
                      wWindowChangeWorkspace nested (before s) workspace'
                      focus_win'))
       scr workspace focus_win
     = wWorkspaceForceChange wPreferences MAX_WORKSPACES NSMainMenuWindowLevel
         wWindowMap wWindowUnmap wWindowChangeWorkspace
         (fun s => after (before s)) scr workspace focus_win
  /\ (forall s : WScreen,
        ignore_focus_events (flush_events (fun s' => after (before s')) s)
        = false).
Proof.
  assert (Hnoop : forall s : WScreen,
             ignore_focus_events s = true ->
             wWorkspaceChange wPreferences MAX_WORKSPACES NSMainMenuWindowLevel
               wWindowMap wWindowUnmap wWindowChangeWorkspace nested
               s workspace' focus_win' = s).
  { intros s Hflag. unfold wWorkspaceChange. rewrite Hflag.
    rewrite !orb_true_r. reflexivity. }
  assert (Hflush : forall s : WScreen,
             flush_events
               (fun s => after
                           (wWorkspaceChange wPreferences MAX_WORKSPACES
                              NSMainMenuWindowLevel wWindowMap wWindowUnmap
                              wWindowChangeWorkspace nested (before s)
                              workspace' focus_win')) s
             = flush_events (fun s => after (before s)) s).
  { intros s. unfold flush_events.
    rewrite Hnoop; [reflexivity|]. rewrite before_keeps_flag. reflexivity. }
  split; [exact Hnoop|]. split; [|reflexivity].
  unfold wWorkspaceForceChange.
  destruct ((workspace >=? MAX_WORKSPACES) || (workspace <? 0)
            || (workspace =? current_workspace scr)); [reflexivity|].
  destruct (focused_window
              (force_change_begin wPreferences MAX_WORKSPACES scr workspace));
    [reflexivity|].
  destruct (force_change_remap wPreferences NSMainMenuWindowLevel wWindowMap
              wWindowUnmap wWindowChangeWorkspace
              (force_change_begin wPreferences MAX_WORKSPACES scr workspace)
              workspace) as [s0 foc0].
  rewrite Hflush. reflexivity.
Qed.

End Reentrancy.

(** * Concrete runs *)

(** The concrete runs use these collaborators and limits. *)
Local Abbreviation transition :=
  (wWorkspaceForceChange prefs_clip 16 20 map_window unmap_window move_window
                         id).
Local Abbreviation request :=
  (wWorkspaceChange prefs_clip 16 20 map_window unmap_window move_window id).
(** The state in which the event flush of [transition screen2 1] leaves
    the screen. *)
Local Abbreviation flushed2 :=
  (flush_events id
     (fst (force_change_remap prefs_clip 20 map_window unmap_window
             move_window (force_change_begin prefs_clip 16 screen2 1) 1))).

Lemma wInitSwitchPanel_current_witness :
  exists panel : WSwitchPanel,
    wInitSwitchPanel prefs_drawn fresh_panel [1%N; 2%N; 3%N] 1024 2%N
    = Some panel
    /\ windows panel = [1%N; 2%N; 3%N]
    /\ current panel = CFArrayGetFirstIndexOfValue [1%N; 2%N; 3%N] 2%N
    /\ (2%N ∈ [1%N; 2%N; 3%N] ->
        live panel
        /\ CFArrayGetValueAtIndex [1%N; 2%N; 3%N] (current panel) = Some 2%N)
    /\ (2%N ∉ [1%N; 2%N; 3%N] -> current panel = kCFNotFound).
Proof.
  apply (wInitSwitchPanel_current prefs_drawn fresh_panel [1%N; 2%N; 3%N]
           1024 2%N); [reflexivity|discriminate].
Defined.

(** C1, counterexample.  A hint window that is not a candidate leaves
    [current] at -1, outside the candidate array, and not at 0.  When no
    panel is drawn, the function returns before [current] is assigned: a
    hint at index 1 leaves [current] as the allocation had it. *)
Lemma wInitSwitchPanel_absent_hint :
  current <$> wInitSwitchPanel prefs_drawn fresh_panel [1%N] 1024 2%N
  = Some (-1)
  /\ current <$> wInitSwitchPanel prefs_clip fresh_panel [1%N; 2%N; 3%N]
                                  1024 2%N
     = Some (current fresh_panel)
  /\ CFArrayGetFirstIndexOfValue [1%N; 2%N; 3%N] 2%N = 1
  /\ current fresh_panel = 0.
Proof. repeat split. Qed.

Lemma select_next_cyclic_closure_witness :
  (exists panel' : WSwitchPanel,
     select_next_times prefs_drawn heap3 screen1 0 (length (windows panel3))
                       panel3 false false false = Some panel'
     /\ current panel' = current panel3)
  /\ (exists (panel' : WSwitchPanel) (w : wptr),
        wSwitchPanelSelectNext prefs_drawn heap3 screen1 0 panel1 true true
                               true = Some (panel', Some w)
        /\ current panel' = current panel1
        /\ CFArrayGetValueAtIndex (windows panel1) (current panel1) = Some w).
Proof.
  split.
  - apply (proj1 (select_next_cyclic_closure prefs_drawn heap3 screen1 0
                    panel3 false false
                    ltac:(unfold live, CFArrayGetCount; simpl; lia)));
      reflexivity.
  - apply (proj2 (select_next_cyclic_closure prefs_drawn heap3 screen1 0
                    panel1 true true
                    ltac:(unfold live, CFArrayGetCount; simpl; lia)) true);
      reflexivity.
Defined.

(** C7, counterexample.  Starting from index 0 of three candidates,
    three calls in one direction do not come back to index 0 when a
    filter is on: under [class_only] the window of the other class is
    skipped and the calls end on index 1; under [ignore_minimized] the
    miniaturized window is skipped and they end on index 2. *)
Lemma select_next_filtered_not_closed :
  current panel3 = 0
  /\ length (windows panel3) = 3%nat
  /\ current <$> select_next_times prefs_drawn heap3 screen1 0 3 panel3
                                    false false true
     = Some 1
  /\ current <$> select_next_times prefs_drawn heap_minimized screen1 0 3
                                    panel3 false true false
     = Some 2.
Proof. vm_compute. auto. Qed.

(** A session left at -1 by an absent hint does not cycle: the call
    returns NULL and the panel as it was. *)
Example select_next_without_current :
  wSwitchPanelSelectNext prefs_drawn heap3 screen1 0
                         (mkPanel [1%N] [0] (-1) 0 1 true) false false false
  = Some (mkPanel [1%N] [0] (-1) 0 1 true, None).
Proof. reflexivity. Qed.

(** Five candidates, the fourth one current: one step forward selects
    the last one, the next step wraps to the first. *)
Example select_next_wraps :
  current <$> select_next_times prefs_drawn heap3 screen1 0 1 panel5
                                false false false
  = Some 4
  /\ current <$> select_next_times prefs_drawn heap3 screen1 0 2 panel5
                                   false false false
     = Some 0.
Proof. vm_compute. auto. Qed.

Lemma select_next_class_only_witness :
  exists (panel' : WSwitchPanel) (w seed : wptr),
    wSwitchPanelSelectNext prefs_drawn heap3 screen1 0 panel3 false false true
    = Some (panel', Some w)
    /\ CFArrayGetValueAtIndex (windows panel3) (current panel3) = Some seed
    /\ CFArrayGetValueAtIndex (windows panel') (current panel') = Some w
    /\ (current panel' = current panel3
        \/ sameWindowClass (heap3 w) (heap3 seed) = true).
Proof.
  destruct (select_next_class_only prefs_drawn heap3 screen1 0 panel3 false
              false ltac:(unfold live, CFArrayGetCount; simpl; lia))
    as [Hreturns Hclass].
  destruct (Hreturns eq_refl) as (panel' & w & Hcall).
  destruct (Hclass panel' (Some w) Hcall)
    as (w' & seed & Hr & Hseed & Hw & Hsame & _).
  injection Hr as <-.
  exists panel', w, seed. auto.
Defined.

(** On a drawn panel, the call that stops on a candidate whose title
    cannot be read ends in a read through a NULL pointer: [wwin->frame]
    of the frameless window 2 when cycling within a class, [wwin->wm_class]
    of the classless window 3, handed to [strcmp], when cycling through
    all candidates.  When no panel is drawn the title is not read and the
    window is returned. *)
Example select_next_bare_window :
  wSwitchPanelSelectNext prefs_drawn heap_bare screen1 0 panel3 false false
                         true
  = None
  /\ snd <$> wSwitchPanelSelectNext prefs_drawn heap_bare screen1 0 panel3
                                    false false false
     = Some (Some 2%N)
  /\ select_next_times prefs_drawn heap_bare screen1 0 2 panel3 false false
                       false
     = None
  /\ snd <$> wSwitchPanelSelectNext prefs_clip heap_bare screen1 0
                                    (mkPanel [1%N; 2%N; 3%N] [0; 0; 0] 0 0 3
                                             false)
                                    false false true
     = Some (Some 2%N).
Proof. vm_compute. auto. Qed.

Lemma wWorkspaceRename_stores_and_notifies_witness :
  name <$> workspace_at (wWorkspaceRename 64 screen1 0 "   ") 0
  = Some (rename_buf 64 0 "   ")
  /\ calls (wWorkspaceRename 64 screen1 0 "   ")
     = calls screen1
       ++ [PostNotification WMDidChangeWorkspaceNameNotification 0]
  /\ (String.length (rename_buf 64 0 "   ") <= 64)%nat
  /\ (wtrimspace "   " <> EmptyString ->
      rename_buf 64 0 "   " = String.substring 0 64 (wtrimspace "   "))
  /\ (all_spaces "   " = true ->
      rename_buf 64 0 "   "
      = String.substring 0 64 ("Workspace " +:+ pretty (0 + 1))
      /\ ((0 < 64)%nat -> rename_buf 64 0 "   " <> EmptyString)).
Proof.
  apply (wWorkspaceRename_stores_and_notifies 64 screen1 0 "   ").
  unfold workspace_count. simpl. lia.
Defined.

(** C3, counterexample.  Renaming workspace 0 to the name it already has
    computes that same name and still posts the name-change
    notification. *)
Lemma rename_same_name_notifies :
  name <$> workspace_at screen1 0 = Some "Workspace 1"
  /\ rename_buf 64 0 "Workspace 1" = "Workspace 1"
  /\ calls screen1 = []
  /\ calls (wWorkspaceRename 64 screen1 0 "Workspace 1")
     = [PostNotification WMDidChangeWorkspaceNameNotification 0].
Proof. vm_compute. auto. Qed.

(** C2, evaluation.  With workspaces A, B, C at indices 0, 1, 2 and no
    window, deleting index 2 succeeds, destroys the clip of C, and takes B
    (index 1) out of the list: C, now without its clip, moves to index 1. *)
Lemma wWorkspaceDelete_removes_predecessor :
  fst (wWorkspaceDelete prefs_clip 16 20 map_window unmap_window move_window
                        id screen3 2)
  = true
  /\ workspaces
       (snd (wWorkspaceDelete prefs_clip 16 20 map_window unmap_window
                              move_window id screen3 2))
     = [mkWorkspace "A" true None; mkWorkspace "C" false None]
  /\ calls (snd (wWorkspaceDelete prefs_clip 16 20 map_window unmap_window
                                  move_window id screen3 2))
     = [DockDestroy 2; PostNotification WMDidDestroyWorkspaceNotification 1].
Proof. vm_compute. auto. Qed.


Lemma force_change_last_workspace_witness :
  last_workspace (force_change_begin prefs_clip 16 screen2 1)
  = current_workspace screen2
  /\ last_workspace (transition screen2 1 None) = 1
  /\ ((forall s, current_workspace (id s) = current_workspace s) ->
      current_workspace (transition screen2 1 None) = 1
      /\ last_workspace (transition screen2 1 None)
         = current_workspace (transition screen2 1 None)).
Proof.
  apply (force_change_last_workspace prefs_clip 16 20 map_window unmap_window
           move_window id screen2 1 None); [lia|discriminate].
Defined.

Lemma reentrant_change_ignored_witness :
  wWorkspaceForceChange prefs_clip 16 20 map_window unmap_window move_window
    (fun s => request s 0 None) screen2 1 None
  = transition screen2 1 None.
Proof.
  exact (proj1 (proj2
           (reentrant_change_ignored prefs_clip 16 20 map_window unmap_window
              move_window id id id 0 None (fun s => eq_refl) screen2 1 None))).
Defined.

(** C4, counterexample.  When the event flush of [transition screen2 1]
    has returned, the flag is clear although the transition has not ended:
    [last_workspace] still holds the workspace being left, and the focus
    call, the icon arrangement and the notification are still to come.  A
    request made in that state is carried out. *)
Lemma flag_cleared_before_transition_ends :
  ignore_focus_events flushed2 = false
  /\ current_workspace flushed2 = 1
  /\ last_workspace flushed2 = 0
  /\ calls flushed2 = [WindowUnmap 7]
  /\ last_workspace (transition screen2 1 None) = 1
  /\ calls (transition screen2 1 None)
     = [WindowUnmap 7; SetFocusTo None; ArrangeIcons; ShowWorkspaceName 1;
        PostNotification WMDidChangeWorkspaceNotification 1]
  /\ current_workspace (request flushed2 0 None) = 0.
Proof. vm_compute. repeat split. Qed.



Lemma new_focus_resolution_witness :
  SetFocusTo (Some 2) ∈ calls (transition screen_selected 1 None).
Proof.
  exact (proj2 (new_focus_resolution prefs_clip 16 20 map_window unmap_window
                  move_window id screen_selected 1 None
                  ltac:(lia) ltac:(discriminate) ltac:(discriminate))).
Defined.

(** Of two selected windows moved to the target, the first one (id 1)
    miniaturized: the focus candidate of the traversal is the second one
    (id 2), the first that is not miniaturized. *)
Example focus_passes_over_miniaturized :
  frame_workspace
    <$> (focused_window (transition screen_selected 1 None) !! 0%nat)
  = Some (Some 1)
  /\ calls (transition screen_selected 1 None)
     = [SetFocusTo (Some 2); ArrangeIcons; ShowWorkspaceName 1;
        PostNotification WMDidChangeWorkspaceNotification 1].
Proof. vm_compute. repeat split. Qed.

(** ** Runs of the further properties *)

Local Abbreviation relative_cycle :=
  (wWorkspaceRelativeChange prefs_clip 16 20 map_window unmap_window
                            move_window id false true false Z.min).
Local Abbreviation relative_advance :=
  (wWorkspaceRelativeChange prefs_clip 16 20 map_window unmap_window
                            move_window id false false true Z.min).

Lemma scrollIcons_clamps_witness :
  0 <= firstVisible (scrollIcons prefs_drawn panel_scrolled 10)
    <= CFArrayGetCount (windows panel_scrolled) - visibleCount panel_scrolled
  /\ (0 <= firstVisible panel_scrolled + 10
        <= CFArrayGetCount (windows panel_scrolled)
           - visibleCount panel_scrolled ->
      firstVisible (scrollIcons prefs_drawn panel_scrolled 10)
      = firstVisible panel_scrolled + 10)
  /\ visibleCount (scrollIcons prefs_drawn panel_scrolled 10)
     = visibleCount panel_scrolled
  /\ windows (scrollIcons prefs_drawn panel_scrolled 10)
     = windows panel_scrolled
  /\ current (scrollIcons prefs_drawn panel_scrolled 10)
     = current panel_scrolled.
Proof.
  apply (scrollIcons_clamps prefs_drawn panel_scrolled 10).
  vm_compute. reflexivity.
Defined.

(** Scrolling by ten tiles stops at the last full row. *)
Example scrollIcons_stops_at_end :
  firstVisible (scrollIcons prefs_drawn panel_scrolled 10) = 2
  /\ firstVisible (scrollIcons prefs_drawn panel_scrolled (-10)) = 0.
Proof. vm_compute. auto. Qed.

Lemma select_next_in_view_witness :
  exists (panel' : WSwitchPanel) (w : wptr),
    wSwitchPanelSelectNext prefs_drawn heap3 screen1 0 panel_scrolled false
                           false false = Some (panel', Some w)
    /\ live panel' /\ viewport panel' /\ in_view panel'
    /\ visibleCount panel' = visibleCount panel_scrolled.
Proof.
  apply (select_next_in_view prefs_drawn heap3 screen1 0 panel_scrolled false
           false false).
  - unfold live, CFArrayGetCount. simpl. lia.
  - unfold viewport, CFArrayGetCount. simpl. lia.
  - reflexivity.
Defined.

Lemma wSwitchPanelSelectFirst_spec_witness :
  exists (panel' : WSwitchPanel) (w : wptr),
    wSwitchPanelSelectFirst prefs_drawn panel_scrolled true
    = Some (panel', Some w)
    /\ windows panel' = windows panel_scrolled
    /\ current panel' = CFArrayGetCount (windows panel_scrolled) - 1
    /\ CFArrayGetValueAtIndex (windows panel_scrolled) (current panel')
       = Some w
    /\ live panel'
    /\ (viewport panel_scrolled -> viewport panel' /\ in_view panel').
Proof.
  apply (wSwitchPanelSelectFirst_spec prefs_drawn panel_scrolled true).
  discriminate.
Defined.

Lemma wInitSwitchPanel_viewport_witness :
  exists panel : WSwitchPanel,
    wInitSwitchPanel prefs_drawn fresh_panel [1%N; 2%N; 3%N] 150 2%N
    = Some panel
    /\ viewport panel
    /\ firstVisible panel = 0
    /\ 1 <= visibleCount panel <= CFArrayGetCount [1%N; 2%N; 3%N]
    /\ ICON_TILE_SIZE * visibleCount panel <= 150.
Proof.
  apply (wInitSwitchPanel_viewport prefs_drawn fresh_panel [1%N; 2%N; 3%N]
           150 2%N).
  - discriminate.
  - reflexivity.
  - vm_compute. discriminate.
Defined.

Lemma absent_hint_never_cycles_witness :
  exists panel : WSwitchPanel,
    wInitSwitchPanel prefs_drawn fresh_panel [1%N; 2%N; 3%N] 1024 7%N
    = Some panel
    /\ current panel = kCFNotFound
    /\ forall (n : nat) (back ignore_minimized class_only : bool),
         wSwitchPanelSelectNext prefs_drawn heap3 screen1 0 panel back
                                ignore_minimized class_only
         = Some (panel, None)
         /\ select_next_times prefs_drawn heap3 screen1 0 n panel back
                              ignore_minimized class_only
            = Some panel.
Proof.
  apply (absent_hint_never_cycles prefs_drawn heap3 screen1 0 fresh_panel
           [1%N; 2%N; 3%N] 1024 7%N).
  - reflexivity.
  - discriminate.
  - rewrite !not_elem_of_cons. repeat split; try discriminate.
    apply not_elem_of_nil.
Defined.

Lemma sameWindowClass_equivalence_witness :
  sameWindowClass (plain_window 1 "Editor") (plain_window 1 "Editor") = true
  /\ sameWindowClass (plain_window 1 "Editor") (plain_window 2 "Editor")
     = sameWindowClass (plain_window 2 "Editor") (plain_window 1 "Editor")
  /\ sameWindowClass (plain_window 1 "Editor") (plain_window 3 "Editor")
     = true.
Proof.
  destruct (sameWindowClass_equivalence
              (plain_window 1 "Editor") (plain_window 2 "Editor")
              (plain_window 3 "Editor")) as (_ & Hrefl & Hsym & Htrans).
  split; [apply Hrefl; discriminate|].
  split; [apply Hsym; reflexivity|].
  apply Htrans; reflexivity.
Defined.

(** A GNUstep window matches a window of its class with another instance
    name only one way round: the test looks at the GNUstep flag of its
    second argument alone. *)
Example sameWindowClass_one_way :
  sameWindowClass
    (mkWindow 1 1 (Some "Editor") "one" None None true false false false
              false false true false false 0 0)
    (mkWindow 2 2 (Some "Editor") "two" None None true false false false
              false false false false false 0 0)
  = true
  /\ sameWindowClass
       (mkWindow 2 2 (Some "Editor") "two" None None true false false false
                 false false false false false 0 0)
       (mkWindow 1 1 (Some "Editor") "one" None None true false false false
                 false false true false false 0 0)
     = false.
Proof. vm_compute. auto. Qed.

Lemma class_only_candidates_witness :
  exists panel : WSwitchPanel,
    wInitSwitchPanel
      prefs_drawn fresh_panel
      (makeWindowListArray prefs_drawn heap3 screen1 0 no_skip []
                           [1%N; 2%N; 3%N] true true)
      1024 1%N
    = Some panel
    /\ current panel = 0
    /\ CFArrayGetValueAtIndex (windows panel) 0 = Some 1%N.
Proof.
  apply (class_only_candidates prefs_drawn heap3 screen1 0 no_skip []
           1%N [2%N; 3%N] true fresh_panel 1024); reflexivity.
Defined.

(** Of three windows, two of the focused window's class: these two are
    the candidates, the focused one first. *)
Example class_only_candidates_run :
  makeWindowListArray prefs_drawn heap3 screen1 0 no_skip []
                      [1%N; 2%N; 3%N] true true
  = [1%N; 2%N].
Proof. reflexivity. Qed.

Lemma application_candidates_witness :
  makeWindowListArray prefs_drawn heap3 screen1 0 no_skip apps5 [1%N; 2%N]
                      false false
  = omap app_candidate apps5
  /\ length (makeWindowListArray prefs_drawn heap3 screen1 0 no_skip apps5
                                 [1%N; 2%N] false false)
     = length (List.filter
                 (fun a => app_is_gnustep a
                           || negb (CFArrayGetCount (app_windows a) =? 0))
                 apps5)
  /\ (exists w : wptr,
        w ∈ makeWindowListArray prefs_drawn heap3 screen1 0 no_skip apps5
                                [1%N; 2%N] false false
        /\ (menu_win (mkAppWindows true None (Some 21%N) [21%N] None) = Some w
            \/ (menu_win (mkAppWindows true None (Some 21%N) [21%N] None)
                = None
                /\ main_window_desc
                     (mkAppWindows true None (Some 21%N) [21%N] None)
                   = Some w))).
Proof.
  destruct (application_candidates prefs_drawn heap3 screen1 0 no_skip apps5
              [1%N; 2%N] false eq_refl) as (Hlist & Hcount & Hevery & _).
  split; [exact Hlist|]. split; [exact Hcount|].
  apply (Hevery (mkAppWindows true None (Some 21%N) [21%N] None)).
  - right. left.
  - left. reflexivity.
Defined.

(** The candidates offered for the five applications of [apps5]. *)
Example application_candidates_run :
  makeWindowListArray prefs_drawn heap3 screen1 0 no_skip apps5 [1%N; 2%N]
                      false false
  = [10%N; 21%N; 31%N; 40%N].
Proof. reflexivity. Qed.

Lemma wSwitchPanelHandleEvent_spec_witness :
  exists (panel' : WSwitchPanel) (r : option wptr),
    wSwitchPanelHandleEvent prefs_drawn heap3 panel3 icons3 (MotionNotify 102)
    = Some (panel', r)
    /\ windows panel' = windows panel3
    /\ match r with
       | Some w =>
           exists window : Z,
             MotionNotify 102 = MotionNotify window
             /\ win panel3 = true
             /\ current panel' <> current panel3
             /\ live panel'
             /\ CFArrayGetValueAtIndex icons3 (current panel') = Some window
             /\ CFArrayGetValueAtIndex (windows panel3) (current panel')
                = Some w
       | None =>
           panel' = panel3
           /\ forall window : Z,
                MotionNotify 102 = MotionNotify window -> win panel3 = true ->
                window ∈ icons3 ->
                CFArrayGetValueAtIndex icons3 (current panel3) = Some window
       end.
Proof.
  apply (wSwitchPanelHandleEvent_spec prefs_drawn heap3 panel3 icons3
           (MotionNotify 102)); reflexivity.
Defined.

(** The pointer over the second tile selects the second candidate; when
    that candidate has no frame, its title is read through a NULL
    pointer. *)
Example hover_selects_tile :
  (fun r => (current (fst r), snd r))
    <$> wSwitchPanelHandleEvent prefs_drawn heap3 panel3 icons3
                                (MotionNotify 102)
  = Some (1, Some 2%N)
  /\ wSwitchPanelHandleEvent prefs_drawn heap_bare panel3 icons3
                             (MotionNotify 102)
     = None.
Proof. split; reflexivity. Qed.

Lemma wWorkspaceNew_index_witness :
  exists wspace : WWorkspace,
    snd (wWorkspaceNew prefs_clip 16 screen1) = workspace_count screen1
    /\ workspaces (fst (wWorkspaceNew prefs_clip 16 screen1))
       = workspaces screen1 ++ [wspace]
    /\ workspace_at (fst (wWorkspaceNew prefs_clip 16 screen1))
                    (snd (wWorkspaceNew prefs_clip 16 screen1))
       = Some wspace
    /\ ws_focused_window wspace = None
    /\ clip wspace = negb (noclip prefs_clip)
    /\ (forall i : Z,
          i < workspace_count screen1 ->
          workspace_at (fst (wWorkspaceNew prefs_clip 16 screen1)) i
          = workspace_at screen1 i)
    /\ calls (fst (wWorkspaceNew prefs_clip 16 screen1))
       = calls screen1
         ++ [PostNotification WMDidCreateWorkspaceNotification
                              (workspace_count screen1)].
Proof.
  apply (proj1 (wWorkspaceNew_index prefs_clip 16 screen1)).
  vm_compute. reflexivity.
Defined.

(** The second workspace of a screen is called "Workspace 2"; at the
    limit nothing is created. *)
Example wWorkspaceNew_run :
  name <$> workspace_at (fst (wWorkspaceNew prefs_clip 16 screen1)) 1
  = Some "Workspace 2"
  /\ wWorkspaceNew prefs_clip 1 screen1 = (screen1, -1).
Proof. vm_compute. auto. Qed.

Lemma wWorkspaceMake_capped_witness :
  exists added : list WWorkspace,
    workspaces (wWorkspaceMake prefs_clip 16 screen1 20)
    = workspaces screen1 ++ added
    /\ workspace_count (wWorkspaceMake prefs_clip 16 screen1 20)
       = Z.min (workspace_count screen1 + Z.max 0 20) 16
    /\ calls (wWorkspaceMake prefs_clip 16 screen1 20)
       = calls screen1
         ++ (PostNotification WMDidCreateWorkspaceNotification
               <$> seqZ (workspace_count screen1)
                        (workspace_count (wWorkspaceMake prefs_clip 16
                                                         screen1 20)
                         - workspace_count screen1)).
Proof.
  apply (wWorkspaceMake_capped prefs_clip 16 screen1 20).
  vm_compute. discriminate.
Defined.

Lemma transition_creates_missing_workspaces_witness :
  workspace_count (transition screen2 5 None)
  = Z.max (workspace_count screen2) (5 + 1)
  /\ workspace_count (transition screen2 5 None) <= 16
  /\ is_Some (workspace_at (transition screen2 5 None) 5).
Proof.
  apply (transition_creates_missing_workspaces
           prefs_clip 16 20 map_window unmap_window move_window id screen2 5
           None).
  - vm_compute. discriminate.
  - lia.
  - discriminate.
  - reflexivity.
Defined.

Lemma wWorkspaceChange_idempotent_witness :
  request (request screen2 1 None) 1 None = request screen2 1 None.
Proof.
  apply (wWorkspaceChange_idempotent
           prefs_clip 16 20 map_window unmap_window move_window id screen2 1
           None None).
  reflexivity.
Defined.

Lemma relative_change_stays_in_range_witness :
  workspace_count (relative_cycle screen3 7) = workspace_count screen3
  /\ 0 <= current_workspace (relative_cycle screen3 7)
       < workspace_count screen3.
Proof.
  apply (relative_change_stays_in_range
           prefs_clip 16 20 map_window unmap_window move_window id false true
           false Z.min screen3 7).
  - reflexivity.
  - vm_compute. split; [discriminate|reflexivity].
  - vm_compute. discriminate.
  - reflexivity.
  - reflexivity.
Defined.

Lemma relative_change_cycles_witness :
  current_workspace (relative_cycle screen3 (-1))
  = (current_workspace screen3 + -1) mod workspace_count screen3.
Proof.
  apply (relative_change_cycles
           prefs_clip 16 20 map_window unmap_window move_window id false true
           false Z.min screen3 (-1)); try reflexivity;
    unfold INT_MIN, INT_MAX, workspace_count; simpl; lia.
Defined.

(** From the first of three workspaces, one step back goes to the last
    one, and four steps forward go to the second one.  From the second
    workspace, an amount of [INT_MAX] makes the [int] sum wrap around to
    [INT_MIN]: the request for a negative workspace is refused and the
    second workspace stays current. *)
Example relative_change_wraps :
  current_workspace (relative_cycle screen3 (-1)) = 2
  /\ current_workspace (relative_cycle screen3 4) = 1
  /\ int32 (1 + INT_MAX) = INT_MIN
  /\ current_workspace
       (relative_cycle (set_current_workspace 1 screen3) INT_MAX)
     = 1.
Proof. vm_compute. auto. Qed.

Lemma relative_change_advances_witness :
  current_workspace (relative_advance screen3 5)
  = Z.min (current_workspace screen3 + 5) (16 - 1)
  /\ workspace_count (relative_advance screen3 5)
     = Z.max (workspace_count screen3)
             (Z.min (current_workspace screen3 + 5) (16 - 1) + 1)
  /\ workspace_count (relative_advance screen3 5) <= 16.
Proof.
  apply (relative_change_advances
           prefs_clip 16 20 map_window unmap_window move_window id false false
           true Z.min screen3 5); try reflexivity;
    unfold INT_MIN, INT_MAX, workspace_count; simpl; lia.
Defined.

Lemma new_focus_safe_witness :
  managed_window 7 0 ∈ focused_window screen2
  /\ hidden (managed_window 7 0) = false
  /\ exists candidate : WWindow,
       client_win (managed_window 7 0) = client_win candidate
       /\ (Some (managed_window 7 0) = Some candidate
           \/ (Some (managed_window 7 0) = None /\ None = Some candidate)
           \/ (Some (managed_window 7 0) = None /\ @None WWindow = None
               /\ workspace_at screen2 0 ≫= ws_focused_window
                  = Some candidate)).
Proof.
  apply (new_focus_safe screen2 0 (Some (managed_window 7 0)) None
           (managed_window 7 0)).
  reflexivity.
Defined.

Lemma saved_focus_round_trip_witness :
  (exists saved : WWindow,
     workspace_at (wWorkspaceSaveFocusedWindow screen2 0
                                               (Some (managed_window 7 0)))
                  0 ≫= ws_focused_window = Some saved
     /\ client_win saved = client_win (managed_window 7 0)
     /\ wm_class saved = wm_class (managed_window 7 0)
     /\ wm_instance saved = wm_instance (managed_window 7 0)
     /\ frame saved = None)
  /\ new_focus (wWorkspaceSaveFocusedWindow screen2 0
                                            (Some (managed_window 7 0)))
               0 None None
     = (if hidden (managed_window 7 0) then None
        else Some (managed_window 7 0))
  /\ new_focus (wWorkspaceSaveFocusedWindow screen2 0 None) 0 None None
     = None.
Proof.
  apply (saved_focus_round_trip screen2 0 (managed_window 7 0)).
  - vm_compute. split; [discriminate|reflexivity].
  - left.
  - simpl. apply NoDup_singleton.
Defined.

Lemma transition_queues_witness :
  (0%nat ∈ toUnmap (partition_loop prefs_clip 20 move_window 1 0
                                   (focused_window screen2)
                                   (mkPartition [] [] [] None (wapps screen2)))
   <-> on_workspace (managed_window 7 0) 1 = false
       /\ selected (managed_window 7 0) = false
       /\ IS_OMNIPRESENT (managed_window 7 0) = false
       /\ (mapped (managed_window 7 0) = true
           \/ shaded (managed_window 7 0) = true)
       /\ changing_workspace (managed_window 7 0) = false)
  /\ (0%nat ∈ toMap (partition_loop prefs_clip 20 move_window 1 0
                                    (focused_window screen2)
                                    (mkPartition [] [] [] None
                                                 (wapps screen2)))
      <-> on_workspace (managed_window 7 0) 1 = true
          /\ selected (managed_window 7 0) = false
          /\ hidden (managed_window 7 0) = false
          /\ mapped (managed_window 7 0) = false
          /\ miniaturized (managed_window 7 0) = false)
  /\ ~ (0%nat ∈ toUnmap (partition_loop prefs_clip 20 move_window 1 0
                                        (focused_window screen2)
                                        (mkPartition [] [] [] None
                                                     (wapps screen2)))
        /\ 0%nat ∈ toMap (partition_loop prefs_clip 20 move_window 1 0
                                         (focused_window screen2)
                                         (mkPartition [] [] [] None
                                                      (wapps screen2)))).
Proof.
  apply (transition_queues prefs_clip 20 move_window screen2 1 0%nat
           (managed_window 7 0)).
  reflexivity.
Defined.

(** Workspace 1 becomes current on a screen with a mapped window on
    workspace 0 and an unmapped one on workspace 1: the first is
    unmapped, then the second is mapped. *)
Example remap_calls_run :
  calls (fst (force_change_remap
                prefs_clip 20 map_window unmap_window move_window
                (mkScreen two_workspaces 1 0
                          [managed_window 7 0;
                           set_mapped false (managed_window 8 1)]
                          ∅ false false false [])
                1))
  = [WindowUnmap 7; WindowMap 8].
Proof. reflexivity. Qed.


Lemma wGetWorkspaceNumber_spec_witness :
  wGetWorkspaceNumber (fun _ => Some 3) screen3 "3" = 3 - 1
  /\ ((wGetWorkspaceNumber no_number screen3 "B" = -1
       /\ forall i ws, workspace_at screen3 i = Some ws -> name ws <> "B")
      \/ (0 <= wGetWorkspaceNumber no_number screen3 "B"
             < workspace_count screen3
          /\ name <$> workspace_at screen3
                                   (wGetWorkspaceNumber no_number screen3 "B")
             = Some "B"
          /\ forall i ws,
               i < wGetWorkspaceNumber no_number screen3 "B" ->
               workspace_at screen3 i = Some ws -> name ws <> "B")).
Proof.
  split.
  - apply (proj1 (wGetWorkspaceNumber_spec (fun _ => Some 3) screen3 "3") 3);
      [reflexivity|unfold INT_MIN, INT_MAX; lia].
  - apply (proj2 (wGetWorkspaceNumber_spec no_number screen3 "B")).
    reflexivity.
Defined.

(** By name, by number, and a name that no workspace has; the decrement
    of [INT_MIN] wraps around. *)
Example wGetWorkspaceNumber_run :
  wGetWorkspaceNumber no_number screen3 "B" = 1
  /\ wGetWorkspaceNumber (fun _ => Some 3) screen3 "3" = 2
  /\ wGetWorkspaceNumber no_number screen3 "D" = -1
  /\ wGetWorkspaceNumber (fun _ => Some INT_MIN) screen3 "-2147483648"
     = INT_MAX.
Proof. vm_compute. auto. Qed.

Lemma rename_then_lookup_witness :
  0 <= wGetWorkspaceNumber no_number (wWorkspaceRename 64 screen3 1 "Mail")
                           (rename_buf 64 1 "Mail")
    <= 1
  /\ name <$> workspace_at
                (wWorkspaceRename 64 screen3 1 "Mail")
                (wGetWorkspaceNumber no_number
                                     (wWorkspaceRename 64 screen3 1 "Mail")
                                     (rename_buf 64 1 "Mail"))
     = Some (rename_buf 64 1 "Mail")
  /\ ((forall i ws, 0 <= i < 1 -> workspace_at screen3 i = Some ws ->
                    name ws <> rename_buf 64 1 "Mail") ->
      wGetWorkspaceNumber no_number (wWorkspaceRename 64 screen3 1 "Mail")
                          (rename_buf 64 1 "Mail")
      = 1).
Proof.
  apply (rename_then_lookup 64 no_number screen3 1 "Mail").
  - vm_compute. split; [discriminate|reflexivity].
  - reflexivity.
Defined.

(** Renaming the second workspace to the name of the first makes the
    lookup yield the first. *)
Example rename_to_taken_name :
  wGetWorkspaceNumber no_number (wWorkspaceRename 64 screen3 1 "A") "A" = 0.
Proof. reflexivity. Qed.

Lemma wAddDeathHandler_registers_witness :
  snd (wAddDeathHandler 5%N 42 1%N 2%N events8) = 5%N
  /\ deathHandlers (fst (wAddDeathHandler 5%N 42 1%N 2%N events8))
     = Some (match deathHandlers events8 with Some l => l | None => [] end
             ++ [5%N])
  /\ handler_heap (fst (wAddDeathHandler 5%N 42 1%N 2%N events8)) !! 5%N
     = Some (mkDeathHandler 1%N 42 2%N)
  /\ (forall h, h <> 5%N ->
                handler_heap (fst (wAddDeathHandler 5%N 42 1%N 2%N events8))
                !! h
                = handler_heap events8 !! h)
  /\ handlers_wf (fst (wAddDeathHandler 5%N 42 1%N 2%N events8))
  /\ deadProcesses (fst (wAddDeathHandler 5%N 42 1%N 2%N events8))
     = deadProcesses events8
  /\ deadProcessPtr (fst (wAddDeathHandler 5%N 42 1%N 2%N events8))
     = deadProcessPtr events8
  /\ event_calls (fst (wAddDeathHandler 5%N 42 1%N 2%N events8))
     = event_calls events8.
Proof.
  apply (proj2 (wAddDeathHandler_registers 5%N 42 1%N 2%N events8 I
                  eq_refl)).
  discriminate.
Defined.

Lemma NotifyDeadProcess_bounded_witness :
  stack_wf 8 (NotifyDeadProcess 8 42 1 events8)
  /\ (deadProcessPtr events8 < 8 - 1 ->
      dead_stack (NotifyDeadProcess 8 42 1 events8)
      = dead_stack events8 ++ [mkDeadProcesses 42 1]
      /\ deadProcessPtr (NotifyDeadProcess 8 42 1 events8)
         = deadProcessPtr events8 + 1)
  /\ (deadProcessPtr events8 = 8 - 1 ->
      NotifyDeadProcess 8 42 1 events8 = events8)
  /\ handler_heap (NotifyDeadProcess 8 42 1 events8) = handler_heap events8
  /\ deathHandlers (NotifyDeadProcess 8 42 1 events8) = deathHandlers events8
  /\ event_calls (NotifyDeadProcess 8 42 1 events8) = event_calls events8.
Proof.
  apply (NotifyDeadProcess_bounded 8 42 1 events8).
  split; [reflexivity|]. vm_compute. split; discriminate.
Defined.

(** A stack of eight slots takes seven notifications; the eighth one is
    dropped. *)
Example NotifyDeadProcess_drops_eighth :
  deadProcessPtr (Nat.iter 7 (NotifyDeadProcess 8 42 1) events8) = 7
  /\ Nat.iter 8 (NotifyDeadProcess 8 42 1) events8
     = Nat.iter 7 (NotifyDeadProcess 8 42 1) events8.
Proof. split; reflexivity. Qed.

Lemma handleDeadProcess_dispatches_witness :
  exists (st' : EventState) (cbs : list EventCall),
    handleDeadProcess events_pending = Some st'
    /\ deadProcessPtr st' = 0
    /\ deathHandlers st'
       = Some (List.filter
                 (fun h => negb (for_dead_process events_pending h))
                 [5%N; 6%N])
    /\ (forall h, h ∈ [5%N; 6%N] ->
                  handler_heap st' !! h
                  = if for_dead_process events_pending h then None
                    else handler_heap events_pending !! h)
    /\ event_calls st'
       = event_calls events_pending
         ++ (DeleteSavedStatesForPID <$> (pid <$> dead_stack events_pending))
         ++ cbs
    /\ length cbs
       = length (List.filter (fun h => for_dead_process events_pending h)
                             [5%N; 6%N])
    /\ forall c : EventCall,
         c ∈ cbs
         <-> exists (h : wptr) (r : DeathHandler) (d : DeadProcesses),
               h ∈ [5%N; 6%N]
               /\ handler_heap events_pending !! h = Some r
               /\ find (fun d => handler_pid r =? pid d)
                       (rev (dead_stack events_pending)) = Some d
               /\ c = death_call r d.
Proof.
  apply (handleDeadProcess_dispatches events_pending [5%N; 6%N]).
  - vm_compute. split; discriminate.
  - reflexivity.
  - split.
    + apply NoDup_cons. split; [|apply NoDup_singleton].
      rewrite list_elem_of_singleton. discriminate.
    + intros h Hh. apply elem_of_cons in Hh as [->|Hh];
        [|apply list_elem_of_singleton in Hh as ->];
        (split; [discriminate|eexists; reflexivity]).
Defined.

(** The handler for the dead process is called and removed; the other
    one stays. *)
Example handleDeadProcess_run :
  (fun st => (deathHandlers st, deadProcessPtr st, event_calls st))
    <$> handleDeadProcess events_pending
  = Some (Some [6%N], 0,
          [DeleteSavedStatesForPID 42; DeathCallback 1%N 42 1 2%N]).
Proof. reflexivity. Qed.

Lemma death_notice_round_trip_witness :
  exists (st3 : EventState) (l3 : list wptr),
    handleDeadProcess
      (NotifyDeadProcess 8 42 1
                         (fst (wAddDeathHandler 5%N 42 1%N 2%N events8)))
    = Some st3
    /\ DeathCallback 1%N 42 1 2%N ∈ event_calls st3
    /\ deathHandlers st3 = Some l3
    /\ (5%N ∉ l3)
    /\ handler_heap st3 !! 5%N = None
    /\ deadProcessPtr st3 = 0.
Proof.
  apply (death_notice_round_trip 8 5%N 42 1 1%N 2%N events8).
  - exact I.
  - split; [reflexivity|]. vm_compute. split; discriminate.
  - reflexivity.
  - discriminate.
  - reflexivity.
Defined.

Lemma IsDoubleClick_not_twice_witness :
  last_click_time (fst (IsDoubleClick within_250 clicked press)) = 0
  /\ next_click_is_not_double (fst (IsDoubleClick within_250 clicked press))
     = true
  /\ last_click_window clicked = xbutton_window press
  /\ last_click_button clicked = xbutton_button press
  /\ forall event' : XButtonEvent,
       IsDoubleClick within_250 (fst (IsDoubleClick within_250 clicked press))
                     event'
       = (fst (IsDoubleClick within_250 clicked press), false).
Proof.
  apply (proj1 (IsDoubleClick_not_twice within_250 clicked press)).
  reflexivity.
Defined.

Lemma cycling_keeps_selection_in_view_witness :
  exists panel : WSwitchPanel,
    wInitSwitchPanel prefs_drawn fresh_panel [1%N; 2%N; 3%N] 150 2%N
    = Some panel
    /\ live panel
    /\ forall (n : nat) (back ignore_minimized class_only : bool),
       exists panel' : WSwitchPanel,
         select_next_times prefs_drawn heap3 screen1 0 n panel back
                           ignore_minimized class_only
         = Some panel'
         /\ windows panel' = [1%N; 2%N; 3%N]
         /\ live panel' /\ viewport panel'
         /\ ((0 < n)%nat -> in_view panel').
Proof.
  destruct (cycling_keeps_selection_in_view prefs_drawn heap3 screen1 0
              fresh_panel [1%N; 2%N; 3%N] 150 2%N)
    as (panel & Hinit & Hlive & Hcycle).
  - reflexivity.
  - right. left.
  - reflexivity.
  - vm_compute. discriminate.
  - exists panel. split; [exact Hinit|]. split; [exact Hlive|].
    intros n back ignore_minimized class_only. apply Hcycle.
    destruct class_only; reflexivity.
Defined.

(** On a head that shows one tile of three, the tile shown is the one
    selected, step after step. *)
Example cycling_scrolls_one_tile :
  (fun p => (current p, firstVisible p, visibleCount p))
    <$> (wInitSwitchPanel prefs_drawn fresh_panel [1%N; 2%N; 3%N] 150 2%N
           ≫= (fun p => select_next_times prefs_drawn heap3 screen1 0 1 p
                                          false false false))
  = Some (2, 2, 1)
  /\ (fun p => (current p, firstVisible p, visibleCount p))
       <$> (wInitSwitchPanel prefs_drawn fresh_panel [1%N; 2%N; 3%N] 150 2%N
              ≫= (fun p => select_next_times prefs_drawn heap3 screen1 0 2 p
                                             false false false))
     = Some (0, 0, 1).
Proof. vm_compute. auto. Qed.
